(** * Time-dependent route search over a timetable store (ChercheTrajet.py)

    A shallow embedding of the route-search core of the TGV/Neo4j project:
    the duration arithmetic ([calculate_duration], [calculate_total_time]),
    the two store queries ([get_premiernodes], [get_neighbors]), the search
    loop ([dijkstra]) and the arrival-time selection of [main].

    Conventions of the embedding.
    - Python values that may be [None] are [option]s; dates and times are
      the strings the store holds ("dd/mm/YYYY", "HH:MM").
    - A Python exception is the [Raise] branch of [result].
    - Minutes are integers: every instant handled here has whole minutes, so
      the float [total_seconds() / 60] is an exact integer value.
    - Strings are byte strings; the model of [strptime] recognises the
      ASCII digits and the ASCII white space. *)

From Stdlib Require Import ZArith String Ascii List Lia Bool.
From stdpp Require Import gmap strings list.

Open Scope string_scope.
Open Scope Z_scope.

(** ** Exceptions and results *)

Inductive exn : Type :=
| ValueError
| TypeError
| OverflowError
| IndexError
| UnboundLocalError.

Inductive result (A : Type) : Type :=
| Ok (a : A)
| Raise (e : exn).

Arguments Ok {A} a.
Arguments Raise {A} e.

Definition bind {A B : Type} (r : result A) (k : A -> result B) : result B :=
  match r with
  | Ok a => k a
  | Raise e => Raise e
  end.

Notation "x <- r ;; k" := (bind r (fun x => k))
  (at level 100, r at next level, right associativity).

(** ** Calendar arithmetic of Python's [datetime] module *)

Module Calendar.

Definition is_leap (year : Z) : bool :=
  (year mod 4 =? 0) && (negb (year mod 100 =? 0) || (year mod 400 =? 0)).

Definition days_before_year (year : Z) : Z :=
  let y := year - 1 in y * 365 + y / 4 - y / 100 + y / 400.

Definition days_in_month (year month : Z) : Z :=
  if month =? 2 then (if is_leap year then 29 else 28)
  else if (month =? 4) || (month =? 6) || (month =? 9) || (month =? 11)
       then 30 else 31.

Definition days_before_month_table (month : Z) : Z :=
  if month =? 1 then 0 else if month =? 2 then 31 else
  if month =? 3 then 59 else if month =? 4 then 90 else
  if month =? 5 then 120 else if month =? 6 then 151 else
  if month =? 7 then 181 else if month =? 8 then 212 else
  if month =? 9 then 243 else if month =? 10 then 273 else
  if month =? 11 then 304 else 334.

Definition days_before_month (year month : Z) : Z :=
  days_before_month_table month
  + (if (2 <? month) && is_leap year then 1 else 0).

Definition ymd2ord (year month day : Z) : Z :=
  days_before_year year + days_before_month year month + day.

Definition MINYEAR : Z := 1.
Definition MAXYEAR : Z := 9999.

(** [date.max.toordinal()] *)
Definition MAXORDINAL : Z := 3652059.

End Calendar.

(** A [datetime] value.  The date part is kept as its proleptic Gregorian
    ordinal ([toordinal()]), which is what comparison, subtraction and
    [timedelta] addition work on. *)
Record datetime : Type := mkDatetime {
  dt_ordinal : Z;
  dt_hour : Z;
  dt_minute : Z
}.

(** [a > b] on datetimes: field by field, most significant first. *)
Definition datetime_gt (a b : datetime) : bool :=
  if dt_ordinal b <? dt_ordinal a then true
  else if dt_ordinal a <? dt_ordinal b then false
  else if dt_hour b <? dt_hour a then true
  else if dt_hour a <? dt_hour b then false
  else dt_minute b <? dt_minute a.

(** [(a.date() - b.date()).days] *)
Definition date_diff_days (a b : datetime) : Z := dt_ordinal a - dt_ordinal b.

(** [a + timedelta(days=k)]; Python raises [OverflowError] when the date
    leaves the supported range. *)
Definition add_days (a : datetime) (k : Z) : result datetime :=
  let o := dt_ordinal a + k in
  if (1 <=? o) && (o <=? Calendar.MAXORDINAL)
  then Ok (mkDatetime o (dt_hour a) (dt_minute a))
  else Raise OverflowError.

(** [(a - b).total_seconds() / 60] *)
Definition minutes_between (a b : datetime) : Z :=
  (dt_ordinal a - dt_ordinal b) * 1440
  + ((dt_hour a * 60 + dt_minute a) - (dt_hour b * 60 + dt_minute b)).

(** ** [datetime.strptime(s, "%d/%m/%Y %H:%M")] *)

Module Strptime.

Definition digit (c : ascii) : option Z :=
  let n := Z.of_N (N_of_ascii c) in
  if (48 <=? n) && (n <=? 57) then Some (n - 48) else None.

(** [\s] on ASCII text: space, \t, \n, \v, \f, \r and the four
    separators \x1c to \x1f. *)
Definition is_space (c : ascii) : bool :=
  let n := Z.of_N (N_of_ascii c) in
  (n =? 32) || ((9 <=? n) && (n <=? 13)) || ((28 <=? n) && (n <=? 31)).

(** Cuts [s] at the first occurrence of [sep]; [None] when there is none. *)
Fixpoint split_at (sep : ascii) (s : string) : option (string * string) :=
  match s with
  | EmptyString => None
  | String c rest =>
      if Ascii.eqb c sep then Some (EmptyString, rest)
      else match split_at sep rest with
           | Some (a, b) => Some (String c a, b)
           | None => None
           end
  end.

Fixpoint drop_spaces (s : string) : string :=
  match s with
  | String c rest => if is_space c then drop_spaces rest else s
  | EmptyString => s
  end.

(** %d : 3[0-1] | [1-2]\d | 0[1-9] | [1-9] | " "[1-9] *)
Definition parse_day (tok : string) : option Z :=
  match tok with
  | String a (String b EmptyString) =>
      match digit a, digit b with
      | Some x, Some y =>
          if ((x =? 3) && (y <=? 1)) || (x =? 1) || (x =? 2)
             || ((x =? 0) && (1 <=? y))
          then Some (10 * x + y) else None
      | None, Some y =>
          if Ascii.eqb a " " && (1 <=? y) then Some y else None
      | _, _ => None
      end
  | String a EmptyString =>
      match digit a with
      | Some x => if 1 <=? x then Some x else None
      | None => None
      end
  | _ => None
  end.

(** %m : 1[0-2] | 0[1-9] | [1-9] *)
Definition parse_month (tok : string) : option Z :=
  match tok with
  | String a (String b EmptyString) =>
      match digit a, digit b with
      | Some x, Some y =>
          if ((x =? 1) && (y <=? 2)) || ((x =? 0) && (1 <=? y))
          then Some (10 * x + y) else None
      | _, _ => None
      end
  | String a EmptyString =>
      match digit a with
      | Some x => if 1 <=? x then Some x else None
      | None => None
      end
  | _ => None
  end.

(** %Y : \d\d\d\d, a prefix of the text; the rest is returned. *)
Definition parse_year (s : string) : option (Z * string) :=
  match s with
  | String a (String b (String c (String d rest))) =>
      match digit a, digit b, digit c, digit d with
      | Some x, Some y, Some z, Some w =>
          Some (1000 * x + 100 * y + 10 * z + w, rest)
      | _, _, _, _ => None
      end
  | _ => None
  end.

(** %H : 2[0-3] | [0-1]\d | \d *)
Definition parse_hour (tok : string) : option Z :=
  match tok with
  | String a (String b EmptyString) =>
      match digit a, digit b with
      | Some x, Some y =>
          if ((x =? 2) && (y <=? 3)) || (x <=? 1)
          then Some (10 * x + y) else None
      | _, _ => None
      end
  | String a EmptyString => digit a
  | _ => None
  end.

(** %M : [0-5]\d | \d, which must reach the end of the text. *)
Definition parse_minute (tok : string) : option Z :=
  match tok with
  | String a (String b EmptyString) =>
      match digit a, digit b with
      | Some x, Some y => if x <=? 5 then Some (10 * x + y) else None
      | _, _ => None
      end
  | String a EmptyString => digit a
  | _ => None
  end.

(** The white space of the format matches one or more white-space
    characters. *)
Definition skip_spaces (s : string) : option string :=
  match s with
  | String c rest => if is_space c then Some (drop_spaces rest) else None
  | EmptyString => None
  end.

Definition fields (s : string) : option (Z * Z * Z * Z * Z) :=
  match split_at "/" s with
  | None => None
  | Some (dtok, s1) =>
  match parse_day dtok, split_at "/" s1 with
  | Some d, Some (mtok, s2) =>
  match parse_month mtok, parse_year s2 with
  | Some m, Some (y, s3) =>
  match skip_spaces s3 with
  | None => None
  | Some s4 =>
  match split_at ":" s4 with
  | None => None
  | Some (htok, s5) =>
  match parse_hour htok, parse_minute s5 with
  | Some h, Some mi => Some (d, m, y, h, mi)
  | _, _ => None
  end end end
  | _, _ => None
  end
  | _, _ => None
  end end.

(** A text that does not match the format, or that names a day that does
    not exist, raises [ValueError]. *)
Definition strptime (s : string) : result datetime :=
  match fields s with
  | None => Raise ValueError
  | Some (d, m, y, h, mi) =>
      if (Calendar.MINYEAR <=? y) && (d <=? Calendar.days_in_month y m)
      then Ok (mkDatetime (Calendar.ymd2ord y m d) h mi)
      else Raise ValueError
  end.

End Strptime.

(** [date + " " + time]: concatenating [None] raises [TypeError]. *)
Definition date_time_text (date time : option string) : result string :=
  match date, time with
  | Some d, Some t => Ok (d ++ " " ++ t)%string
  | _, _ => Raise TypeError
  end.

Definition parse_instant (date time : option string) : result datetime :=
  s <- date_time_text date time ;;
  Strptime.strptime s.

(** ** Neo4jGraph.calculate_duration and calculate_total_time *)

Definition calculate_duration
    (departure_date departure_time arrival_date arrival_time : option string)
    : result Z :=
  match departure_time, arrival_time with
  | None, _ | _, None => Ok 0
  | Some _, Some _ =>
      departure_datetime <- parse_instant departure_date departure_time ;;
      arrival_datetime <- parse_instant arrival_date arrival_time ;;
      let day_difference := date_diff_days arrival_datetime departure_datetime in
      arrival_datetime <-
        (if day_difference <? 0
         then add_days arrival_datetime (- day_difference)
         else Ok arrival_datetime) ;;
      next_train_departure <- add_days departure_datetime day_difference ;;
      let arrival_datetime :=
        if datetime_gt arrival_datetime next_train_departure
        then next_train_departure else arrival_datetime in
      Ok (minutes_between arrival_datetime departure_datetime)
  end.

Definition calculate_total_time
    (departure_date departure_time arrival_date arrival_time : option string)
    : result Z :=
  departure_datetime <- parse_instant departure_date departure_time ;;
  arrival_datetime <- parse_instant arrival_date arrival_time ;;
  Ok (minutes_between arrival_datetime departure_datetime).

(** ** The timetable store

    A [MOOVE] relationship of the graph database, with the [nom] of the
    stations at both ends.  A property that is absent reads as [null]. *)
Record Moove : Type := mkMoove {
  origin_nom : string;
  neighbor_nom : string;
  numtrain : option string;
  datedepart : option string;
  datearrive : option string;
  hdepart : option string;
  harrive : option string
}.

Definition Graph : Type := list Moove.

Module Cypher.

(** Comparisons are three-valued: [None] is [null]. Strings compare in
    lexicographic order of their characters. *)
Definition ge (a b : option string) : option bool :=
  match a, b with
  | Some x, Some y => Some (String.leb y x)
  | _, _ => None
  end.

Definition eq (a b : option string) : option bool :=
  match a, b with
  | Some x, Some y => Some (String.eqb x y)
  | _, _ => None
  end.

Definition and (a b : option bool) : option bool :=
  match a, b with
  | Some false, _ | _, Some false => Some false
  | Some true, Some true => Some true
  | _, _ => None
  end.

(** WHERE keeps a row only when its predicate is [true]. *)
Definition holds (v : option bool) : bool :=
  match v with
  | Some true => true
  | _ => false
  end.

(** Ascending order of one sort key; [null] sorts last. *)
Definition key_compare (a b : option string) : comparison :=
  match a, b with
  | Some x, Some y => String.compare x y
  | Some _, None => Lt
  | None, Some _ => Gt
  | None, None => Eq
  end.

(** ORDER BY r.datedepart, r.hdepart *)
Definition row_le (a b : Moove) : bool :=
  match key_compare (datedepart a) (datedepart b) with
  | Lt => true
  | Gt => false
  | Eq => match key_compare (hdepart a) (hdepart b) with
          | Gt => false
          | _ => true
          end
  end.

Fixpoint insert_row (r : Moove) (rows : list Moove) : list Moove :=
  match rows with
  | [] => [r]
  | x :: rest => if row_le r x then r :: rows else x :: insert_row r rest
  end.

(** Rows with equal keys keep the order the store holds them in (the
    database leaves that order open). *)
Definition order_by (rows : list Moove) : list Moove :=
  fold_right insert_row [] rows.

End Cypher.

(** One of the four fields the two readers check is [None]. *)
Definition incomplete (r : Moove) : bool :=
  match datedepart r, hdepart r, datearrive r, harrive r with
  | Some _, Some _, Some _, Some _ => false
  | _, _, _, _ => true
  end.

(** ** Node *)

(** [float] distances: a whole number of minutes, or [float('inf')]. *)
Inductive Distance : Type :=
| Finite (minutes : Z)
| Infinity.

Definition dist_lt (a b : Distance) : bool :=
  match a, b with
  | Finite x, Finite y => x <? y
  | Finite _, Infinity => true
  | Infinity, _ => false
  end.

Definition dist_add (a b : Distance) : Distance :=
  match a, b with
  | Finite x, Finite y => Finite (x + y)
  | _, _ => Infinity
  end.

(** A [Node] object.  [oid] is the identity of the object: [Node] defines
    no [__eq__], so [==], [in], [remove] and [index] compare identities.
    [parent] holds the parent object itself: a node is written to only
    before it is linked as a parent, so the copy equals the object. *)
#[warnings="-register-all"]
Inductive Node : Type :=
  mkNode (oid : nat) (name : string) (parent : option Node)
         (distance : Distance)
         (departure_date departure_time arrival_date arrival_time : option string)
         (train_number : option string).

Definition oid (n : Node) : nat :=
  match n with mkNode i _ _ _ _ _ _ _ _ => i end.
Definition name (n : Node) : string :=
  match n with mkNode _ s _ _ _ _ _ _ _ => s end.
Definition parent (n : Node) : option Node :=
  match n with mkNode _ _ p _ _ _ _ _ _ => p end.
Definition distance (n : Node) : Distance :=
  match n with mkNode _ _ _ d _ _ _ _ _ => d end.
Definition departure_date (n : Node) : option string :=
  match n with mkNode _ _ _ _ x _ _ _ _ => x end.
Definition departure_time (n : Node) : option string :=
  match n with mkNode _ _ _ _ _ x _ _ _ => x end.
Definition arrival_date (n : Node) : option string :=
  match n with mkNode _ _ _ _ _ _ x _ _ => x end.
Definition arrival_time (n : Node) : option string :=
  match n with mkNode _ _ _ _ _ _ _ x _ => x end.
Definition train_number (n : Node) : option string :=
  match n with mkNode _ _ _ _ _ _ _ _ x => x end.

(** [Node(name, departure_date, departure_time, arrival_date, arrival_time,
    train_number)] allocated as object [i]. *)
Definition new_Node (i : nat) (nm : string)
    (dd dt ad at_ : option string) (tn : option string) : Node :=
  mkNode i nm None Infinity dd dt ad at_ tn.

(** [n.parent = p; n.distance = d] *)
Definition set_parent_distance (n : Node) (p : Node) (d : Distance) : Node :=
  match n with
  | mkNode i nm _ _ dd dt ad at_ tn => mkNode i nm (Some p) d dd dt ad at_ tn
  end.

(** [n.distance = d; n.parent = p] on the object held by a list: every
    entry that is this object shows the new fields. *)
Definition write_node (n : Node) (l : list Node) : list Node :=
  map (fun x => if Nat.eqb (oid x) (oid n) then n else x) l.

(** [n in l] *)
Definition node_in (n : Node) (l : list Node) : bool :=
  existsb (fun x => Nat.eqb (oid x) (oid n)) l.

(** [l.remove(n)]: the first entry equal to [n] goes. *)
Fixpoint remove_node (n : Node) (l : list Node) : list Node :=
  match l with
  | [] => []
  | x :: rest => if Nat.eqb (oid x) (oid n) then rest else x :: remove_node n rest
  end.

(** [l[l.index(n)]] *)
Definition find_node (n : Node) (l : list Node) : option Node :=
  List.find (fun x => Nat.eqb (oid x) (oid n)) l.

(** [min(l, key=lambda x: x.distance)] for a non-empty list [first :: l]:
    the first entry whose distance no other entry undercuts. *)
Fixpoint min_node (best : Node) (l : list Node) : Node :=
  match l with
  | [] => best
  | x :: rest =>
      if dist_lt (distance x) (distance best) then min_node x rest
      else min_node best rest
  end.

(** ** Neo4jGraph.get_premiernodes and get_neighbors *)

Definition premier_query (graph : Graph) (node_name : string)
    (dep_date dep_time : option string) : list Moove :=
  Cypher.order_by
    (List.filter (fun r =>
       String.eqb (origin_nom r) node_name
       && Cypher.holds (Cypher.and (Cypher.eq (datedepart r) dep_date)
                                   (Cypher.ge (hdepart r) dep_time)))
       graph).

(** The nodes carry the name of the station the train leaves from
    ([n.nom]).  [fresh] is the identity of the first object created. *)
Fixpoint premier_nodes_of (fresh : nat) (records : list Moove) : list Node :=
  match records with
  | [] => []
  | r :: rest =>
      if incomplete r then premier_nodes_of fresh rest
      else new_Node fresh (origin_nom r) (datedepart r) (hdepart r)
                    (datearrive r) (harrive r) (numtrain r)
           :: premier_nodes_of (S fresh) rest
  end.

Definition get_premiernodes (graph : Graph) (fresh : nat) (node_name : string)
    (dep_date dep_time : option string) : list Node :=
  match dep_date, dep_time with
  | Some _, Some _ =>
      premier_nodes_of fresh (premier_query graph node_name dep_date dep_time)
  | _, _ => []
  end.

(** The query of [get_neighbors]. *)
Definition neighbors_query (graph : Graph) (node_name : string)
    (dep_date dep_time : option string) : list Moove :=
  Cypher.order_by
    (List.filter (fun r =>
       String.eqb (origin_nom r) node_name
       && Cypher.holds (Cypher.and (Cypher.ge (datedepart r) dep_date)
                                   (Cypher.ge (hdepart r) dep_time)))
       graph).

(** The records [get_neighbors] keeps: the query's rows, less those with a
    missing date or time. *)
Definition departing_records (graph : Graph) (node_name : string)
    (dep_date dep_time : option string) : list Moove :=
  List.filter (fun r => negb (incomplete r))
         (neighbors_query graph node_name dep_date dep_time).

(** The body of the loop over the records.  The generator is run to its
    end at once: an exception it would raise at some record is raised for
    the whole call, which is what its only caller sees as well. *)
Fixpoint neighbors_of (fresh : nat) (dep_date dep_time : option string)
    (records : list Moove) : result (list (Node * Z)) :=
  match records with
  | [] => Ok []
  | r :: rest =>
      if incomplete r then neighbors_of fresh dep_date dep_time rest
      else
        let neighbor :=
          new_Node fresh (neighbor_nom r) (datedepart r) (hdepart r)
                   (datearrive r) (harrive r) (numtrain r) in
        next_train_departure <-
          parse_instant (departure_date neighbor) (departure_time neighbor) ;;
        current_arrival <- parse_instant dep_date dep_time ;;
        if datetime_gt next_train_departure current_arrival then
          neighbor_distance <-
            calculate_duration dep_date dep_time
                               (arrival_date neighbor) (arrival_time neighbor) ;;
          others <- neighbors_of (S fresh) dep_date dep_time rest ;;
          Ok ((neighbor, neighbor_distance) :: others)
        else neighbors_of (S fresh) dep_date dep_time rest
  end.

Definition get_neighbors (graph : Graph) (fresh : nat) (node_name : string)
    (dep_date dep_time : option string) : result (list (Node * Z)) :=
  neighbors_of fresh dep_date dep_time
               (neighbors_query graph node_name dep_date dep_time).

(** Number of [Node] objects one call creates. *)
Definition created (graph : Graph) (node_name : string)
    (dep_date dep_time : option string) : nat :=
  length (departing_records graph node_name dep_date dep_time).

(** ** dijkstra *)

(** A call of [get_neighbors], as the store sees it. *)
Definition StoreQuery : Type := (string * option string * option string)%type.

(** The local state of the search loop: the two sets, the identity of the
    next object to be created, and the queries sent so far. *)
Record SearchState : Type := mkSearchState {
  open_set : list Node;
  closed_set : gset string;
  next_oid : nat;
  queries : list StoreQuery
}.

(** The path is read off the parent links, goal first. *)
Fixpoint parents_of (n : Node) : list Node :=
  match n with
  | mkNode _ _ p _ _ _ _ _ _ =>
      n :: match p with
           | Some q => parents_of q
           | None => []
           end
  end.

(** The body of the loop over the neighbors, for one of them. *)
Definition relax (current_node : Node) (closed : gset string)
    (open : list Node) (yielded : Node * Z) : list Node :=
  let (neighbor, neighbor_distance) := yielded in
  if bool_decide (name neighbor ∈ closed) then open
  else
    let tentative_distance :=
      dist_add (distance current_node) (Finite neighbor_distance) in
    if dist_lt tentative_distance (distance neighbor) then
      let neighbor :=
        set_parent_distance neighbor current_node tentative_distance in
      if node_in neighbor open then write_node neighbor open
      else (open ++ [neighbor])%list
    else
      if node_in neighbor open then
        match find_node neighbor open with
        | Some existing_neighbor =>
            if dist_lt tentative_distance (distance existing_neighbor)
            then write_node
                   (set_parent_distance existing_neighbor current_node
                                        tentative_distance) open
            else open
        | None => open
        end
      else open.

Inductive Step : Type :=
| Returned (path : option (list Node)) (sent : list StoreQuery)
| Raised (e : exn) (sent : list StoreQuery)
| Continue (st : SearchState).

(** One turn of [while open_set:]. *)
Definition dijkstra_step (graph : Graph) (goal_node_name : string)
    (st : SearchState) : Step :=
  match open_set st with
  | [] => Returned None (queries st)
  | first :: others =>
      let current_node := min_node first others in
      let open := remove_node current_node (open_set st) in
      if String.eqb (name current_node) goal_node_name
      then Returned (Some (rev (parents_of current_node))) (queries st)
      else
        let closed := closed_set st ∪ {[ name current_node ]} in
        let sent :=
          (queries st ++ [(name current_node, departure_date current_node,
                           departure_time current_node)])%list in
        match get_neighbors graph (next_oid st) (name current_node)
                (departure_date current_node) (departure_time current_node) with
        | Raise e => Raised e sent
        | Ok yielded =>
            Continue
              (mkSearchState
                 (fold_left (relax current_node closed) yielded open)
                 closed
                 (next_oid st
                  + created graph (name current_node)
                      (departure_date current_node)
                      (departure_time current_node))%nat
                 sent)
        end
  end.

(** The outcome of a call: what it returns or raises, and the queries it
    sent to the store. *)
Definition Outcome : Type := (result (option (list Node)) * list StoreQuery)%type.

(** The loop, run for at most [fuel] turns; [None] when they do not
    suffice. *)
Fixpoint dijkstra_loop (fuel : nat) (graph : Graph) (goal_node_name : string)
    (st : SearchState) : option Outcome :=
  match fuel with
  | O => None
  | S fuel' =>
      match dijkstra_step graph goal_node_name st with
      | Returned path sent => Some (Ok path, sent)
      | Raised e sent => Some (Raise e, sent)
      | Continue st' => dijkstra_loop fuel' graph goal_node_name st'
      end
  end.

(** [start_node], with [distance = 0]; it is object [fresh]. *)
Definition start_node (fresh : nat) (start_node_name : string)
    (dep_date dep_time arr_date arr_time : option string) : Node :=
  mkNode fresh start_node_name None (Finite 0)
         dep_date dep_time arr_date arr_time (Some "").

Definition initial_state (fresh : nat) (start_node_name : string)
    (dep_date dep_time arr_date arr_time : option string) : SearchState :=
  mkSearchState
    [start_node fresh start_node_name dep_date dep_time arr_date arr_time]
    ∅ (S fresh) [].

Definition dijkstra (fuel : nat) (fresh : nat)
    (start_node_name goal_node_name : string)
    (dep_date dep_time arr_date arr_time : option string)
    (graph : Graph) : option Outcome :=
  dijkstra_loop fuel graph goal_node_name
    (initial_state fresh start_node_name dep_date dep_time arr_date arr_time).

(** ** main, mode 'normal', choice "2": the journey for a wished arrival time *)

Module ArrivalMode.

(** What the lists of this branch hold: a path's nodes, then its score. *)
Inductive PyValue : Type :=
| PyNode (n : Node)
| PyInt (z : Z).

(** [path[-2]] *)
Definition penultimate (path : list Node) : result Node :=
  match nth_error path (length path - 2), (2 <=? length path)%nat with
  | Some n, true => Ok n
  | _, _ => Raise IndexError
  end.

(** The loop over the first trains, given what [dijkstra] returned for each
    of them: it fills [Liste] and [L]. *)
Fixpoint collect (dep_date arrival_time_mode : string)
    (paths : list (option (list Node)))
    (Liste : list (list PyValue)) (L : list Z)
    : result (list (list PyValue) * list Z) :=
  match paths with
  | [] => Ok (Liste, L)
  | None :: rest | Some [] :: rest =>
      collect dep_date arrival_time_mode rest Liste L
  | Some path :: rest =>
      arrival_node <- penultimate path ;;
      temps <- calculate_total_time (Some dep_date) (arrival_time arrival_node)
                                    (Some dep_date) (Some arrival_time_mode) ;;
      collect dep_date arrival_time_mode rest
              (Liste ++ [map PyNode path ++ [PyInt temps]])%list
              (L ++ [temps])%list
  end.

(** The loop over [L]. *)
Definition smallest_positive_of (L : list Z) : option Z :=
  fold_left
    (fun smallest_positive number =>
       if 0 <? number then
         match smallest_positive with
         | None => Some number
         | Some s => if number <? s then Some number else smallest_positive
         end
       else smallest_positive)
    L None.

(** [smallest_positive == v]: [None] and numbers never equal a [Node]. *)
Definition equals (smallest_positive : option Z) (v : PyValue) : bool :=
  match smallest_positive, v with
  | Some a, PyInt b => a =? b
  | _, _ => false
  end.

(** The loop over [enumerate(Liste)], from position [i] on; [None] when
    [index] is never assigned. *)
Fixpoint index_of (smallest_positive : option Z) (i : nat)
    (Liste : list (list PyValue)) : option nat :=
  match Liste with
  | [] => None
  | sous_liste :: rest =>
      if existsb (equals smallest_positive) sous_liste then Some i
      else index_of smallest_positive (S i) rest
  end.

(** What the branch reports. *)
Inductive Report : Type :=
| Selected (smallest_positive : option Z) (index : nat)
           (min_path : list PyValue)
| NoTrain.

Definition select (Liste : list (list PyValue)) (L : list Z) : result Report :=
  match L with
  | [] => Ok NoTrain
  | _ :: _ =>
      let smallest_positive := smallest_positive_of L in
      match index_of smallest_positive 0 Liste with
      | None => Raise UnboundLocalError
      | Some index =>
          match nth_error Liste index with
          | Some min_path => Ok (Selected smallest_positive index min_path)
          | None => Raise IndexError
          end
      end
  end.

Definition best_fit (dep_date arrival_time_mode : string)
    (paths : list (option (list Node))) : result Report :=
  lists <- collect dep_date arrival_time_mode paths [] [] ;;
  select (fst lists) (snd lists).

(** The calls of [dijkstra], one for each first train; [None] when [fuel]
    does not suffice for one of them. *)
Fixpoint searches (fuel fresh : nat) (graph : Graph)
    (start_node_name goal_node_name : string) (premier_nodes : list Node)
    : option (result (list (option (list Node)))) :=
  match premier_nodes with
  | [] => Some (Ok [])
  | premier_node :: rest =>
      match dijkstra fuel fresh start_node_name goal_node_name
              (departure_date premier_node) (departure_time premier_node)
              (arrival_date premier_node) (arrival_time premier_node) graph with
      | None => None
      | Some (Raise e, _) => Some (Raise e)
      | Some (Ok path, _) =>
          match searches fuel fresh graph start_node_name goal_node_name rest with
          | None => None
          | Some (Raise e) => Some (Raise e)
          | Some (Ok paths) => Some (Ok (path :: paths))
          end
      end
  end.

Definition run (fuel : nat) (graph : Graph)
    (start_node_name goal_node_name dep_date dep_time arrival_time_mode : string)
    : option (result Report) :=
  let premier_nodes :=
    get_premiernodes graph 0 start_node_name (Some dep_date) (Some dep_time) in
  match searches fuel (length premier_nodes) graph
          start_node_name goal_node_name premier_nodes with
  | None => None
  | Some (Raise e) => Some (Raise e)
  | Some (Ok paths) => Some (best_fit dep_date arrival_time_mode paths)
  end.

End ArrivalMode.

(** * The rest of the program *)

From Stdlib Require Import Sorted.

(** ** Dates without a time: [strptime(s, '%d/%m/%Y')], one day more, and
    [strftime('%d/%m/%Y')] *)

Module DateText.

(** A calendar date, as [datetime] shows it: year, month, day. *)
Record date : Type := mkDate { year : Z; month : Z; day : Z }.

Definition toordinal (a : date) : Z :=
  Calendar.ymd2ord (year a) (month a) (day a).

(** The text must be a day, a month and a year and nothing more. *)
Definition strptime (s : string) : result date :=
  match Strptime.split_at "/" s with
  | None => Raise ValueError
  | Some (dtok, s1) =>
  match Strptime.parse_day dtok, Strptime.split_at "/" s1 with
  | Some d, Some (mtok, s2) =>
  match Strptime.parse_month mtok, Strptime.parse_year s2 with
  | Some m, Some (y, EmptyString) =>
      if (Calendar.MINYEAR <=? y) && (d <=? Calendar.days_in_month y m)
      then Ok (mkDate y m d)
      else Raise ValueError
  | _, _ => Raise ValueError
  end
  | _, _ => Raise ValueError
  end end.

(** [a + timedelta(days=1)]: the next day of the calendar; there is none
    after the last day of year 9999. *)
Definition tomorrow (a : date) : result date :=
  if day a <? Calendar.days_in_month (year a) (month a)
  then Ok (mkDate (year a) (month a) (day a + 1))
  else if month a <? 12
  then Ok (mkDate (year a) (month a + 1) 1)
  else if year a <? Calendar.MAXYEAR
  then Ok (mkDate (year a + 1) 1 1)
  else Raise OverflowError.

Definition digit_char (n : Z) : ascii := ascii_of_N (Z.to_N (48 + n)).

(** %d and %m: two digits. *)
Definition two_digits (n : Z) : string :=
  String (digit_char (n / 10)) (String (digit_char (n mod 10)) EmptyString).

(** The digits of [n], [fuel] of them at most, before [acc]. *)
Fixpoint digits_before (fuel : nat) (n : Z) (acc : string) : string :=
  match fuel with
  | O => acc
  | S fuel' =>
      let acc' := String (digit_char (n mod 10)) acc in
      if n <? 10 then acc' else digits_before fuel' (n / 10) acc'
  end.

(** %Y: the year in decimal, as the C library prints it (no leading
    zeros). *)
Definition year_digits (y : Z) : string := digits_before 4 y EmptyString.

Definition strftime (a : date) : string :=
  (two_digits (day a) ++ "/" ++ two_digits (month a) ++ "/"
   ++ year_digits (year a))%string.

End DateText.

(** ** InsertRelation.py *)

Module InsertRelation.

(** A row of the table, with the four columns the program reads; the cells
    are texts. *)
Record Row : Type := mkRow {
  origine_iata : string;
  destination_iata : string;
  heure_depart : string;
  heure_arrivee : string
}.

(** A stop of a train: station, time, and 1 when the stop is on the day
    after the date of the train. *)
Definition Stop : Type := (string * string * Z)%type.

(** The tuples handed to the database:
    (iataO, iataD, idtrain, datetrain, datetrain2, depart, arrive). *)
Definition Operation : Type :=
  (string * string * string * string * string * string * string)%type.

(** The order of [sorted(list_com, key=lambda x: (x[2], x[1]))]. *)
Definition stop_le (a b : Stop) : bool :=
  let '(_, ta, ia) := a in
  let '(_, tb, ib) := b in
  if ia <? ib then true
  else if ib <? ia then false
  else String.leb ta tb.

Fixpoint insert_stop (s : Stop) (l : list Stop) : list Stop :=
  match l with
  | [] => [s]
  | x :: rest => if stop_le s x then s :: l else x :: insert_stop s rest
  end.

(** [sorted] keeps stops with equal keys in the order they have. *)
Definition sort_stops (l : list Stop) : list Stop := fold_right insert_stop [] l.

(** The stops of the rows of one group.  [has_columns] says whether the
    table has both time columns. *)
Fixpoint stops_of_rows (has_columns : bool) (rows : list Row) : list Stop :=
  match rows with
  | [] => []
  | row :: rest =>
      if has_columns then
        if String.ltb (heure_arrivee row) (heure_depart row) then
          (origine_iata row, heure_depart row, 0)
          :: (destination_iata row, heure_arrivee row, 1)
          :: stops_of_rows has_columns rest
        else
          (origine_iata row, heure_depart row, 0)
          :: (destination_iata row, heure_arrivee row, 0)
          :: stops_of_rows has_columns rest
      else stops_of_rows has_columns rest
  end.

(** A group of [groupby(['DATE', 'TRAIN_NO'])]: its date, its train and
    its rows. *)
Definition Group : Type := (string * string * list Row)%type.

(** The loop over the groups, and the removal of the trains with no
    stop. *)
Definition trains_of (has_columns : bool) (groups : list Group)
    : list (string * string * list Stop) :=
  List.filter
    (fun o => match o with (_, _, []) => false | _ => true end)
    (map (fun g => let '(date, train, rows) := g in
                   (train, date, sort_stops (stops_of_rows has_columns rows)))
         groups).

(** The inner loop of [flatten_operations], over the stops of one train. *)
Fixpoint flatten_stops (train date : string) (sublist : list Stop)
    : result (list Operation) :=
  match sublist with
  | (iataO, depart, i0) :: ((iataD, arrive, i1) :: _) as rest =>
      date_initiale <- DateText.strptime date ;;
      date_suivante <- DateText.tomorrow date_initiale ;;
      let nouvelle_date_str := DateText.strftime date_suivante in
      let op : Operation :=
        if (i0 =? 1) && (i1 =? 1)
        then (iataO, iataD, train, nouvelle_date_str, nouvelle_date_str,
              depart, arrive)
        else if (i0 =? 1) && (i1 =? 0)
        then (iataO, iataD, train, nouvelle_date_str, date, depart, arrive)
        else if (i0 =? 0) && (i1 =? 1)
        then (iataO, iataD, train, date, nouvelle_date_str, depart, arrive)
        else (iataO, iataD, train, date, date, depart, arrive) in
      others <- flatten_stops train date rest ;;
      Ok (op :: others)
  | _ => Ok []
  end.

Fixpoint flatten_operations (operations : list (string * string * list Stop))
    : result (list Operation) :=
  match operations with
  | [] => Ok []
  | (train, date, sublist) :: rest =>
      ops <- flatten_stops train date sublist ;;
      others <- flatten_operations rest ;;
      Ok (ops ++ others)%list
  end.

Definition prepare_operations (has_columns : bool) (groups : list Group)
    : result (list Operation) :=
  flatten_operations (trains_of has_columns groups).

(** [range(start, stop, step)] for a positive step, in at most [fuel]
    values. *)
Fixpoint range_from (fuel start stop step : nat) : list nat :=
  match fuel with
  | O => []
  | S fuel' =>
      if (start <? stop)%nat
      then start :: range_from fuel' (start + step) stop step
      else []
  end.

Definition batch_size : nat := 1000.

(** The slices [operations[i:i + batch_size]] that [insert_data] hands to
    [create_relations], one transaction each, in order. *)
Definition insert_data {A : Type} (operations : list A) : list (list A) :=
  map (fun i => firstn batch_size (skipn i operations))
      (range_from (length operations) 0 (length operations) batch_size).

End InsertRelation.

(** ** The graph database, as the two insertion programs write it

    [Gare] nodes with a [nom] and an [iata], and [MOOVE] relationships
    between two of them.  A node is known by its position in [gares]. *)

Module Database.

Record Gare : Type := mkGare { nom : string; iata : string }.

Record Relation : Type := mkRelation {
  source : nat;
  target : nat;
  r_numtrain : option string;
  r_datedepart : option string;
  r_datearrive : option string;
  r_hdepart : option string;
  r_harrive : option string
}.

Record Db : Type := mkDb { gares : list Gare; relations : list Relation }.

Definition empty : Db := mkDb [] [].

Definition same_gare (name IATA : string) (g : Gare) : bool :=
  String.eqb (nom g) name && String.eqb (iata g) IATA.

(** InsertNode.create_station:
    MERGE (:Gare {nom: $name, iata: $IATA}) *)
Definition create_station (db : Db) (name IATA : string) : Db :=
  if existsb (same_gare name IATA) (gares db) then db
  else mkDb (gares db ++ [mkGare name IATA])%list (relations db).

(** The loop of InsertNode.main over [station_dict.items()], whose keys are
    the IATA codes. *)
Definition create_stations (db : Db) (station_dict : list (string * string))
    : Db :=
  fold_left (fun db item => create_station db (snd item) (fst item))
            station_dict db.

(** The positions of the nodes matched by (g:Gare {iata: $x}). *)
Fixpoint positions_from (i : nat) (x : string) (l : list Gare) : list nat :=
  match l with
  | [] => []
  | g :: rest =>
      if String.eqb (iata g) x then i :: positions_from (S i) x rest
      else positions_from (S i) x rest
  end.

Definition with_iata (db : Db) (x : string) : list nat :=
  positions_from 0 x (gares db).

Definition option_eqb (a b : option string) : bool :=
  match a, b with
  | Some x, Some y => String.eqb x y
  | None, None => true
  | _, _ => false
  end.

Definition same_relation (a b : Relation) : bool :=
  Nat.eqb (source a) (source b) && Nat.eqb (target a) (target b)
  && option_eqb (r_numtrain a) (r_numtrain b)
  && option_eqb (r_datedepart a) (r_datedepart b)
  && option_eqb (r_datearrive a) (r_datearrive b)
  && option_eqb (r_hdepart a) (r_hdepart b)
  && option_eqb (r_harrive a) (r_harrive b).

(** MERGE (g1)-[:MOOVE {...}]->(g2) for one pair of matched nodes: the
    relationship is created unless one with these properties is there. *)
Definition merge_relation (db : Db) (r : Relation) : Db :=
  if existsb (same_relation r) (relations db) then db
  else mkDb (gares db) (relations db ++ [r])%list.

(** One [tx.run] of InsertRelation.create_relations:
    MATCH (g1:Gare {iata: $iataO}), (g2:Gare {iata: $iataD})
    MERGE (g1)-[:MOOVE {numtrain: $idtrain, datedepart: $datetrain,
                        datearrive: $datetrain2, hdepart: $depart,
                        harrive: $arrive}]->(g2) *)
Definition run_merge (db : Db) (op : InsertRelation.Operation) : Db :=
  let '(iataO, iataD, idtrain, datetrain, datetrain2, depart, arrive) := op in
  fold_left merge_relation
    (map (fun p => mkRelation (fst p) (snd p) (Some idtrain) (Some datetrain)
                              (Some datetrain2) (Some depart) (Some arrive))
         (list_prod (with_iata db iataO) (with_iata db iataD)))
    db.

Definition create_relations (db : Db) (data : list InsertRelation.Operation)
    : Db :=
  fold_left run_merge data db.

(** InsertRelation.insert_data: one transaction for each batch. *)
Definition insert_data (db : Db) (operations : list InsertRelation.Operation)
    : Db :=
  fold_left create_relations (InsertRelation.insert_data operations) db.

(** The relationships as the queries of the search see them:
    (n:Gare)-[r:MOOVE]->(neighbor:Gare), with [n.nom] and [neighbor.nom]. *)
Definition graph_of (db : Db) : Graph :=
  flat_map
    (fun r =>
       match nth_error (gares db) (source r), nth_error (gares db) (target r) with
       | Some n, Some neighbor =>
           [mkMoove (nom n) (nom neighbor) (r_numtrain r) (r_datedepart r)
                    (r_datearrive r) (r_hdepart r) (r_harrive r)]
       | _, _ => []
       end)
    (relations db).

End Database.

(** * Vocabulary of the statements *)

(** What [strptime] returns is a date of the calendar and a time of day. *)
Definition valid_datetime (a : datetime) : Prop :=
  1 <= dt_ordinal a <= Calendar.MAXORDINAL
  /\ 0 <= dt_hour a <= 23 /\ 0 <= dt_minute a <= 59.

(** The instant as a count of minutes. *)
Definition instant_minutes (a : datetime) : Z :=
  dt_ordinal a * 1440 + dt_hour a * 60 + dt_minute a.

(** The correction of the arrival instant as the specification words it, over
    instants counted in minutes: a shift when the arrival date is the
    earlier one, then a cap at the departure instant moved by the
    difference of the dates. *)
Module DurationSpec.

Definition shifted (arrival day_difference : Z) : Z :=
  if day_difference <? 0 then arrival + (- day_difference) * 1440
  else arrival.

Definition clamped (departure day_difference arrival : Z) : Z :=
  let limit := departure + day_difference * 1440 in
  if limit <? arrival then limit else arrival.

Definition duration (departure arrival day_difference : Z) : Z :=
  clamped departure day_difference (shifted arrival day_difference)
  - departure.

End DurationSpec.

(** Minutes since midnight. *)
Definition time_of_day (a : datetime) : Z := dt_hour a * 60 + dt_minute a.

(** An entry of [Liste] next to its score in [L]: the nodes of a path
    followed by that score. *)
Definition scored_path (sous_liste : list ArrivalMode.PyValue) (score : Z) : Prop :=
  exists path : list Node,
    sous_liste
    = (map ArrivalMode.PyNode path ++ [ArrivalMode.PyInt score])%list.

(** One turn of the loop over [L]. *)
Definition pick (smallest_positive : option Z) (number : Z) : option Z :=
  if 0 <? number then
    match smallest_positive with
    | None => Some number
    | Some s => if number <? s then Some number else smallest_positive
    end
  else smallest_positive.

(** The stops of a returned path: station, train and arrival time of each
    node. *)
Definition stops (path : list Node)
    : list (string * option string * option string) :=
  map (fun n => (name n, train_number n, arrival_time n)) path.

(** Minutes from the arrival of the journey, the instant the last node of the
    path carries, to the wished instant. *)
Definition journey_score (path : list Node)
    (wished_date wished_time : string) : result Z :=
  match path with
  | [] => Raise IndexError
  | n :: rest =>
      let arrival_node := List.last rest n in
      calculate_total_time (arrival_date arrival_node) (arrival_time arrival_node)
                           (Some wished_date) (Some wished_time)
  end.

(** Inputs of the worked cases. *)
Module Examples.

Definition day1 : option string := Some "01/06/2024".
Definition day2 : option string := Some "02/06/2024".

(** A path of two nodes as [dijkstra] returns it for a first train that
    reaches its stop at [arr] on 01/06/2024. *)
Definition journey_nodes (arr : string) : list Node :=
  let first :=
    mkNode 0 "PARIS MONTPARNASSE" None (Finite 0)
           day1 (Some "06:00") day1 (Some arr) (Some "") in
  [ first;
    mkNode 1 "RENNES" (Some first) (Finite 0)
           day1 (Some "06:30") day1 (Some "23:00") (Some "8001") ].

Definition journey (arr : string) : option (list Node) :=
  Some (journey_nodes arr).

(** The entry of [Liste] for that path and the score [t]. *)
Definition scored (arr : string) (t : Z) : list ArrivalMode.PyValue :=
  (map ArrivalMode.PyNode (journey_nodes arr) ++ [ArrivalMode.PyInt t])%list.

(** Four candidates whose scores against a wished arrival at 12:00 are
    45, -10, 12 and 90 minutes. *)
Definition four_journeys : list (option (list Node)) :=
  [journey "11:15"; journey "12:10"; journey "11:48"; journey "10:30"].

(** One candidate, ten minutes after the wished arrival. *)
Definition late_journey : list (option (list Node)) := [journey "12:10"].

(** One train from A to B, on 02/06/2024 at 07:00. *)
Definition next_morning_train : Moove :=
  mkMoove "A" "B" (Some "8002") day2 day2 (Some "07:00") (Some "09:00").

(** One train from A to B, on 01/07/2024 at 09:00. *)
Definition next_month_train : Moove :=
  mkMoove "A" "B" (Some "8003")
          (Some "01/07/2024") (Some "01/07/2024") (Some "09:00") (Some "11:00").

(** A train from A that reaches B at 10:00, and a train that leaves B for C
    at 09:00, one hour before. *)
Definition missed_connection : Graph :=
  [ mkMoove "A" "B" (Some "8004") day1 day1 (Some "08:00") (Some "10:00");
    mkMoove "B" "C" (Some "8005") day1 day1 (Some "09:00") (Some "09:30") ].

(** Two morning trains from A to B. *)
Definition morning_trains : Graph :=
  [ mkMoove "A" "B" (Some "8008") day1 day1 (Some "08:00") (Some "09:00");
    mkMoove "A" "B" (Some "8009") day1 day1 (Some "08:30") (Some "09:30") ].

(** Two night trains from A to B: the later one arrives earlier. *)
Definition two_trains : Graph :=
  [ mkMoove "A" "B" (Some "8006") day1 day2 (Some "23:00") (Some "06:00");
    mkMoove "A" "B" (Some "8007") day1 day2 (Some "23:30") (Some "05:00") ].

(** Three trains from A to B and two from B to C on 01/06/2024: the train
    that leaves B at 08:05 reaches C at 11:50, the one that leaves B at 09:00
    reaches C at 11:00. *)
Definition slow_then_fast : Graph :=
  [ mkMoove "A" "B" (Some "8010") day1 day1 (Some "07:00") (Some "07:30");
    mkMoove "A" "B" (Some "8011") day1 day1 (Some "08:00") (Some "08:40");
    mkMoove "A" "B" (Some "8012") day1 day1 (Some "08:10") (Some "08:50");
    mkMoove "B" "C" (Some "8013") day1 day1 (Some "08:05") (Some "11:50");
    mkMoove "B" "C" (Some "8014") day1 day1 (Some "09:00") (Some "11:00") ].

End Examples.

(** ** The measure of the search loop *)

(** The train leaves after the instant [t0]. *)
Definition departs_after (t0 : datetime) (r : Moove) : bool :=
  match parse_instant (datedepart r) (hdepart r) with
  | Ok t => datetime_gt t t0
  | Raise _ => false
  end.

(** How many trains of the store leave after the departure instant a node
    carries. *)
Definition rank (graph : Graph) (n : Node) : nat :=
  match parse_instant (departure_date n) (departure_time n) with
  | Ok t0 => length (List.filter (departs_after t0) graph)
  | Raise _ => 0
  end.

(** A node weighs more than all the nodes one query can yield for it. *)
Definition weight (graph : Graph) (n : Node) : nat :=
  (S (length graph) ^ rank graph n)%nat.

Definition potential (graph : Graph) (open : list Node) : nat :=
  list_sum (map (weight graph) open).

(** The objects of the frontier are distinct and older than the next one
    to be created. *)
Definition distinct_objects (st : SearchState) : Prop :=
  List.NoDup (map oid (open_set st))
  /\ forall n, In n (open_set st) -> (oid n < next_oid st)%nat.

(** The instant [date time] is later than the departure instant the node
    [q] carries. *)
Definition leaves_after (date time : option string) (q : Node) : Prop :=
  exists t tq,
    parse_instant date time = Ok t
    /\ parse_instant (departure_date q) (departure_time q) = Ok tq
    /\ datetime_gt t tq = true.

(** Along the parent links, every node carries a later departure instant
    than its parent. *)
Fixpoint chain_increasing (n : Node) : Prop :=
  match n with
  | mkNode _ _ p _ dd dt _ _ _ =>
      match p with
      | None => True
      | Some q => leaves_after dd dt q /\ chain_increasing q
      end
  end.

(** Dates and times of the store are texts of instants. *)
Definition parses (date time : option string) : bool :=
  match parse_instant date time with
  | Ok _ => true
  | Raise _ => false
  end.

Definition well_formed_row (r : Moove) : bool :=
  incomplete r
  || (parses (datedepart r) (hdepart r) && parses (datearrive r) (harrive r)).

Definition well_formed (graph : Graph) : bool := forallb well_formed_row graph.

(** The nodes of the frontier carry a departure instant that parses, later
    than their parent's. *)
Definition sound_frontier (st : SearchState) : Prop :=
  forall n, In n (open_set st) ->
    parses (departure_date n) (departure_time n) = true
    /\ chain_increasing n.

(** What a returned path is: the parent links of a node of the goal
    station, origin first, with departure instants that increase. *)
Definition path_to (goal : string) (path : option (list Node)) : Prop :=
  forall p, path = Some p ->
    exists g, p = rev (parents_of g) /\ name g = goal /\ chain_increasing g.

(** What the generator yields: for each node, the record it was made from,
    which leaves after the instant of the call; the objects are new ones,
    each created after those before it. *)
Definition yielded_from (records : list Moove) (dd dt : option string)
    (lo hi : nat) (y : Node * Z) : Prop :=
  (lo <= oid (fst y) < hi)%nat
  /\ distance (fst y) = Infinity
  /\ exists r t t0,
       In r records
       /\ departure_date (fst y) = datedepart r
       /\ departure_time (fst y) = hdepart r
       /\ parse_instant (datedepart r) (hdepart r) = Ok t
       /\ parse_instant dd dt = Ok t0
       /\ datetime_gt t t0 = true.

(** A node the loop over the neighbors added: it is one of the yielded
    objects, with the expanded node as its parent. *)
Definition added_from (current_node : Node) (ys : list (Node * Z)) (n : Node)
    : Prop :=
  exists y dist',
    In y ys /\ n = set_parent_distance (fst y) current_node dist'.

(** * Vocabulary of the further statements *)

(** Ascending order of one sort key, absent values last. *)
Definition key_le (a b : option string) : Prop :=
  Cypher.key_compare a b <> Gt.

(** The order of [ORDER BY r.datedepart, r.hdepart]. *)
Definition row_order (a b : Moove) : Prop := Cypher.row_le a b = true.

(** What a node was created from. *)
Definition node_fields (n : Node)
    : string * option string * option string * option string
      * option string * option string :=
  (name n, departure_date n, departure_time n,
   arrival_date n, arrival_time n, train_number n).

(** What a record gives to the node of the station it leads to. *)
Definition row_fields (r : Moove)
    : string * option string * option string * option string
      * option string * option string :=
  (neighbor_nom r, datedepart r, hdepart r, datearrive r, harrive r,
   numtrain r).

(** The node [get_premiernodes] makes of a record: it carries the name of
    the station the train leaves from. *)
Definition premier_node_of (n : Node) (r : Moove) : Prop :=
  n = new_Node (oid n) (origin_nom r) (datedepart r) (hdepart r)
               (datearrive r) (harrive r) (numtrain r).

(** A pair [get_neighbors] yields for a record, called with [dd], [dt]: the
    node carries the name of the station the train leads to, and the
    distance is [calculate_duration] from the instant of the call to the
    arrival of the train. *)
Definition yielded_pair (dd dt : option string) (y : Node * Z) (r : Moove)
    : Prop :=
  fst y = new_Node (oid (fst y)) (neighbor_nom r) (datedepart r) (hdepart r)
                   (datearrive r) (harrive r) (numtrain r)
  /\ calculate_duration dd dt (datearrive r) (harrive r) = Ok (snd y).

(** ** The nodes of a search *)

(** The node a yielded pair becomes when it comes into the frontier while
    [current_node] is expanded. *)
Definition enter (current_node : Node) (y : Node * Z) : Node :=
  set_parent_distance (fst y) current_node
    (dist_add (distance current_node) (Finite (snd y))).

(** The nodes above a node on its parent links. *)
Definition ancestors (n : Node) : list Node :=
  match parent n with
  | Some q => parents_of q
  | None => []
  end.

(** Along the parent links down to [root], the distance of every node is
    its parent's plus [calculate_duration] from the departure instant the
    parent carries to the arrival instant the node carries. *)
Fixpoint cost_chain (root : Node) (n : Node) : Prop :=
  match n with
  | mkNode _ _ p dist _ _ ad at_ _ =>
      match p with
      | None => n = root
      | Some q =>
          (exists d,
             calculate_duration (departure_date q) (departure_time q) ad at_
             = Ok d
             /\ dist = dist_add (distance q) (Finite d))
          /\ cost_chain root q
      end
  end.

(** The sum of [calculate_duration] over the legs of a path: from the
    departure instant of each node to the arrival instant of the next. *)
Fixpoint legs_total (path : list Node) : result Z :=
  match path with
  | a :: (b :: _) as rest =>
      d <- calculate_duration (departure_date a) (departure_time a)
                              (arrival_date b) (arrival_time b) ;;
      total <- legs_total rest ;;
      Ok (d + total)
  | _ => Ok 0
  end.

(** Induction along the parent links of a node. *)
Fixpoint Node_parent_ind (P : Node -> Prop)
    (Hroot : forall n, parent n = None -> P n)
    (Hstep : forall n q, parent n = Some q -> P q -> P n)
    (n : Node) : P n :=
  match n as n0 return P n0 with
  | mkNode i nm p dist dd dt ad at_ tn =>
      match p as p0 return P (mkNode i nm p0 dist dd dt ad at_ tn) with
      | None => Hroot (mkNode i nm None dist dd dt ad at_ tn) eq_refl
      | Some q =>
          Hstep (mkNode i nm (Some q) dist dd dt ad at_ tn) q eq_refl
                (Node_parent_ind P Hroot Hstep q)
      end
  end.

(** What holds of the frontier all along a search from [root]. *)
Definition search_invariant (root : Node) (st : SearchState) : Prop :=
  distinct_objects st
  /\ forall n, In n (open_set st) ->
       (exists z, distance n = Finite z)
       /\ cost_chain root n
       /\ List.NoDup (map name (parents_of n))
       /\ forall a, In a (ancestors n) -> name a ∈ closed_set st.

(** ** Dates as texts *)

(** A date of the calendar. *)
Definition valid_date (a : DateText.date) : Prop :=
  1 <= DateText.year a <= 9999 /\ 1 <= DateText.month a <= 12
  /\ 1 <= DateText.day a
     <= Calendar.days_in_month (DateText.year a) (DateText.month a).

(** The hour and minute in the text that follows the date and the white
    space. *)
Definition time_fields (s : string) : option (Z * Z) :=
  match Strptime.split_at ":" s with
  | None => None
  | Some (htok, s5) =>
      match Strptime.parse_hour htok, Strptime.parse_minute s5 with
      | Some h, Some mi => Some (h, mi)
      | _, _ => None
      end
  end.

(** ** The operations of InsertRelation *)

Definition stop_order (a b : InsertRelation.Stop) : Prop :=
  InsertRelation.stop_le a b = true.

(** The stop is on the day of the train (0) or the day after (1). *)
Definition day_flag (s : InsertRelation.Stop) : Prop :=
  snd s = 0 \/ snd s = 1.

(** The operation does not arrive before it leaves: either both dates are
    the same text and the departure time is not above the arrival time as
    texts, or the arrival date is the text of the day after the departure
    date. *)
Definition forward (op : InsertRelation.Operation) : Prop :=
  let '(_, _, _, datetrain, datetrain2, depart, arrive) := op in
  (datetrain = datetrain2 /\ String.leb depart arrive = true)
  \/ exists a b,
       DateText.strptime datetrain = Ok a
       /\ DateText.tomorrow a = Ok b
       /\ datetrain2 = DateText.strftime b.

(** ** The database *)

(** The relationships one operation asks for: one for each pair of nodes
    with the two IATA codes. *)
Definition wanted (db : Database.Db) (op : InsertRelation.Operation)
    : list Database.Relation :=
  let '(iataO, iataD, idtrain, datetrain, datetrain2, depart, arrive) := op in
  map (fun p => Database.mkRelation (fst p) (snd p) (Some idtrain)
                  (Some datetrain) (Some datetrain2) (Some depart)
                  (Some arrive))
      (list_prod (Database.with_iata db iataO) (Database.with_iata db iataD)).

(** * Properties *)

(** ** Ranges of parsed instants *)

Ltac to_prop :=
  repeat match goal with
  | H : _ && _ = true |- _ => apply andb_true_iff in H; destruct H
  | H : _ || _ = true |- _ => apply orb_true_iff in H
  | H : (_ <=? _) = true |- _ => apply Z.leb_le in H
  | H : (_ <? _) = true |- _ => apply Z.ltb_lt in H
  | H : (_ =? _) = true |- _ => apply Z.eqb_eq in H
  | H : (_ <=? _) = false |- _ => apply Z.leb_gt in H
  | H : (_ <? _) = false |- _ => apply Z.ltb_ge in H
  | H : (_ =? _) = false |- _ => apply Z.eqb_neq in H
  end.

Lemma digit_range c x : Strptime.digit c = Some x -> 0 <= x <= 9.
Proof.
  unfold Strptime.digit.
  destruct (_ && _) eqn:E; [|discriminate].
  intros [= <-]. to_prop. lia.
Qed.

Ltac digits :=
  repeat match goal with
  | H : Strptime.digit _ = Some _ |- _ => apply digit_range in H
  end.

Ltac token_cases tok :=
  destruct tok as [|? [|? [|? ?]]]; try discriminate;
  repeat match goal with
  | |- context [Strptime.digit ?c] =>
      let E := fresh "E" in destruct (Strptime.digit c) eqn:E; try discriminate
  end;
  repeat match goal with
  | |- context [if ?b then _ else _] =>
      let E := fresh "E" in destruct b eqn:E; try discriminate
  end;
  intros [= <-]; digits; to_prop;
  repeat (match goal with H : _ \/ _ |- _ => destruct H end; to_prop);
  lia.

Lemma parse_day_range tok d : Strptime.parse_day tok = Some d -> 1 <= d <= 31.
Proof.
  unfold Strptime.parse_day. token_cases tok.
Qed.

Lemma parse_month_range tok m :
  Strptime.parse_month tok = Some m -> 1 <= m <= 12.
Proof.
  unfold Strptime.parse_month. token_cases tok.
Qed.

Lemma parse_hour_range tok h : Strptime.parse_hour tok = Some h -> 0 <= h <= 23.
Proof.
  unfold Strptime.parse_hour. token_cases tok.
Qed.

Lemma parse_minute_range tok m :
  Strptime.parse_minute tok = Some m -> 0 <= m <= 59.
Proof. unfold Strptime.parse_minute. token_cases tok. Qed.

Lemma parse_year_range s y rest :
  Strptime.parse_year s = Some (y, rest) -> 0 <= y <= 9999.
Proof.
  unfold Strptime.parse_year.
  destruct s as [|a [|b [|c [|d t]]]]; try discriminate.
  destruct (Strptime.digit a) eqn:Ea; try discriminate.
  destruct (Strptime.digit b) eqn:Eb; try discriminate.
  destruct (Strptime.digit c) eqn:Ec; try discriminate.
  destruct (Strptime.digit d) eqn:Ed; try discriminate.
  intros [= <- <-]. digits. lia.
Qed.

Lemma fields_range s d m y h mi :
  Strptime.fields s = Some (d, m, y, h, mi) ->
  1 <= d <= 31 /\ 1 <= m <= 12 /\ 0 <= y <= 9999
  /\ 0 <= h <= 23 /\ 0 <= mi <= 59.
Proof.
  unfold Strptime.fields.
  destruct (Strptime.split_at "/" s) as [[dtok s1]|]; [|discriminate].
  destruct (Strptime.parse_day dtok) as [d'|] eqn:Ed; [|discriminate].
  destruct (Strptime.split_at "/" s1) as [[mtok s2]|]; [|discriminate].
  destruct (Strptime.parse_month mtok) as [m'|] eqn:Em; [|discriminate].
  destruct (Strptime.parse_year s2) as [[y' s3]|] eqn:Ey; [|discriminate].
  destruct (Strptime.skip_spaces s3) as [s4|]; [|discriminate].
  destruct (Strptime.split_at ":" s4) as [[htok s5]|]; [|discriminate].
  destruct (Strptime.parse_hour htok) as [h'|] eqn:Eh; [|discriminate].
  destruct (Strptime.parse_minute s5) as [mi'|] eqn:Emi; [|discriminate].
  intros [= <- <- <- <- <-].
  apply parse_day_range in Ed. apply parse_month_range in Em.
  apply parse_year_range in Ey. apply parse_hour_range in Eh.
  apply parse_minute_range in Emi. lia.
Qed.

Lemma days_before_year_bounds y :
  1 <= y <= 9998 -> 0 <= Calendar.days_before_year y <= 3651329.
Proof.
  intros Hy. unfold Calendar.days_before_year.
  Z.to_euclidean_division_equations. lia.
Qed.

Lemma month_days_bounds y m d :
  1 <= m <= 12 -> 1 <= d <= Calendar.days_in_month y m ->
  1 <= Calendar.days_before_month y m + d
       <= 365 + (if Calendar.is_leap y then 1 else 0).
Proof.
  intros Hm.
  assert (m = 1 \/ m = 2 \/ m = 3 \/ m = 4 \/ m = 5 \/ m = 6 \/ m = 7
          \/ m = 8 \/ m = 9 \/ m = 10 \/ m = 11 \/ m = 12) as Hcases by lia.
  unfold Calendar.days_before_month, Calendar.days_in_month.
  repeat (destruct Hcases as [-> | Hcases]); try subst m; cbn;
    destruct (Calendar.is_leap y); cbn; lia.
Qed.

Lemma ymd2ord_range y m d :
  1 <= y <= 9999 -> 1 <= m <= 12 -> 1 <= d <= Calendar.days_in_month y m ->
  1 <= Calendar.ymd2ord y m d <= Calendar.MAXORDINAL.
Proof.
  intros Hy Hm Hd. pose proof (month_days_bounds y m d Hm Hd) as Hmd.
  unfold Calendar.ymd2ord, Calendar.MAXORDINAL.
  destruct (Z.eq_dec y 9999) as [-> | Hne].
  - change (Calendar.is_leap 9999) with false in Hmd.
    change (Calendar.days_before_year 9999) with 3651694. lia.
  - pose proof (days_before_year_bounds y ltac:(lia)).
    destruct (Calendar.is_leap y); lia.
Qed.

Lemma strptime_valid s a : Strptime.strptime s = Ok a -> valid_datetime a.
Proof.
  unfold Strptime.strptime.
  destruct (Strptime.fields s) as [[[[[d m] y] h] mi]|] eqn:Ef; [|discriminate].
  destruct (_ && _) eqn:E; [|discriminate].
  intros [= <-]. apply fields_range in Ef. unfold Calendar.MINYEAR in E.
  to_prop. unfold valid_datetime; cbn.
  split; [apply ymd2ord_range; lia | lia].
Qed.

Lemma parse_instant_valid date time a :
  parse_instant date time = Ok a -> valid_datetime a.
Proof.
  unfold parse_instant, date_time_text.
  destruct date, time; cbn; try discriminate. apply strptime_valid.
Qed.

Lemma parse_instant_some date time a :
  parse_instant date time = Ok a -> is_Some date /\ is_Some time.
Proof.
  unfold parse_instant, date_time_text.
  destruct date, time; cbn; try discriminate. eauto.
Qed.

Lemma datetime_gt_minutes a b :
  valid_datetime a -> valid_datetime b ->
  datetime_gt a b = (instant_minutes b <? instant_minutes a).
Proof.
  intros (Ha1 & Ha2 & Ha3) (Hb1 & Hb2 & Hb3).
  unfold datetime_gt, instant_minutes.
  repeat match goal with
  | |- context [?x <? ?y] => destruct (Z.ltb_spec x y)
  end; try reflexivity; lia.
Qed.

Lemma minutes_between_minutes a b :
  minutes_between a b = instant_minutes a - instant_minutes b.
Proof. unfold minutes_between, instant_minutes. lia. Qed.

Lemma add_days_ok a k :
  1 <= dt_ordinal a + k <= Calendar.MAXORDINAL ->
  add_days a k = Ok (mkDatetime (dt_ordinal a + k) (dt_hour a) (dt_minute a)).
Proof.
  intros H. unfold add_days.
  destruct (_ && _) eqn:E; [reflexivity|].
  apply andb_false_iff in E. destruct E; to_prop; lia.
Qed.

(** ** calculate_duration *)

Lemma valid_shift a k :
  valid_datetime a -> 1 <= dt_ordinal a + k <= Calendar.MAXORDINAL ->
  valid_datetime (mkDatetime (dt_ordinal a + k) (dt_hour a) (dt_minute a)).
Proof. intros (? & ? & ?) ?. unfold valid_datetime; cbn. lia. Qed.

(** On instants that parse, the function returns, and its value is the
    shifted and capped difference. *)
Lemma calculate_duration_parsed dd dt ad at_ D A :
  parse_instant dd dt = Ok D -> parse_instant ad at_ = Ok A ->
  calculate_duration dd dt ad at_
  = Ok (DurationSpec.duration (instant_minutes D) (instant_minutes A)
          (dt_ordinal A - dt_ordinal D)).
Proof.
  intros HD HA.
  pose proof (parse_instant_valid _ _ _ HD) as VD.
  pose proof (parse_instant_valid _ _ _ HA) as VA.
  destruct (parse_instant_some _ _ _ HD) as [_ [t1 ->]].
  destruct (parse_instant_some _ _ _ HA) as [_ [t2 ->]].
  unfold calculate_duration. rewrite HD, HA. cbn [bind].
  unfold date_diff_days.
  set (d := dt_ordinal A - dt_ordinal D).
  assert (Hlimit : 1 <= dt_ordinal D + d <= Calendar.MAXORDINAL)
    by (destruct VA as (? & _); lia).
  assert (Hback : 1 <= dt_ordinal A + - d <= Calendar.MAXORDINAL)
    by (destruct VD as (? & _); lia).
  unfold DurationSpec.duration, DurationSpec.shifted, DurationSpec.clamped.
  destruct (Z.ltb_spec d 0) as [Hneg | Hpos].
  - rewrite (add_days_ok A (- d) Hback). cbn [bind].
    rewrite (add_days_ok D d Hlimit). cbn [bind].
    rewrite datetime_gt_minutes by (apply valid_shift; assumption).
    rewrite !minutes_between_minutes. unfold instant_minutes; cbn.
    f_equal.
    repeat match goal with
    | |- context [?x <? ?y] => destruct (Z.ltb_spec x y)
    end; cbn; lia.
  - cbn [bind]. rewrite (add_days_ok D d Hlimit). cbn [bind].
    rewrite datetime_gt_minutes by (try apply valid_shift; assumption).
    rewrite !minutes_between_minutes. unfold instant_minutes; cbn.
    f_equal.
    repeat match goal with
    | |- context [?x <? ?y] => destruct (Z.ltb_spec x y)
    end; cbn; lia.
Qed.

(** The same value in closed form: whole days, less the minutes by which
    the arrival clock time falls short of the departure clock time; an
    arrival date before the departure date gives whole days only. *)
Lemma duration_closed_form D A :
  valid_datetime D -> valid_datetime A ->
  let d := dt_ordinal A - dt_ordinal D in
  DurationSpec.duration (instant_minutes D) (instant_minutes A) d
  = if d <? 0 then d * 1440
    else d * 1440 + Z.min 0 (time_of_day A - time_of_day D).
Proof.
  intros (_ & ? & ?) (_ & ? & ?) d. subst d.
  unfold DurationSpec.duration, DurationSpec.shifted, DurationSpec.clamped,
    instant_minutes, time_of_day.
  repeat match goal with
  | |- context [?x <? ?y] => destruct (Z.ltb_spec x y)
  end; lia.
Qed.

(** C9: when the arrival date is before the departure date, the arrival
    instant moves forward by [- day_difference] days; an arrival instant
    beyond the departure instant plus [day_difference] days is brought down
    to exactly that instant; the value returned is the minutes from the
    departure to this arrival. *)
Theorem calculate_duration_shift_then_clamp dd dt ad at_ D A :
  parse_instant dd dt = Ok D -> parse_instant ad at_ = Ok A ->
  let day_difference := dt_ordinal A - dt_ordinal D in
  let shifted :=
    if day_difference <? 0
    then instant_minutes A + (- day_difference) * 1440
    else instant_minutes A in
  let limit := instant_minutes D + day_difference * 1440 in
  let corrected := if limit <? shifted then limit else shifted in
  calculate_duration dd dt ad at_ = Ok (corrected - instant_minutes D).
Proof.
  intros HD HA. cbv zeta.
  rewrite (calculate_duration_parsed _ _ _ _ _ _ HD HA). reflexivity.
Qed.

Lemma calculate_duration_shift_then_clamp_witness :
  calculate_duration (Some "02/06/2024") (Some "08:00")
                     (Some "01/06/2024") (Some "09:00") = Ok (-1440).
Proof.
  exact (calculate_duration_shift_then_clamp
           (Some "02/06/2024") (Some "08:00")
           (Some "01/06/2024") (Some "09:00")
           (mkDatetime 739039 8 0) (mkDatetime 739038 9 0)
           eq_refl eq_refl).
Defined.

(** C6: a departure time or an arrival time that is [None] gives zero,
    whatever the other arguments. *)
Theorem calculate_duration_missing_time dd dt ad at_ :
  dt = None \/ at_ = None -> calculate_duration dd dt ad at_ = Ok 0.
Proof.
  intros [-> | ->]; unfold calculate_duration; [reflexivity|].
  destruct dt; reflexivity.
Qed.

Lemma calculate_duration_missing_time_witness :
  calculate_duration (Some "not a date") None None (Some "10:15") = Ok 0.
Proof.
  apply (calculate_duration_missing_time
           (Some "not a date") None None (Some "10:15")).
  left. reflexivity.
Defined.

(** C1: a departure at 23:50 on 01/06/2024 with the arrival stored as 00:20
    on the same date: the arrival date is not moved to the next day, and the
    value returned is a negative one, 1410 minutes below zero, where the
    specification has 30 minutes. *)
Theorem calculate_duration_overnight_same_date :
  calculate_duration (Some "01/06/2024") (Some "23:50")
                     (Some "01/06/2024") (Some "00:20") = Ok (-1410)
  /\ ~ (forall dd dt ad at_ v,
          calculate_duration dd dt ad at_ = Ok v -> 0 <= v).
Proof.
  assert (E : calculate_duration (Some "01/06/2024") (Some "23:50")
                (Some "01/06/2024") (Some "00:20") = Ok (-1410))
    by (vm_compute; reflexivity).
  split; [exact E|].
  intros H. specialize (H _ _ _ _ _ E). lia.
Qed.

(** ** The journey for a wished arrival time *)

Lemma Forall2_nth_error {A B : Type} (R : A -> B -> Prop) l1 l2 :
  Forall2 R l1 l2 ->
  forall i a b, nth_error l1 i = Some a -> nth_error l2 i = Some b -> R a b.
Proof.
  induction 1 as [|x y l1 l2 Hxy _ IH]; intros [|i] a b Ha Hb;
    cbn in Ha, Hb; try discriminate.
  - injection Ha as <-. injection Hb as <-. assumption.
  - eapply IH; eassumption.
Qed.

Section ArrivalModeFacts.

Import ArrivalMode.

Lemma smallest_positive_fold (L : list Z) : forall acc : option Z,
  match acc with Some a => 0 < a | None => True end ->
  match fold_left pick L acc with
  | None => acc = None /\ forall t, In t L -> t <= 0
  | Some m =>
      0 < m /\ (acc = Some m \/ In m L)
      /\ (forall a, acc = Some a -> m <= a)
      /\ forall t, In t L -> 0 < t -> m <= t
  end.
Proof.
  induction L as [|x L IH]; intros acc Hacc; cbn [fold_left].
  - destruct acc as [a|]; cbn.
    + repeat split; auto. * intros ? [= ->]. lia. * intros ? [].
    + split; [reflexivity | intros ? []].
  - assert (Hpick : match pick acc x with Some a => 0 < a | None => True end).
    { unfold pick. destruct (Z.ltb_spec 0 x); [|assumption].
      destruct acc as [a|]; [|assumption].
      destruct (Z.ltb_spec x a); assumption. }
    specialize (IH (pick acc x) Hpick).
    destruct (fold_left pick L (pick acc x)) as [m|].
    + destruct IH as (Hm & Hsrc & Hle & Hmin). split; [assumption|].
      unfold pick in Hsrc, Hle.
      destruct (Z.ltb_spec 0 x) as [Hx | Hx].
      * destruct acc as [a|].
        -- destruct (Z.ltb_spec x a) as [Hxa | Hxa].
           ++ specialize (Hle x eq_refl). repeat split.
              ** destruct Hsrc as [[= <-] | Hin]; cbn; auto.
              ** intros ? [= <-]. lia.
              ** intros t [<- | Hin] Ht; [lia | auto].
           ++ specialize (Hle a eq_refl). repeat split.
              ** destruct Hsrc as [Heq | Hin]; cbn; auto.
              ** intros ? [= <-]. lia.
              ** intros t [<- | Hin] Ht; [lia | auto].
        -- specialize (Hle x eq_refl). repeat split.
           ++ destruct Hsrc as [[= <-] | Hin]; cbn; auto.
           ++ intros ? [=].
           ++ intros t [<- | Hin] Ht; [lia | auto].
      * repeat split.
        -- destruct Hsrc as [Heq | Hin]; cbn; auto.
        -- assumption.
        -- intros t [<- | Hin] Ht; [lia | auto].
    + destruct IH as (Hnone & Hall).
      unfold pick in Hnone.
      destruct (Z.ltb_spec 0 x) as [Hx | Hx].
      * destruct acc as [a|]; [|discriminate].
        destruct (Z.ltb_spec x a); discriminate.
      * split; [assumption|]. intros t [<- | Hin]; [lia | auto].
Qed.

Lemma smallest_positive_of_some (L : list Z) :
  (exists t, In t L /\ 0 < t) ->
  exists m, smallest_positive_of L = Some m /\ In m L /\ 0 < m
            /\ forall t, In t L -> 0 < t -> m <= t.
Proof.
  intros (t & Hin & Ht).
  pose proof (smallest_positive_fold L None I) as H.
  change (fold_left pick L None) with (smallest_positive_of L) in H.
  destruct (smallest_positive_of L) as [m|].
  - destruct H as (Hm & [Heq | Hsrc] & _ & Hmin); [discriminate|].
    exists m. auto.
  - destruct H as (_ & Hall). specialize (Hall t Hin). lia.
Qed.

Lemma smallest_positive_of_none (L : list Z) :
  (forall t, In t L -> t <= 0) -> smallest_positive_of L = None.
Proof.
  intros Hall.
  pose proof (smallest_positive_fold L None I) as H.
  change (fold_left pick L None) with (smallest_positive_of L) in H.
  destruct (smallest_positive_of L) as [m|]; [|reflexivity].
  destruct H as (Hm & [Heq | Hsrc] & _); [discriminate|].
  specialize (Hall m Hsrc). lia.
Qed.

(** A number is found in an entry of [Liste] exactly when it is the score
    at its end: no node equals a number. *)
Lemma holds_score sp sous_liste score :
  scored_path sous_liste score ->
  existsb (equals sp) sous_liste
  = match sp with Some m => m =? score | None => false end.
Proof.
  intros [path ->]. rewrite existsb_app. cbn.
  assert (Hnodes : existsb (equals sp) (map PyNode path) = false).
  { induction path as [|n path IH]; [reflexivity|].
    cbn. rewrite IH. destruct sp; reflexivity. }
  rewrite Hnodes. destruct sp; cbn; [apply orb_false_r | reflexivity].
Qed.

Lemma index_of_none Liste L : forall k,
  Forall2 scored_path Liste L -> index_of None k Liste = None.
Proof.
  intros k H. revert k.
  induction H as [|sl t Liste L Hs _ IH]; intros k; [reflexivity|].
  cbn. rewrite (holds_score None sl t Hs). apply IH.
Qed.

Lemma index_of_first m Liste L :
  Forall2 scored_path Liste L -> In m L ->
  forall k, exists i min_path,
    index_of (Some m) k Liste = Some (k + i)%nat
    /\ nth_error L i = Some m
    /\ nth_error Liste i = Some min_path
    /\ forall j, (j < i)%nat -> nth_error L j <> Some m.
Proof.
  intros H. induction H as [|sl t Liste L Hs _ IH]; intros Hin k; [destruct Hin|].
  cbn [index_of]. rewrite (holds_score (Some m) sl t Hs).
  destruct (Z.eqb_spec m t) as [-> | Hne].
  - exists O, sl. rewrite Nat.add_0_r. repeat split; intros; lia.
  - destruct Hin as [-> | Hin]; [congruence|].
    destruct (IH Hin (S k)) as (i & mp & Hidx & HL & HLi & Hfirst).
    exists (S i), mp. rewrite Nat.add_succ_r. repeat split; try assumption.
    intros [|j] Hj; cbn; [congruence | apply Hfirst; lia].
Qed.

Lemma collect_scored d a paths : forall Liste L Liste' L',
  collect d a paths Liste L = Ok (Liste', L') ->
  Forall2 scored_path Liste L -> Forall2 scored_path Liste' L'.
Proof.
  induction paths as [|p paths IH]; intros Liste L Liste' L' Hc Hinv.
  - cbn in Hc. injection Hc as <- <-. assumption.
  - cbn [collect] in Hc. destruct p as [[|n path]|]; try (eapply IH; eassumption).
    destruct (penultimate (n :: path)) as [arrival_node|]; [|discriminate].
    cbn [bind] in Hc.
    destruct (calculate_total_time _ _ _ _) as [temps|]; [|discriminate].
    cbn [bind] in Hc. eapply IH; [eassumption|].
    apply Forall2_app; [assumption|]. constructor; [|constructor].
    exists (n :: path). reflexivity.
Qed.

Lemma collect_nonempty d a paths : forall Liste L Liste' L',
  collect d a paths Liste L = Ok (Liste', L') -> L <> [] -> L' <> [].
Proof.
  induction paths as [|p paths IH]; intros Liste L Liste' L' Hc Hne.
  - cbn in Hc. injection Hc as <- <-. assumption.
  - cbn [collect] in Hc. destruct p as [[|n path]|]; try (eapply IH; eassumption).
    destruct (penultimate (n :: path)) as [arrival_node|]; [|discriminate].
    cbn [bind] in Hc.
    destruct (calculate_total_time _ _ _ _) as [temps|]; [|discriminate].
    cbn [bind] in Hc. eapply IH; [eassumption|].
    destruct L; discriminate.
Qed.

(** The score of a candidate: the minutes from the arrival time carried by
    the last node but one of its path to the wished arrival time, both taken
    on the date given for the departure. *)
Lemma collect_score d a path Liste L Liste' L' :
  path <> [] ->
  collect d a [Some path] Liste L = Ok (Liste', L') ->
  exists arrival_node temps,
    penultimate path = Ok arrival_node
    /\ calculate_total_time (Some d) (arrival_time arrival_node)
                            (Some d) (Some a) = Ok temps
    /\ Liste' = (Liste ++ [map PyNode path ++ [PyInt temps]])%list
    /\ L' = (L ++ [temps])%list.
Proof.
  intros Hne Hc. cbn [collect] in Hc. destruct path as [|n path]; [congruence|].
  destruct (penultimate (n :: path)) as [arrival_node|] eqn:Ep; [|discriminate].
  cbn [bind] in Hc.
  destruct (calculate_total_time _ _ _ _) as [temps|] eqn:Et; [|discriminate].
  cbn [bind collect] in Hc. injection Hc as <- <-.
  exists arrival_node, temps. repeat split; assumption.
Qed.

(** With candidates but no score above zero, [index] is never assigned and
    reading it raises. *)
Lemma select_no_positive Liste L :
  Forall2 scored_path Liste L -> L <> [] ->
  (forall t, In t L -> t <= 0) ->
  select Liste L = Raise UnboundLocalError.
Proof.
  intros Hinv Hne Hall. unfold select.
  destruct L as [|x L]; [congruence|].
  rewrite (smallest_positive_of_none _ Hall).
  rewrite (index_of_none _ _ 0%nat Hinv). reflexivity.
Qed.

End ArrivalModeFacts.

(** C4: the candidate reported is not the one whose journey arrives closest
    before the wished time.  With the trains of [Examples.slow_then_fast] and
    a wished arrival at 12:00, the first candidate's journey reaches C at
    11:50 and the second's at 11:00, that is 10 and 60 minutes before the
    wished time; the branch scores them 200 and 190, the minutes from the
    arrival times 08:40 and 08:50 that the last-but-one nodes carry, and
    reports the second. *)
Theorem arrival_mode_scores_penultimate_stop :
  exists p0 p1 : list Node,
    ArrivalMode.searches 10 3 Examples.slow_then_fast "A" "C"
      (get_premiernodes Examples.slow_then_fast 0 "A"
                        (Some "01/06/2024") (Some "00:00"))
    = Some (Ok [Some p0; Some p1; None])
    /\ stops p0
       = [ ("A", Some "", Some "07:30"); ("B", Some "8011", Some "08:40");
           ("C", Some "8013", Some "11:50") ]
    /\ stops p1
       = [ ("A", Some "", Some "08:40"); ("B", Some "8012", Some "08:50");
           ("C", Some "8014", Some "11:00") ]
    /\ journey_score p0 "01/06/2024" "12:00" = Ok 10
    /\ journey_score p1 "01/06/2024" "12:00" = Ok 60
    /\ (exists Liste,
          ArrivalMode.collect "01/06/2024" "12:00" [Some p0; Some p1; None]
                              [] []
          = Ok (Liste, [200; 190]))
    /\ ArrivalMode.run 10 Examples.slow_then_fast
                       "A" "C" "01/06/2024" "00:00" "12:00"
       = Some (Ok (ArrivalMode.Selected
                     (Some 190) 1
                     (map ArrivalMode.PyNode p1 ++ [ArrivalMode.PyInt 190])%list)).
Proof.
  do 2 eexists. split; [vm_compute; reflexivity|].
  repeat split; try eexists; vm_compute; reflexivity.
Qed.

(** X20: of the candidates whose search gave a path, the one reported is the
    first whose score in [L] is the least of the scores above zero. *)
Theorem best_fit_selects_least_positive dep_date arrival_time_mode paths Liste L :
  ArrivalMode.collect dep_date arrival_time_mode paths [] [] = Ok (Liste, L) ->
  (exists t, In t L /\ 0 < t) ->
  exists m index min_path,
    ArrivalMode.best_fit dep_date arrival_time_mode paths
    = Ok (ArrivalMode.Selected (Some m) index min_path)
    /\ nth_error L index = Some m
    /\ nth_error Liste index = Some min_path
    /\ scored_path min_path m
    /\ 0 < m
    /\ (forall t, In t L -> 0 < t -> m <= t)
    /\ (forall j, (j < index)%nat -> nth_error L j <> Some m).
Proof.
  intros Hc Hpos.
  assert (Hinv : Forall2 scored_path Liste L)
    by (eapply collect_scored; [exact Hc | constructor]).
  destruct (smallest_positive_of_some L Hpos) as (m & Hsp & Hin & Hm & Hmin).
  destruct (index_of_first m Liste L Hinv Hin 0%nat)
    as (i & mp & Hidx & HL & HLi & Hfirst).
  exists m, i, mp.
  unfold ArrivalMode.best_fit. rewrite Hc. cbn [bind fst snd].
  unfold ArrivalMode.select. destruct L as [|x L]; [destruct Hin|].
  rewrite Hsp, Hidx. cbn [Nat.add]. rewrite HLi.
  repeat split; try assumption.
  exact (Forall2_nth_error _ _ _ Hinv i mp m HLi HL).
Qed.

Lemma best_fit_selects_least_positive_witness :
  exists m index min_path,
    ArrivalMode.best_fit "01/06/2024" "12:00" Examples.four_journeys
    = Ok (ArrivalMode.Selected (Some m) index min_path)
    /\ nth_error [45; -10; 12; 90] index = Some m
    /\ nth_error
         [Examples.scored "11:15" 45; Examples.scored "12:10" (-10);
          Examples.scored "11:48" 12; Examples.scored "10:30" 90]
         index = Some min_path
    /\ scored_path min_path m
    /\ 0 < m
    /\ (forall t, In t [45; -10; 12; 90] -> 0 < t -> m <= t)
    /\ (forall j, (j < index)%nat ->
          nth_error [45; -10; 12; 90] j <> Some m).
Proof.
  apply (best_fit_selects_least_positive
           "01/06/2024" "12:00" Examples.four_journeys).
  - vm_compute. reflexivity.
  - exists 45. split; [left; reflexivity | lia].
Defined.

(** The scores 45, -10, 12, 90: the third candidate, with score 12. *)
Example best_fit_four_journeys :
  ArrivalMode.best_fit "01/06/2024" "12:00" Examples.four_journeys
  = Ok (ArrivalMode.Selected (Some 12) 2 (Examples.scored "11:48" 12)).
Proof. vm_compute. reflexivity. Qed.

(** C5: one candidate path, whose score is below zero: the branch does not
    report that nothing was found, it raises [UnboundLocalError]. *)
Theorem best_fit_without_positive_score_raises :
  ArrivalMode.collect "01/06/2024" "12:00" Examples.late_journey [] []
  = Ok ([Examples.scored "12:10" (-10)], [-10])
  /\ ArrivalMode.best_fit "01/06/2024" "12:00" Examples.late_journey
     = Raise UnboundLocalError.
Proof. split; vm_compute; reflexivity. Qed.

(** The same for every list of candidates: with at least one path and no
    score above zero the branch raises. *)
Lemma best_fit_no_positive_raises dep_date arrival_time_mode paths Liste L :
  ArrivalMode.collect dep_date arrival_time_mode paths [] [] = Ok (Liste, L) ->
  L <> [] -> (forall t, In t L -> t <= 0) ->
  ArrivalMode.best_fit dep_date arrival_time_mode paths
  = Raise UnboundLocalError.
Proof.
  intros Hc Hne Hall. unfold ArrivalMode.best_fit. rewrite Hc. cbn [bind fst snd].
  apply select_no_positive; try assumption.
  eapply collect_scored; [exact Hc | constructor].
Qed.

(** ** dijkstra *)

(** C7: origin and goal the same station: the first turn of the loop
    returns the path made of the start node alone, whose distance is zero,
    and no query has been sent to the store. *)
Theorem dijkstra_same_station fuel fresh A dd dt ad at_ graph :
  dijkstra (S fuel) fresh A A dd dt ad at_ graph
  = Some (Ok (Some [start_node fresh A dd dt ad at_]), [])
  /\ distance (start_node fresh A dd dt ad at_) = Finite 0
  /\ parent (start_node fresh A dd dt ad at_) = None
  /\ name (start_node fresh A dd dt ad at_) = A.
Proof.
  repeat split.
  unfold dijkstra, initial_state. cbn [dijkstra_loop].
  unfold dijkstra_step. cbn [open_set min_node queries].
  cbn [start_node name]. rewrite String.eqb_refl. reflexivity.
Qed.

(** Every turn that goes on has sent one query: the station of the node it
    took from the frontier, with the departure date and time that node
    carries. *)
Lemma dijkstra_step_query graph goal st st' :
  dijkstra_step graph goal st = Continue st' ->
  exists current_node,
    In current_node (open_set st)
    /\ queries st'
       = (queries st ++ [(name current_node, departure_date current_node,
                          departure_time current_node)])%list.
Proof.
  unfold dijkstra_step.
  destruct (open_set st) as [|first others] eqn:Eo; [discriminate|].
  assert (Hmin : forall l best, In (min_node best l) (best :: l)).
  { induction l as [|x l IH]; intros best; cbn; [auto|].
    destruct (dist_lt _ _); [destruct (IH x) | destruct (IH best)]; auto. }
  destruct (String.eqb _ _); [discriminate|].
  destruct (get_neighbors _ _ _ _ _); [|discriminate].
  intros [= <-]. exists (min_node first others). split; [apply Hmin | reflexivity].
Qed.

(** C2: the node for B carries the departure of the train that brought the
    traveller (08:00 from A) and its arrival at B (10:00).  The store is
    asked for the trains leaving B from 08:00 on, and the path goes on with
    the train that leaves B at 09:00. *)
Theorem dijkstra_queries_from_departure_instant :
  exists a b c,
    dijkstra 3 0 "A" "C" Examples.day1 (Some "07:00")
             Examples.day1 (Some "07:00") Examples.missed_connection
    = Some (Ok (Some [a; b; c]),
            [("A", Examples.day1, Some "07:00");
             ("B", Examples.day1, Some "08:00")])
    /\ name b = "B"
    /\ departure_time b = Some "08:00" /\ arrival_time b = Some "10:00"
    /\ name c = "C"
    /\ departure_time c = Some "09:00" /\ parent c = Some b.
Proof.
  do 3 eexists. split; [vm_compute; reflexivity|].
  repeat split.
Qed.

(** C3: after the first turn the frontier holds two nodes for B, with costs
    480 and 420: the better cost found second did not replace the first
    node's cost, it came in as a second node. *)
Theorem dijkstra_frontier_two_labels_same_station :
  exists b1 b2 closed fresh sent,
    dijkstra_step Examples.two_trains "C"
      (initial_state 0 "A" Examples.day1 (Some "22:00")
                     Examples.day1 (Some "22:00"))
    = Continue (mkSearchState [b1; b2] closed fresh sent)
    /\ name b1 = "B" /\ name b2 = "B"
    /\ distance b1 = Finite 480 /\ distance b2 = Finite 420
    /\ oid b1 <> oid b2.
Proof.
  do 5 eexists. split; [vm_compute; reflexivity|].
  repeat split. cbn. lia.
Qed.

(** ** The query of get_neighbors *)

Lemma insert_row_In r x rows :
  In x (Cypher.insert_row r rows) <-> x = r \/ In x rows.
Proof.
  induction rows as [|y rows IH]; cbn.
  - intuition auto.
  - destruct (Cypher.row_le r y); cbn; rewrite ?IH; intuition auto.
Qed.

Lemma order_by_In x rows : In x (Cypher.order_by rows) <-> In x rows.
Proof.
  unfold Cypher.order_by. induction rows as [|y rows IH]; cbn; [tauto|].
  rewrite insert_row_In, IH. intuition auto.
Qed.

(** The records kept are the complete ones that leave the station and whose
    date text and time text are each, as texts, not below the given ones. *)
Lemma departing_records_selection graph nm dd dt r :
  In r (departing_records graph nm (Some dd) (Some dt)) <->
  In r graph /\ origin_nom r = nm /\ incomplete r = false
  /\ exists d t, datedepart r = Some d /\ hdepart r = Some t
                 /\ String.leb dd d = true /\ String.leb dt t = true.
Proof.
  unfold departing_records, neighbors_query.
  rewrite filter_In, order_by_In, filter_In, negb_true_iff, andb_true_iff.
  rewrite String.eqb_eq.
  split.
  - intros [(Hin & Hnm & Hw) Hc]. repeat split; try assumption.
    destruct (datedepart r) as [d|], (hdepart r) as [t|]; cbn in Hw;
      repeat match type of Hw with
      | context [String.leb ?a ?b] => destruct (String.leb a b) eqn:?
      end; try discriminate.
    exists d, t. auto.
  - intros (Hin & Hnm & Hc & d & t & -> & -> & Hd & Ht).
    repeat split; try assumption. cbn. rewrite Hd, Ht. reflexivity.
Qed.

(** C8: a train that leaves A on 02/06/2024 at 07:00 leaves after
    01/06/2024 08:00, and the records kept for A from 01/06/2024 08:00 do
    not hold it: its clock time alone is below 08:00. *)
Theorem departing_records_drops_later_date_earlier_time :
  let r := Examples.next_morning_train in
  parse_instant (datedepart r) (hdepart r) = Ok (mkDatetime 739039 7 0)
  /\ parse_instant Examples.day1 (Some "08:00") = Ok (mkDatetime 739038 8 0)
  /\ datetime_gt (mkDatetime 739039 7 0) (mkDatetime 739038 8 0) = true
  /\ origin_nom r = "A" /\ incomplete r = false
  /\ departing_records [r] "A" Examples.day1 (Some "08:00") = []
  /\ get_neighbors [r] 0 "A" Examples.day1 (Some "08:00") = Ok [].
Proof. repeat split. Qed.

(** Dates compare as texts, day first: a train one month later is below
    the given date and is not kept either. *)
Example departing_records_drops_next_month :
  let r := Examples.next_month_train in
  parse_instant (datedepart r) (hdepart r) = Ok (mkDatetime 739068 9 0)
  /\ parse_instant Examples.day2 (Some "08:00") = Ok (mkDatetime 739039 8 0)
  /\ departing_records [r] "A" Examples.day2 (Some "08:00") = [].
Proof. repeat split. Qed.

(** ** Termination of the search loop *)

Lemma datetime_gt_irrefl a : datetime_gt a a = false.
Proof. unfold datetime_gt. rewrite !Z.ltb_irrefl. reflexivity. Qed.

Lemma datetime_gt_trans a b c :
  datetime_gt a b = true -> datetime_gt b c = true -> datetime_gt a c = true.
Proof.
  unfold datetime_gt.
  repeat match goal with
  | |- context [?x <? ?y] => destruct (Z.ltb_spec x y)
  end; intros; try discriminate; try reflexivity; lia.
Qed.

Lemma filter_length_le {A : Type} (P : A -> bool) l :
  (length (List.filter P l) <= length l)%nat.
Proof. induction l as [|x l IH]; cbn; [lia|]. destruct (P x); cbn; lia. Qed.

Lemma filter_length_mono {A : Type} (P Q : A -> bool) l :
  (forall y, P y = true -> Q y = true) ->
  (length (List.filter P l) <= length (List.filter Q l))%nat.
Proof.
  intros HPQ. induction l as [|x l IH]; cbn; [lia|].
  destruct (P x) eqn:EP.
  - rewrite (HPQ x EP). cbn. lia.
  - destruct (Q x); cbn; lia.
Qed.

Lemma filter_length_lt {A : Type} (P Q : A -> bool) l x :
  (forall y, P y = true -> Q y = true) ->
  In x l -> P x = false -> Q x = true ->
  (length (List.filter P l) < length (List.filter Q l))%nat.
Proof.
  intros HPQ. induction l as [|y l IH]; intros Hin HP HQ; [destruct Hin|].
  cbn. destruct Hin as [-> | Hin].
  - rewrite HP, HQ. cbn.
    pose proof (filter_length_mono P Q l HPQ). lia.
  - specialize (IH Hin HP HQ). destruct (P y) eqn:EP.
    + rewrite (HPQ y EP). cbn. lia.
    + destruct (Q y); cbn; lia.
Qed.

(** A train that leaves after [t0] has fewer trains after it than [t0]. *)
Lemma later_train_fewer_after graph r t t0 :
  In r graph -> parse_instant (datedepart r) (hdepart r) = Ok t ->
  datetime_gt t t0 = true ->
  (length (List.filter (departs_after t) graph)
   < length (List.filter (departs_after t0) graph))%nat.
Proof.
  intros Hin Hp Hgt. apply (filter_length_lt _ _ graph r); try assumption.
  - intros y. unfold departs_after.
    destruct (parse_instant (datedepart y) (hdepart y)); [|discriminate].
    intros H. eapply datetime_gt_trans; eassumption.
  - unfold departs_after. rewrite Hp. apply datetime_gt_irrefl.
  - unfold departs_after. rewrite Hp. assumption.
Qed.

Lemma insert_row_length r rows :
  length (Cypher.insert_row r rows) = S (length rows).
Proof.
  induction rows as [|x rows IH]; cbn; [reflexivity|].
  destruct (Cypher.row_le r x); cbn; [reflexivity | rewrite IH; reflexivity].
Qed.

Lemma order_by_length rows : length (Cypher.order_by rows) = length rows.
Proof.
  unfold Cypher.order_by. induction rows as [|x rows IH]; cbn; [reflexivity|].
  rewrite insert_row_length, IH. reflexivity.
Qed.

Lemma neighbors_query_In graph nm dd dt r :
  In r (neighbors_query graph nm dd dt) -> In r graph.
Proof.
  unfold neighbors_query. rewrite order_by_In, filter_In. tauto.
Qed.

Lemma neighbors_query_length graph nm dd dt :
  (length (neighbors_query graph nm dd dt) <= length graph)%nat.
Proof.
  unfold neighbors_query. rewrite order_by_length. apply filter_length_le.
Qed.

Lemma neighbors_of_yields records : forall fresh dd dt ys,
  neighbors_of fresh dd dt records = Ok ys ->
  let hi := (fresh + length (List.filter (fun r => negb (incomplete r)) records))%nat in
  Forall (yielded_from records dd dt fresh hi) ys
  /\ List.NoDup (map (fun y => oid (fst y)) ys)
  /\ (length ys <= length records)%nat.
Proof.
  induction records as [|r records IH]; intros fresh dd dt ys Hn; cbn zeta.
  - cbn in Hn. injection Hn as <-. repeat split; constructor.
  - cbn [neighbors_of] in Hn. cbn [List.filter length].
    assert (Hweaken : forall lo lo' hi hi' zs,
              (lo' <= lo)%nat -> (hi <= hi')%nat ->
              Forall (yielded_from records dd dt lo hi) zs ->
              Forall (yielded_from (r :: records) dd dt lo' hi') zs).
    { intros lo lo' hi hi' zs Hlo Hhi Hall. eapply List.Forall_impl; [|exact Hall].
      intros y (Ho & Hd & r' & t & t0 & Hin & H). repeat split; try lia; try assumption.
      exists r', t, t0. split; [right; assumption | assumption]. }
    destruct (incomplete r) eqn:Einc; cbn [negb].
    + destruct (IH _ _ _ _ Hn) as (Hall & Hnd & Hlen).
      repeat split; [|assumption|cbn; lia].
      eapply Hweaken; [| |exact Hall]; lia.
    + cbn [departure_date departure_time new_Node] in Hn.
      destruct (parse_instant (datedepart r) (hdepart r)) as [t|] eqn:Et;
        [|discriminate].
      cbn [bind] in Hn.
      destruct (parse_instant dd dt) as [t0|] eqn:Et0; [|discriminate].
      cbn [bind] in Hn.
      destruct (datetime_gt t t0) eqn:Egt.
      * destruct (calculate_duration _ _ _ _) as [nd|]; [|discriminate].
        cbn [bind] in Hn.
        destruct (neighbors_of (S fresh) dd dt records) as [others|] eqn:Eo;
          [|discriminate].
        cbn [bind] in Hn. injection Hn as <-.
        destruct (IH _ _ _ _ Eo) as (Hall & Hnd & Hlen).
        repeat split.
        -- constructor.
           ++ repeat split; cbn; try lia.
              exists r, t, t0. repeat split; try assumption. left; reflexivity.
           ++ eapply Hweaken; [| |exact Hall]; cbn; lia.
        -- cbn. constructor; [|assumption].
           intros Hin. apply in_map_iff in Hin. destruct Hin as (y & Hy & Hin).
           rewrite List.Forall_forall in Hall. apply Hall in Hin.
           destruct Hin as (Ho & _). lia.
        -- cbn. lia.
      * destruct (IH _ _ _ _ Hn) as (Hall & Hnd & Hlen).
        repeat split; [|assumption|cbn; lia].
        eapply Hweaken; [| |exact Hall]; cbn; lia.
Qed.

Lemma node_in_false n l :
  node_in n l = false <-> forall x, In x l -> oid x <> oid n.
Proof.
  unfold node_in. induction l as [|y l IH]; cbn.
  - split; [intros _ x [] | reflexivity].
  - rewrite orb_false_iff, IH, Nat.eqb_neq. split.
    + intros [Hy Hl] x [<- | Hin]; auto.
    + intros H. split; [apply H; auto | intros x Hin; apply H; auto].
Qed.

Lemma oid_set_parent_distance n p d : oid (set_parent_distance n p d) = oid n.
Proof. destruct n; reflexivity. Qed.

Lemma departure_set_parent_distance n p d :
  departure_date (set_parent_distance n p d) = departure_date n
  /\ departure_time (set_parent_distance n p d) = departure_time n.
Proof. destruct n; split; reflexivity. Qed.

(** A node that is not yet in the frontier leaves it as it is or comes in
    at its end; no node of the frontier is written to. *)
Lemma relax_new current_node closed open nb d :
  node_in nb open = false ->
  relax current_node closed open (nb, d) = open
  \/ exists dist',
       relax current_node closed open (nb, d)
       = (open ++ [set_parent_distance nb current_node dist'])%list.
Proof.
  intros Hnew. unfold relax.
  destruct (bool_decide _); [left; reflexivity|].
  destruct (dist_lt _ (distance nb)).
  - assert (Hnew' : node_in (set_parent_distance nb current_node
                      (dist_add (distance current_node) (Finite d))) open = false).
    { unfold node_in in *. rewrite oid_set_parent_distance. exact Hnew. }
    rewrite Hnew'. right. eexists. reflexivity.
  - rewrite Hnew. left. reflexivity.
Qed.

Lemma fold_relax current_node closed : forall ys open,
  List.NoDup (map (fun y => oid (fst y)) ys) ->
  (forall y x, In y ys -> In x open -> oid x <> oid (fst y)) ->
  exists added,
    fold_left (relax current_node closed) ys open = (open ++ added)%list
    /\ (length added <= length ys)%nat
    /\ Forall (added_from current_node ys) added
    /\ List.NoDup (map oid added).
Proof.
  induction ys as [|[nb d] ys IH]; intros open Hnd Hnew.
  - exists []. cbn. rewrite app_nil_r. repeat split; constructor.
  - cbn [fold_left]. cbn in Hnd. apply List.NoDup_cons_iff in Hnd.
    destruct Hnd as [Hhead Hnd].
    assert (Hlift : forall added,
              Forall (added_from current_node ys) added ->
              Forall (added_from current_node ((nb, d) :: ys)) added).
    { intros added Hall. eapply List.Forall_impl; [|exact Hall].
      intros n (y & dist' & Hin & H). exists y, dist'.
      split; [right; assumption | assumption]. }
    assert (Hin_nb : node_in nb open = false).
    { apply node_in_false. intros x Hx. apply (Hnew (nb, d) x); [left; reflexivity | assumption]. }
    destruct (relax_new current_node closed open nb d Hin_nb) as [-> | [dist' ->]].
    + destruct (IH open Hnd) as (added & Hfold & Hlen & Hall & Hndadd).
      { intros y x Hy Hx. apply Hnew; [right; assumption | assumption]. }
      exists added. repeat split; [assumption | cbn; lia | auto | assumption].
    + set (nb' := set_parent_distance nb current_node dist').
      destruct (IH (open ++ [nb'])%list Hnd) as (added & Hfold & Hlen & Hall & Hndadd).
      { intros y x Hy Hx. apply in_app_iff in Hx. destruct Hx as [Hx | [<- | []]].
        - apply Hnew; [right; assumption | assumption].
        - subst nb'. rewrite oid_set_parent_distance. intros Heq. apply Hhead.
          apply in_map_iff. exists y. split; [symmetry; assumption | assumption]. }
      exists (nb' :: added). repeat split.
      * rewrite Hfold, <- app_assoc. reflexivity.
      * cbn. lia.
      * constructor; [|auto].
        exists (nb, d), dist'. split; [left; reflexivity | reflexivity].
      * cbn. constructor; [|assumption].
        intros Hin. apply in_map_iff in Hin. destruct Hin as (n & Hn & Hin).
        rewrite List.Forall_forall in Hall.
        destruct (Hall n Hin) as (y & dy & Hy & ->).
        apply Hhead. apply in_map_iff. exists y. split; [|assumption].
        rewrite oid_set_parent_distance in Hn. subst nb'.
        rewrite oid_set_parent_distance in Hn. assumption.
Qed.

Lemma min_node_In l : forall best, In (min_node best l) (best :: l).
Proof.
  induction l as [|x l IH]; intros best; cbn; [auto|].
  destruct (dist_lt _ _); [destruct (IH x) | destruct (IH best)]; auto.
Qed.

Lemma remove_node_In n l x : In x (remove_node n l) -> In x l.
Proof.
  induction l as [|y l IH]; cbn; [tauto|].
  destruct (Nat.eqb _ _); cbn; intuition auto.
Qed.

Lemma remove_node_NoDup n l :
  List.NoDup (map oid l) -> List.NoDup (map oid (remove_node n l)).
Proof.
  induction l as [|y l IH]; cbn; [auto|].
  intros H. apply List.NoDup_cons_iff in H. destruct H as [Hy Hl].
  destruct (Nat.eqb _ _); [assumption|].
  cbn. constructor; [|auto].
  intros Hin. apply Hy. apply in_map_iff in Hin. destruct Hin as (x & Hx & Hin).
  apply in_map_iff. exists x. split; [assumption | eapply remove_node_In; eassumption].
Qed.

Lemma potential_app graph l1 l2 :
  potential graph (l1 ++ l2) = (potential graph l1 + potential graph l2)%nat.
Proof. unfold potential. rewrite map_app, list_sum_app. reflexivity. Qed.

Lemma potential_cons graph n l :
  potential graph (n :: l) = (weight graph n + potential graph l)%nat.
Proof. reflexivity. Qed.

(** Taking an object out of the frontier takes its weight out. *)
Lemma potential_remove graph n l :
  In n l -> List.NoDup (map oid l) ->
  potential graph l = (weight graph n + potential graph (remove_node n l))%nat.
Proof.
  induction l as [|y l IH]; intros Hin Hnd; [destruct Hin|].
  cbn in Hnd. apply List.NoDup_cons_iff in Hnd. destruct Hnd as [Hy Hl].
  cbn [remove_node]. destruct (Nat.eqb_spec (oid y) (oid n)) as [Heq | Hne].
  - destruct Hin as [-> | Hin]; [reflexivity|].
    exfalso. apply Hy. rewrite Heq. apply in_map. assumption.
  - destruct Hin as [-> | Hin]; [congruence|].
    rewrite !potential_cons, (IH Hin Hl). lia.
Qed.

Lemma weight_pos graph n : (1 <= weight graph n)%nat.
Proof.
  unfold weight.
  pose proof (Nat.pow_nonzero (S (length graph)) (rank graph n)). lia.
Qed.

(** Nodes of lower rank, no more of them than the store has trains, weigh
    less together than one node of rank [k]. *)
Lemma potential_lower_ranks graph added k :
  (forall n, In n added -> (rank graph n < k)%nat) ->
  (length added <= length graph)%nat ->
  (potential graph added < S (length graph) ^ k)%nat.
Proof.
  intros Hrank Hlen. destruct k as [|k].
  - destruct added as [|n added]; [cbn; lia|].
    specialize (Hrank n (or_introl eq_refl)). lia.
  - assert (Hsum : (potential graph added
                    <= length added * S (length graph) ^ k)%nat).
    { clear Hlen. induction added as [|n added IH]; [cbn; lia|].
      rewrite potential_cons. cbn [length].
      assert (Hn : (weight graph n <= S (length graph) ^ k)%nat).
      { unfold weight. apply Nat.pow_le_mono_r; [lia|].
        specialize (Hrank n (or_introl eq_refl)). lia. }
      assert (IH' := IH (fun m Hm => Hrank m (or_intror Hm))).
      lia. }
    rewrite Nat.pow_succ_r'.
    pose proof (Nat.pow_nonzero (S (length graph)) k ltac:(lia)).
    nia.
Qed.

Lemma rank_same_departure graph n m :
  departure_date n = departure_date m ->
  departure_time n = departure_time m -> rank graph n = rank graph m.
Proof. intros Hd Ht. unfold rank. rewrite Hd, Ht. reflexivity. Qed.

Lemma parent_set_parent_distance n p d :
  parent (set_parent_distance n p d) = Some p.
Proof. destruct n; reflexivity. Qed.

(** A turn of the loop that goes on lowers the potential of the frontier;
    the nodes that come in are new objects, children of a node that was in
    the frontier, with a later departure instant than that node's. *)
Lemma dijkstra_step_decreases graph goal st st' :
  distinct_objects st ->
  dijkstra_step graph goal st = Continue st' ->
  (potential graph (open_set st') < potential graph (open_set st))%nat
  /\ distinct_objects st'
  /\ forall n, In n (open_set st') ->
       In n (open_set st)
       \/ exists current_node,
            In current_node (open_set st)
            /\ parent n = Some current_node
            /\ leaves_after (departure_date n) (departure_time n) current_node.
Proof.
  intros [Hnd Hold] Hstep. unfold dijkstra_step in Hstep.
  destruct (open_set st) as [|first others] eqn:Eo; [discriminate|].
  set (cur := min_node first others) in *.
  assert (Hcur : In cur (first :: others)) by apply min_node_In.
  destruct (String.eqb _ _); [discriminate|].
  destruct (get_neighbors _ _ _ _ _) as [ys|] eqn:Eg; [|discriminate].
  injection Hstep as <-. cbn [open_set next_oid].
  unfold get_neighbors in Eg. apply neighbors_of_yields in Eg.
  cbn zeta in Eg. destruct Eg as (Hall & Hndys & Hlen).
  fold (departing_records graph (name cur) (departure_date cur)
          (departure_time cur)) in Hall.
  fold (created graph (name cur) (departure_date cur) (departure_time cur))
    in Hall.
  rewrite List.Forall_forall in Hall.
  set (open0 := remove_node cur (first :: others)).
  change (if Nat.eqb (oid first) (oid cur)
          then others else first :: remove_node cur others) with open0.
  destruct (fold_relax cur (closed_set st ∪ {[name cur]}) ys open0 Hndys)
    as (added & -> & Hlenadd & Hadded & Hndadd).
  { intros y x Hy Hx. apply remove_node_In in Hx.
    specialize (Hold x Hx). destruct (Hall y Hy) as (Ho & _). lia. }
  rewrite List.Forall_forall in Hadded.
  assert (Hnew : forall n, In n added ->
            (next_oid st <= oid n
             < next_oid st + created graph (name cur) (departure_date cur)
                               (departure_time cur))%nat
            /\ (rank graph n < rank graph cur)%nat
            /\ parent n = Some cur
            /\ leaves_after (departure_date n) (departure_time n) cur).
  { intros n Hn. destruct (Hadded n Hn) as (y & dist' & Hy & ->).
    destruct (Hall y Hy) as (Hrange & _ & r & t & t0 & Hr & Hrd & Hrt & Ht & Ht0 & Hgt).
    rewrite oid_set_parent_distance, parent_set_parent_distance.
    destruct (departure_set_parent_distance (fst y) cur dist') as [Hdd Hdt].
    split; [lia|]. unfold rank, leaves_after.
    rewrite Hdd, Hdt, Hrd, Hrt, Ht, Ht0. split; [|split; [reflexivity|]].
    - eapply later_train_fewer_after; try eassumption.
      eapply neighbors_query_In; eassumption.
    - exists t, t0. auto. }
  pose proof (neighbors_query_length graph (name cur) (departure_date cur)
                (departure_time cur)) as Hq.
  split; [|split].
  - rewrite potential_app, (potential_remove graph cur _ Hcur Hnd).
    fold open0.
    pose proof (potential_lower_ranks graph added (rank graph cur)
                  (fun n Hn => proj1 (proj2 (Hnew n Hn))) ltac:(lia)) as Hlow.
    unfold weight at 1. lia.
  - split; cbn [open_set next_oid].
    + rewrite map_app. apply List.NoDup_app.
      * apply remove_node_NoDup. assumption.
      * assumption.
      * intros o Ho Ho'. apply in_map_iff in Ho. destruct Ho as (x & <- & Hx).
        apply in_map_iff in Ho'. destruct Ho' as (n & Heq & Hn).
        apply remove_node_In in Hx. specialize (Hold x Hx).
        destruct (Hnew n Hn) as (Hrange & _). lia.
    + intros n Hn. apply in_app_iff in Hn. destruct Hn as [Hn | Hn].
      * apply remove_node_In in Hn. specialize (Hold n Hn). lia.
      * destruct (Hnew n Hn) as (Hrange & _). lia.
  - intros n Hn. apply in_app_iff in Hn. destruct Hn as [Hn | Hn].
    + left. eapply remove_node_In; eassumption.
    + right. exists cur. split; [assumption | apply (Hnew n Hn)].
Qed.

(** The loop halts within as many turns as the potential of the frontier,
    plus one. *)
Lemma dijkstra_loop_halts graph goal : forall fuel st,
  distinct_objects st ->
  (potential graph (open_set st) < fuel)%nat ->
  exists out, dijkstra_loop fuel graph goal st = Some out.
Proof.
  induction fuel as [|fuel IH]; intros st Hinv Hpot; [lia|].
  cbn [dijkstra_loop].
  destruct (dijkstra_step graph goal st) as [path sent | e sent | st'] eqn:Es;
    [eexists; reflexivity | eexists; reflexivity |].
  destruct (dijkstra_step_decreases graph goal st st' Hinv Es) as (Hlt & Hinv' & _).
  apply IH; [assumption | lia].
Qed.

(** More turns than needed change nothing. *)
Lemma dijkstra_loop_stable graph goal : forall fuel fuel' st out,
  dijkstra_loop fuel graph goal st = Some out ->
  (fuel <= fuel')%nat ->
  dijkstra_loop fuel' graph goal st = Some out.
Proof.
  induction fuel as [|fuel IH]; intros fuel' st out Hrun Hle; [discriminate|].
  destruct fuel' as [|fuel']; [lia|].
  cbn [dijkstra_loop] in *.
  destruct (dijkstra_step graph goal st); try assumption.
  apply IH; [assumption | lia].
Qed.

Lemma initial_state_distinct fresh nm dd dt ad at_ :
  distinct_objects (initial_state fresh nm dd dt ad at_).
Proof.
  split; cbn.
  - constructor; [intros [] | constructor].
  - intros n [<- | []]. cbn. lia.
Qed.

Lemma rank_le graph n : (rank graph n <= length graph)%nat.
Proof.
  unfold rank. destruct (parse_instant _ _); [apply filter_length_le | lia].
Qed.

Lemma initial_potential graph fresh start dd dt ad at_ :
  (potential graph (open_set (initial_state fresh start dd dt ad at_))
   < S (S (length graph) ^ length graph))%nat.
Proof.
  unfold initial_state. cbn [open_set]. rewrite potential_cons.
  change (potential graph []) with 0%nat. unfold weight.
  pose proof (rank_le graph (start_node fresh start dd dt ad at_)) as Hr.
  pose proof (Nat.pow_le_mono_r (S (length graph)) _ _ ltac:(lia) Hr).
  lia.
Qed.

(** For every store the search halts, whatever its texts are. *)
Lemma dijkstra_halts graph fresh start goal dd dt ad at_ :
  exists out,
    dijkstra (S (S (length graph) ^ length graph)) fresh start goal
             dd dt ad at_ graph = Some out.
Proof.
  unfold dijkstra. apply dijkstra_loop_halts.
  - apply initial_state_distinct.
  - apply initial_potential.
Qed.

(** ** The search returns on a store whose texts are instants *)

Lemma parses_ok date time :
  parses date time = true -> exists t, parse_instant date time = Ok t.
Proof.
  unfold parses. destruct (parse_instant date time); [eauto | discriminate].
Qed.

Lemma neighbors_of_ok records : forall fresh dd dt t0,
  (forall r, In r records -> well_formed_row r = true) ->
  parse_instant dd dt = Ok t0 ->
  exists ys, neighbors_of fresh dd dt records = Ok ys.
Proof.
  induction records as [|r records IH]; intros fresh dd dt t0 Hwf Ht0.
  - eexists. reflexivity.
  - cbn [neighbors_of].
    assert (Hrest : forall r', In r' records -> well_formed_row r' = true)
      by (intros r' Hr'; apply Hwf; right; assumption).
    destruct (incomplete r) eqn:Einc; [eapply IH; eassumption|].
    pose proof (Hwf r (or_introl eq_refl)) as Hr.
    unfold well_formed_row in Hr. rewrite Einc in Hr. cbn in Hr.
    apply andb_true_iff in Hr. destruct Hr as [Hdep Harr].
    apply parses_ok in Hdep. destruct Hdep as [t Ht].
    apply parses_ok in Harr. destruct Harr as [ta Hta].
    cbn [departure_date departure_time arrival_date arrival_time new_Node].
    rewrite Ht, Ht0. cbn [bind].
    destruct (datetime_gt t t0); [|eapply IH; eassumption].
    rewrite (calculate_duration_parsed _ _ _ _ _ _ Ht0 Hta). cbn [bind].
    destruct (IH (S fresh) dd dt t0 Hrest Ht0) as [others ->]. cbn [bind].
    eexists. reflexivity.
Qed.

Lemma get_neighbors_ok graph fresh nm dd dt t0 :
  well_formed graph = true -> parse_instant dd dt = Ok t0 ->
  exists ys, get_neighbors graph fresh nm dd dt = Ok ys.
Proof.
  intros Hwf Ht0. unfold get_neighbors. eapply neighbors_of_ok; [|eassumption].
  intros r Hr. apply neighbors_query_In in Hr.
  unfold well_formed in Hwf. rewrite List.forallb_forall in Hwf. auto.
Qed.

Lemma chain_increasing_child n q :
  parent n = Some q ->
  leaves_after (departure_date n) (departure_time n) q ->
  chain_increasing q -> chain_increasing n.
Proof. destruct n; cbn. intros ->. auto. Qed.

(** A turn on a sound frontier does not raise, and what it returns is a
    path to the goal. *)
Lemma dijkstra_step_sound graph goal st :
  well_formed graph = true -> sound_frontier st ->
  match dijkstra_step graph goal st with
  | Returned path _ => path_to goal path
  | Raised _ _ => False
  | Continue _ => True
  end.
Proof.
  intros Hwf Hsound. unfold dijkstra_step.
  destruct (open_set st) as [|first others] eqn:Eo; [intros p [=]|].
  pose proof (min_node_In others first) as Hcur. rewrite <- Eo in Hcur.
  destruct (Hsound _ Hcur) as [Hp Hchain].
  destruct (String.eqb_spec (name (min_node first others)) goal) as [Hg | Hg].
  - intros p [= <-]. eauto.
  - apply parses_ok in Hp. destruct Hp as [t0 Ht0].
    destruct (get_neighbors_ok graph (next_oid st)
                (name (min_node first others)) _ _ t0 Hwf Ht0) as [ys ->].
    exact I.
Qed.

Lemma dijkstra_loop_returns graph goal :
  well_formed graph = true ->
  forall fuel st,
    distinct_objects st -> sound_frontier st ->
    (potential graph (open_set st) < fuel)%nat ->
    exists path sent,
      dijkstra_loop fuel graph goal st = Some (Ok path, sent)
      /\ path_to goal path.
Proof.
  intros Hwf. induction fuel as [|fuel IH]; intros st Hinv Hsound Hpot; [lia|].
  cbn [dijkstra_loop].
  pose proof (dijkstra_step_sound graph goal st Hwf Hsound) as Hstep.
  destruct (dijkstra_step graph goal st) as [path sent | e sent | st'] eqn:Es;
    [eauto | destruct Hstep |].
  destruct (dijkstra_step_decreases graph goal st st' Hinv Es)
    as (Hlt & Hinv' & Hnodes).
  apply IH; [assumption | | lia].
  intros n Hn. destruct (Hnodes n Hn) as [Hold | (cur & Hcur & Hpar & Hlater)];
    [auto|].
  destruct (Hsound cur Hcur) as [_ Hchain]. split.
  - destruct Hlater as (t & tq & Ht & _). unfold parses. rewrite Ht. reflexivity.
  - eapply chain_increasing_child; eassumption.
Qed.

(** C10: on every finite store the search halts, within a number of turns
    bounded by the size of the store: the nodes that come into the frontier
    carry a later departure instant than the node expanded, and a potential
    of the frontier goes down at every turn.  On a store whose dates and
    times are texts of instants, what it returns is a path or none, and the
    departure instants along the parent links of the path increase. *)
Theorem dijkstra_terminates graph fresh start goal dd dt ad at_ :
  exists out : Outcome,
    (forall fuel, (S (length graph) ^ length graph < fuel)%nat ->
       dijkstra fuel fresh start goal dd dt ad at_ graph = Some out)
    /\ (well_formed graph = true ->
        (exists t0, parse_instant dd dt = Ok t0) ->
        exists path, fst out = Ok path /\ path_to goal path).
Proof.
  destruct (dijkstra_halts graph fresh start goal dd dt ad at_) as [out Hout].
  exists out. unfold dijkstra in *. split.
  - intros fuel Hfuel. eapply dijkstra_loop_stable; [exact Hout | lia].
  - intros Hwf [t0 Ht0].
    destruct (dijkstra_loop_returns graph goal Hwf
                (S (S (length graph) ^ length graph))
                (initial_state fresh start dd dt ad at_))
      as (path & sent & Hrun & Hpath).
    + apply initial_state_distinct.
    + intros n [<- | []]. cbn. unfold parses. rewrite Ht0. auto.
    + apply initial_potential.
    + rewrite Hrun in Hout. injection Hout as <-.
      exists path. split; [reflexivity | assumption].
Qed.

Lemma dijkstra_terminates_witness :
  exists out : Outcome,
    (forall fuel, (S (length Examples.missed_connection)
                   ^ length Examples.missed_connection < fuel)%nat ->
       dijkstra fuel 0 "A" "C" Examples.day1 (Some "07:00")
                Examples.day1 (Some "07:00") Examples.missed_connection
       = Some out)
    /\ exists path, fst out = Ok path /\ path_to "C" path.
Proof.
  destruct (dijkstra_terminates Examples.missed_connection 0 "A" "C"
              Examples.day1 (Some "07:00") Examples.day1 (Some "07:00"))
    as (out & Hrun & Hok).
  exists out. split; [exact Hrun|].
  apply Hok; [reflexivity | eexists; reflexivity].
Defined.

(** ** The whole branch on a small store *)

(** Two trains from A to B, wished arrival 10:00.  The search seeded with
    the 08:00 train finds the 08:30 train (only later departures are
    yielded); the search seeded with the 08:30 train finds none.  The one
    score is 60, from the 09:00 arrival the start node carries. *)
Example run_morning_trains :
  exists a b,
    ArrivalMode.run 3 Examples.morning_trains "A" "B"
                    "01/06/2024" "00:00" "10:00"
    = Some (Ok (ArrivalMode.Selected (Some 60) 0
                  [ArrivalMode.PyNode a; ArrivalMode.PyNode b;
                   ArrivalMode.PyInt 60]))
    /\ name a = "A" /\ departure_time a = Some "08:00"
    /\ arrival_time a = Some "09:00"
    /\ name b = "B" /\ departure_time b = Some "08:30"
    /\ arrival_time b = Some "09:30".
Proof.
  do 2 eexists. split; [vm_compute; reflexivity|]. repeat split.
Qed.

(** * Further properties *)

(** ** The two duration functions *)

Lemma calculate_duration_value dd dt ad at_ D A :
  parse_instant dd dt = Ok D -> parse_instant ad at_ = Ok A ->
  calculate_duration dd dt ad at_
  = Ok (let d := dt_ordinal A - dt_ordinal D in
        if d <? 0 then d * 1440
        else d * 1440 + Z.min 0 (time_of_day A - time_of_day D)).
Proof.
  intros HD HA. rewrite (calculate_duration_parsed _ _ _ _ _ _ HD HA).
  f_equal. apply duration_closed_form; eapply parse_instant_valid; eassumption.
Qed.

(** X1: for instants that parse, [calculate_duration] is a whole number of
    days, less the minutes by which the arrival clock time is below the
    departure clock time; an arrival date before the departure date gives
    the (negative) whole days alone. *)
Theorem calculate_duration_closed_form dd dt ad at_ D A :
  parse_instant dd dt = Ok D -> parse_instant ad at_ = Ok A ->
  calculate_duration dd dt ad at_
  = Ok (let d := dt_ordinal A - dt_ordinal D in
        if d <? 0 then d * 1440
        else d * 1440 + Z.min 0 (time_of_day A - time_of_day D)).
Proof.
  intros HD HA. rewrite (calculate_duration_parsed _ _ _ _ _ _ HD HA).
  f_equal. apply duration_closed_form; eapply parse_instant_valid; eassumption.
Qed.

Lemma calculate_duration_closed_form_witness :
  calculate_duration (Some "01/06/2024") (Some "08:30")
                     (Some "03/06/2024") (Some "07:15") = Ok 2805.
Proof.
  exact (calculate_duration_closed_form
           (Some "01/06/2024") (Some "08:30")
           (Some "03/06/2024") (Some "07:15")
           (mkDatetime 739038 8 30) (mkDatetime 739040 7 15)
           eq_refl eq_refl).
Defined.

(** X2: the value is below zero exactly when the arrival date is before the
    departure date, or the dates are the same and the arrival clock time is
    before the departure clock time; a train that arrives later on the day
    it left costs zero. *)
Theorem calculate_duration_sign dd dt ad at_ D A :
  parse_instant dd dt = Ok D -> parse_instant ad at_ = Ok A ->
  exists v,
    calculate_duration dd dt ad at_ = Ok v
    /\ (v < 0 <->
        dt_ordinal A < dt_ordinal D
        \/ (dt_ordinal A = dt_ordinal D /\ time_of_day A < time_of_day D))
    /\ (dt_ordinal A = dt_ordinal D -> time_of_day D <= time_of_day A ->
        v = 0).
Proof.
  intros HD HA. eexists. split.
  - apply (calculate_duration_value _ _ _ _ _ _ HD HA).
  - destruct (parse_instant_valid _ _ _ HD) as (_ & ? & ?).
    destruct (parse_instant_valid _ _ _ HA) as (_ & ? & ?).
    cbv zeta. unfold time_of_day.
    destruct (Z.ltb_spec (dt_ordinal A - dt_ordinal D) 0); split; lia.
Qed.

Lemma calculate_duration_sign_witness :
  exists v,
    calculate_duration (Some "01/06/2024") (Some "08:30")
                       (Some "01/06/2024") (Some "10:15") = Ok v
    /\ (v < 0 <->
        739038 < 739038 \/ (739038 = 739038 /\ 10 * 60 + 15 < 8 * 60 + 30))
    /\ (739038 = 739038 -> 8 * 60 + 30 <= 10 * 60 + 15 -> v = 0).
Proof.
  exact (calculate_duration_sign
           (Some "01/06/2024") (Some "08:30")
           (Some "01/06/2024") (Some "10:15")
           (mkDatetime 739038 8 30) (mkDatetime 739038 10 15)
           eq_refl eq_refl).
Defined.

Lemma calculate_total_time_parsed dd dt ad at_ D A :
  parse_instant dd dt = Ok D -> parse_instant ad at_ = Ok A ->
  calculate_total_time dd dt ad at_
  = Ok (instant_minutes A - instant_minutes D).
Proof.
  intros HD HA. unfold calculate_total_time. rewrite HD, HA. cbn [bind].
  rewrite minutes_between_minutes. reflexivity.
Qed.

(** X3: when the arrival date is not before the departure date,
    [calculate_duration] never exceeds [calculate_total_time], and the two
    agree exactly when the arrival clock time is not after the departure
    clock time. *)
Theorem calculate_duration_le_total_time dd dt ad at_ D A :
  parse_instant dd dt = Ok D -> parse_instant ad at_ = Ok A ->
  dt_ordinal D <= dt_ordinal A ->
  exists v total,
    calculate_duration dd dt ad at_ = Ok v
    /\ calculate_total_time dd dt ad at_ = Ok total
    /\ v <= total
    /\ (v = total <-> time_of_day A <= time_of_day D).
Proof.
  intros HD HA Hdays. do 2 eexists. split; [|split].
  - apply (calculate_duration_value _ _ _ _ _ _ HD HA).
  - apply (calculate_total_time_parsed _ _ _ _ _ _ HD HA).
  - cbv zeta. unfold instant_minutes, time_of_day.
    destruct (Z.ltb_spec (dt_ordinal A - dt_ordinal D) 0); split; lia.
Qed.

Lemma calculate_duration_le_total_time_witness :
  exists v total,
    calculate_duration (Some "01/06/2024") (Some "23:50")
                       (Some "02/06/2024") (Some "00:20") = Ok v
    /\ calculate_total_time (Some "01/06/2024") (Some "23:50")
                            (Some "02/06/2024") (Some "00:20") = Ok total
    /\ v <= total
    /\ (v = total <-> 0 * 60 + 20 <= 23 * 60 + 50).
Proof.
  apply (calculate_duration_le_total_time
           (Some "01/06/2024") (Some "23:50")
           (Some "02/06/2024") (Some "00:20")
           (mkDatetime 739038 23 50) (mkDatetime 739039 0 20)
           eq_refl eq_refl).
  cbn. lia.
Defined.

(** X4: [calculate_total_time] adds up over an intermediate instant, and is
    above zero exactly when the second instant is the later one. *)
Theorem calculate_total_time_chain d1 t1 d2 t2 d3 t3 I1 I2 I3 :
  parse_instant d1 t1 = Ok I1 -> parse_instant d2 t2 = Ok I2 ->
  parse_instant d3 t3 = Ok I3 ->
  exists a b c,
    calculate_total_time d1 t1 d2 t2 = Ok a
    /\ calculate_total_time d2 t2 d3 t3 = Ok b
    /\ calculate_total_time d1 t1 d3 t3 = Ok c
    /\ c = a + b
    /\ (0 < a <-> datetime_gt I2 I1 = true).
Proof.
  intros H1 H2 H3. do 3 eexists.
  split; [apply (calculate_total_time_parsed _ _ _ _ _ _ H1 H2)|].
  split; [apply (calculate_total_time_parsed _ _ _ _ _ _ H2 H3)|].
  split; [apply (calculate_total_time_parsed _ _ _ _ _ _ H1 H3)|].
  split; [lia|].
  rewrite datetime_gt_minutes by (eapply parse_instant_valid; eassumption).
  rewrite Z.ltb_lt. lia.
Qed.

Lemma calculate_total_time_chain_witness :
  exists a b c,
    calculate_total_time (Some "01/06/2024") (Some "08:30")
                         (Some "01/06/2024") (Some "10:15") = Ok a
    /\ calculate_total_time (Some "01/06/2024") (Some "10:15")
                            (Some "02/06/2024") (Some "00:20") = Ok b
    /\ calculate_total_time (Some "01/06/2024") (Some "08:30")
                            (Some "02/06/2024") (Some "00:20") = Ok c
    /\ c = a + b
    /\ (0 < a <->
        datetime_gt (mkDatetime 739038 10 15) (mkDatetime 739038 8 30) = true).
Proof.
  exact (calculate_total_time_chain
           (Some "01/06/2024") (Some "08:30")
           (Some "01/06/2024") (Some "10:15")
           (Some "02/06/2024") (Some "00:20")
           (mkDatetime 739038 8 30) (mkDatetime 739038 10 15)
           (mkDatetime 739039 0 20) eq_refl eq_refl eq_refl).
Defined.

(** ** The order of the query results *)

Lemma ascii_compare_N a b :
  Ascii.compare a b = N.compare (N_of_ascii a) (N_of_ascii b).
Proof. reflexivity. Qed.

Lemma string_compare_lt_trans s1 : forall s2 s3,
  String.compare s1 s2 = Lt -> String.compare s2 s3 = Lt ->
  String.compare s1 s3 = Lt.
Proof.
  induction s1 as [|a s1 IH]; intros [|b s2] [|c s3]; cbn;
    try discriminate; try reflexivity.
  rewrite !ascii_compare_N.
  destruct (N.compare_spec (N_of_ascii a) (N_of_ascii b)) as [Hab|Hab|Hab];
    destruct (N.compare_spec (N_of_ascii b) (N_of_ascii c)) as [Hbc|Hbc|Hbc];
    destruct (N.compare_spec (N_of_ascii a) (N_of_ascii c)) as [Hac|Hac|Hac];
    try discriminate; try reflexivity; try lia.
  apply IH.
Qed.

Lemma string_compare_refl s : String.compare s s = Eq.
Proof.
  induction s as [|a s IH]; cbn; [reflexivity|].
  rewrite ascii_compare_N, N.compare_refl. exact IH.
Qed.

Lemma key_compare_eq a b : Cypher.key_compare a b = Eq -> a = b.
Proof.
  destruct a, b; cbn; try discriminate; try reflexivity.
  intros H. apply String.compare_eq_iff in H. congruence.
Qed.

Lemma key_compare_refl a : Cypher.key_compare a a = Eq.
Proof. destruct a; cbn; [apply string_compare_refl | reflexivity]. Qed.

Lemma key_compare_antisym a b :
  Cypher.key_compare a b = CompOpp (Cypher.key_compare b a).
Proof.
  destruct a, b; cbn; try reflexivity. apply String.compare_antisym.
Qed.

Lemma key_compare_lt_trans a b c :
  Cypher.key_compare a b = Lt -> Cypher.key_compare b c = Lt ->
  Cypher.key_compare a c = Lt.
Proof.
  destruct a, b, c; cbn; try discriminate; try reflexivity.
  apply string_compare_lt_trans.
Qed.

Lemma key_le_trans a b c : key_le a b -> key_le b c -> key_le a c.
Proof.
  unfold key_le. intros Hab Hbc.
  destruct (Cypher.key_compare a b) eqn:Eab; [| |congruence].
  - apply key_compare_eq in Eab. subst. assumption.
  - destruct (Cypher.key_compare b c) eqn:Ebc; [| |congruence].
    + apply key_compare_eq in Ebc. subst. rewrite Eab. discriminate.
    + rewrite (key_compare_lt_trans _ _ _ Eab Ebc). discriminate.
Qed.

Lemma row_order_trans a b c : row_order a b -> row_order b c -> row_order a c.
Proof.
  unfold row_order, Cypher.row_le. intros Hab Hbc.
  destruct (Cypher.key_compare (datedepart a) (datedepart b)) eqn:Eab;
    [| |discriminate].
  - apply key_compare_eq in Eab. rewrite Eab.
    destruct (Cypher.key_compare (datedepart b) (datedepart c)) eqn:Ebc;
      [|reflexivity|discriminate].
    assert (H : key_le (hdepart a) (hdepart c)).
    { apply (key_le_trans _ (hdepart b)); unfold key_le.
      - destruct (Cypher.key_compare (hdepart a) (hdepart b)); congruence.
      - destruct (Cypher.key_compare (hdepart b) (hdepart c)); congruence. }
    unfold key_le in H.
    destruct (Cypher.key_compare (hdepart a) (hdepart c)); congruence.
  - destruct (Cypher.key_compare (datedepart b) (datedepart c)) eqn:Ebc;
      [| |discriminate].
    + apply key_compare_eq in Ebc. rewrite <- Ebc, Eab. reflexivity.
    + rewrite (key_compare_lt_trans _ _ _ Eab Ebc). reflexivity.
Qed.

Lemma row_order_total a b : row_order a b \/ row_order b a.
Proof.
  unfold row_order, Cypher.row_le.
  rewrite (key_compare_antisym (datedepart b) (datedepart a)).
  rewrite (key_compare_antisym (hdepart b) (hdepart a)).
  destruct (Cypher.key_compare (datedepart a) (datedepart b));
    destruct (Cypher.key_compare (hdepart a) (hdepart b)); cbn; auto.
Qed.

Lemma insert_row_sorted r rows :
  StronglySorted row_order rows ->
  StronglySorted row_order (Cypher.insert_row r rows).
Proof.
  induction 1 as [|x rows Hs IH Hx]; cbn.
  - constructor; constructor.
  - destruct (Cypher.row_le r x) eqn:E.
    + constructor; [constructor; assumption|].
      constructor; [exact E|].
      eapply List.Forall_impl; [|exact Hx].
      intros y Hy. eapply row_order_trans; [exact E | exact Hy].
    + constructor; [assumption|].
      rewrite List.Forall_forall. intros y Hy.
      apply insert_row_In in Hy. destruct Hy as [-> | Hy].
      * destruct (row_order_total x r) as [H | H]; [exact H|].
        unfold row_order in H. congruence.
      * rewrite List.Forall_forall in Hx. auto.
Qed.

Lemma order_by_sorted rows : StronglySorted row_order (Cypher.order_by rows).
Proof.
  unfold Cypher.order_by. induction rows as [|r rows IH]; cbn.
  - constructor.
  - apply insert_row_sorted. assumption.
Qed.

Lemma filter_sorted {A : Type} (R : A -> A -> Prop) (P : A -> bool) l :
  StronglySorted R l -> StronglySorted R (List.filter P l).
Proof.
  induction 1 as [|x l Hs IH Hx]; cbn; [constructor|].
  destruct (P x); [|assumption].
  constructor; [assumption|].
  rewrite List.Forall_forall in *. intros y Hy.
  apply filter_In in Hy. apply Hx. tauto.
Qed.

Lemma departing_records_sorted graph nm dd dt :
  StronglySorted row_order (departing_records graph nm dd dt).
Proof.
  unfold departing_records, neighbors_query.
  apply filter_sorted, order_by_sorted.
Qed.

(** ** get_premiernodes *)

Lemma premier_query_In graph nm d t r :
  In r (premier_query graph nm (Some d) (Some t)) <->
  In r graph /\ origin_nom r = nm /\ datedepart r = Some d
  /\ exists t', hdepart r = Some t' /\ String.leb t t' = true.
Proof.
  unfold premier_query.
  rewrite order_by_In, filter_In, andb_true_iff, String.eqb_eq.
  split.
  - intros (Hin & Hnm & Hw). repeat split; try assumption;
      destruct (datedepart r) as [d'|], (hdepart r) as [t'|]; cbn in Hw;
      repeat match type of Hw with
      | context [String.eqb ?a ?b] => destruct (String.eqb_spec a b)
      | context [String.leb ?a ?b] => destruct (String.leb a b) eqn:?
      end; try discriminate; subst; eauto.
  - intros (Hin & Hnm & Hd & t' & Ht & Hle). repeat split; try assumption.
    rewrite Hd, Ht. cbn. rewrite String.eqb_refl, Hle. reflexivity.
Qed.

Lemma premier_nodes_of_spec records : forall fresh,
  Forall2 premier_node_of (premier_nodes_of fresh records)
          (List.filter (fun r => negb (incomplete r)) records)
  /\ map oid (premier_nodes_of fresh records)
     = seq fresh (length (premier_nodes_of fresh records)).
Proof.
  induction records as [|r records IH]; intros fresh; cbn.
  - split; [constructor | reflexivity].
  - destruct (incomplete r); cbn; [apply IH|].
    destruct (IH (S fresh)) as [Hall Hoid]. split.
    + constructor; [reflexivity | assumption].
    + f_equal. assumption.
Qed.

Lemma Forall2_sorted {A B : Type} (R : A -> B -> Prop)
    (SA : A -> A -> Prop) (SB : B -> B -> Prop) l1 l2 :
  (forall a b a' b', R a a' -> R b b' -> SB a' b' -> SA a b) ->
  Forall2 R l1 l2 -> StronglySorted SB l2 -> StronglySorted SA l1.
Proof.
  intros Hmap H. induction H as [|a a' l1 l2 Ha Hl IH]; intros Hs.
  - constructor.
  - apply StronglySorted_inv in Hs. destruct Hs as [Hs Hhd].
    constructor; [auto|].
    clear IH Hs. induction Hl as [|b b' l1 l2 Hb Hl IH]; [constructor|].
    apply List.Forall_cons_iff in Hhd. destruct Hhd as [Hab Hhd].
    constructor; [eapply Hmap; eassumption | auto].
Qed.

Lemma Forall2_In_l {A B : Type} (R : A -> B -> Prop) l1 l2 a :
  Forall2 R l1 l2 -> In a l1 -> exists b, In b l2 /\ R a b.
Proof.
  induction 1 as [|x y l1 l2 Hxy _ IH]; intros Hin; [destruct Hin|].
  destruct Hin as [<- | Hin].
  - exists y. split; [left; reflexivity | assumption].
  - destruct (IH Hin) as (b & Hb & Hab). exists b. split; [right|]; assumption.
Qed.

Lemma Forall2_In_r {A B : Type} (R : A -> B -> Prop) l1 l2 b :
  Forall2 R l1 l2 -> In b l2 -> exists a, In a l1 /\ R a b.
Proof.
  induction 1 as [|x y l1 l2 Hxy _ IH]; intros Hin; [destruct Hin|].
  destruct Hin as [<- | Hin].
  - exists x. split; [left; reflexivity | assumption].
  - destruct (IH Hin) as (a & Ha & Hab). exists a. split; [right|]; assumption.
Qed.

Lemma get_premiernodes_complete graph fresh nm d t r :
  In r graph -> origin_nom r = nm -> incomplete r = false ->
  datedepart r = Some d ->
  (exists t', hdepart r = Some t' /\ String.leb t t' = true) ->
  exists n,
    In n (get_premiernodes graph fresh nm (Some d) (Some t))
    /\ premier_node_of n r.
Proof.
  intros Hin Hnm Hc Hd Ht. unfold get_premiernodes.
  destruct (premier_nodes_of_spec (premier_query graph nm (Some d) (Some t)) fresh)
    as [Hall _].
  apply (Forall2_In_r _ _ _ r Hall).
  apply filter_In. split; [|rewrite Hc; reflexivity].
  apply premier_query_In. tauto.
Qed.

(** X5: the first trains of a station on a date, from a time on.  Every
    node carries the station's name, that very date, a departure time not
    below the given one (as texts) and an arrival date and time; every
    complete record of the store that fits gives a node; the nodes come in
    ascending order of their departure time, as new objects numbered from
    [fresh]. *)
Theorem get_premiernodes_selection graph fresh nm d t :
  let nodes := get_premiernodes graph fresh nm (Some d) (Some t) in
  (forall n, In n nodes ->
     name n = nm /\ departure_date n = Some d
     /\ (exists t', departure_time n = Some t' /\ String.leb t t' = true)
     /\ is_Some (arrival_date n) /\ is_Some (arrival_time n)
     /\ parent n = None /\ distance n = Infinity)
  /\ (forall r, In r graph -> origin_nom r = nm -> incomplete r = false ->
        datedepart r = Some d ->
        (exists t', hdepart r = Some t' /\ String.leb t t' = true) ->
        exists n, In n nodes /\ premier_node_of n r)
  /\ StronglySorted
       (fun a b => key_le (departure_time a) (departure_time b)) nodes
  /\ map oid nodes = seq fresh (length nodes).
Proof.
  cbv zeta. unfold get_premiernodes.
  destruct (premier_nodes_of_spec (premier_query graph nm (Some d) (Some t)) fresh)
    as [Hall Hoid].
  repeat split.
  - destruct (Forall2_In_l _ _ _ n Hall H) as (r & Hr & ->).
    apply filter_In in Hr. destruct Hr as [Hr _].
    apply premier_query_In in Hr. tauto.
  - destruct (Forall2_In_l _ _ _ n Hall H) as (r & Hr & ->).
    apply filter_In in Hr. destruct Hr as [Hr _].
    apply premier_query_In in Hr. tauto.
  - destruct (Forall2_In_l _ _ _ n Hall H) as (r & Hr & ->).
    apply filter_In in Hr. destruct Hr as [Hr _].
    apply premier_query_In in Hr. cbn. tauto.
  - destruct (Forall2_In_l _ _ _ n Hall H) as (r & Hr & ->).
    apply filter_In in Hr. destruct Hr as [_ Hc]. cbn.
    unfold incomplete in Hc.
    destruct (datedepart r), (hdepart r), (datearrive r), (harrive r);
      try discriminate; eauto.
  - destruct (Forall2_In_l _ _ _ n Hall H) as (r & Hr & ->).
    apply filter_In in Hr. destruct Hr as [_ Hc]. cbn.
    unfold incomplete in Hc.
    destruct (datedepart r), (hdepart r), (datearrive r), (harrive r);
      try discriminate; eauto.
  - destruct (Forall2_In_l _ _ _ n Hall H) as (r & Hr & ->). reflexivity.
  - destruct (Forall2_In_l _ _ _ n Hall H) as (r & Hr & ->). reflexivity.
  - intros r Hin Hnm Hc Hd Ht.
    apply get_premiernodes_complete; assumption.
  - eapply (Forall2_sorted premier_node_of _
              (fun a b => row_order a b /\ datedepart a = datedepart b));
      [|exact Hall|].
    + intros a b ra rb -> -> [Hord Hsame]. cbn.
      unfold row_order, Cypher.row_le in Hord. rewrite Hsame in Hord.
      rewrite key_compare_refl in Hord. unfold key_le.
      destruct (Cypher.key_compare (hdepart ra) (hdepart rb)); congruence.
    + assert (Hs : StronglySorted row_order
                (List.filter (fun r => negb (incomplete r))
                   (premier_query graph nm (Some d) (Some t))))
        by (apply filter_sorted, order_by_sorted).
      assert (Hd : Forall (fun r => datedepart r = Some d)
                (List.filter (fun r => negb (incomplete r))
                   (premier_query graph nm (Some d) (Some t)))).
      { rewrite List.Forall_forall. intros r Hr. apply filter_In in Hr.
        destruct Hr as [Hr _]. apply premier_query_In in Hr. tauto. }
      revert Hs Hd. generalize (List.filter (fun r => negb (incomplete r))
                                  (premier_query graph nm (Some d) (Some t))).
      induction l as [|x l IH]; intros Hs Hd; [constructor|].
      apply StronglySorted_inv in Hs. destruct Hs as [Hs Hx].
      apply List.Forall_cons_iff in Hd. destruct Hd as [Hxd Hd].
      constructor; [auto|].
      rewrite List.Forall_forall in *. intros y Hy.
      split; [auto | rewrite Hxd, (Hd y Hy); reflexivity].
  - exact Hoid.
Qed.

(** ** get_neighbors *)

Lemma neighbors_of_pairs records : forall fresh dd dt t0 ys,
  parse_instant dd dt = Ok t0 ->
  neighbors_of fresh dd dt records = Ok ys ->
  Forall2 (yielded_pair dd dt) ys
          (List.filter (departs_after t0)
             (List.filter (fun r => negb (incomplete r)) records)).
Proof.
  induction records as [|r records IH]; intros fresh dd dt t0 ys Ht0 Hn.
  - cbn in Hn. injection Hn as <-. constructor.
  - cbn [neighbors_of] in Hn. cbn [List.filter].
    destruct (incomplete r) eqn:Einc; cbn [negb]; [eapply IH; eassumption|].
    cbn [List.filter]. unfold departs_after at 1.
    cbn [departure_date departure_time arrival_date arrival_time new_Node] in Hn.
    destruct (parse_instant (datedepart r) (hdepart r)) as [t|]; [|discriminate].
    rewrite Ht0 in Hn. cbn [bind] in Hn.
    destruct (datetime_gt t t0); [|eapply IH; eassumption].
    destruct (calculate_duration _ _ _ _) as [nd|] eqn:Ed; [|discriminate].
    cbn [bind] in Hn.
    destruct (neighbors_of (S fresh) dd dt records) as [others|] eqn:Eo;
      [|discriminate].
    cbn [bind] in Hn. injection Hn as <-.
    constructor; [|eapply IH; eassumption].
    split; [reflexivity | exact Ed].
Qed.

(** X6: what [get_neighbors] yields, called with an instant that parses:
    one pair, in order, for each complete record kept by the query whose
    departure instant is strictly after the instant of the call, and no
    other; the records come in ascending order of date text, then time
    text. *)
Theorem get_neighbors_yields graph fresh nm dd dt t0 ys :
  parse_instant dd dt = Ok t0 ->
  get_neighbors graph fresh nm dd dt = Ok ys ->
  let later :=
    List.filter (departs_after t0) (departing_records graph nm dd dt) in
  Forall2 (yielded_pair dd dt) ys later
  /\ StronglySorted row_order later
  /\ forall r, In r later ->
       In r graph /\ origin_nom r = nm
       /\ exists t, parse_instant (datedepart r) (hdepart r) = Ok t
                    /\ datetime_gt t t0 = true.
Proof.
  intros Ht0 Hg. cbv zeta. split; [|split].
  - unfold get_neighbors in Hg. unfold departing_records.
    eapply neighbors_of_pairs; eassumption.
  - apply filter_sorted, departing_records_sorted.
  - intros r Hr. apply filter_In in Hr. destruct Hr as [Hr Hlater].
    unfold departing_records in Hr. apply filter_In in Hr. destruct Hr as [Hr _].
    pose proof (neighbors_query_In _ _ _ _ _ Hr) as Hin.
    unfold neighbors_query in Hr. rewrite order_by_In, filter_In in Hr.
    destruct Hr as (_ & Hw). apply andb_true_iff in Hw. destruct Hw as [Hnm _].
    apply String.eqb_eq in Hnm. repeat split; try assumption.
    unfold departs_after in Hlater.
    destruct (parse_instant (datedepart r) (hdepart r)) as [t|]; [|discriminate].
    eauto.
Qed.

Lemma get_neighbors_yields_witness :
  let later :=
    List.filter (departs_after (mkDatetime 739038 7 0))
      (departing_records Examples.missed_connection "A"
         Examples.day1 (Some "07:00")) in
  Forall2 (yielded_pair Examples.day1 (Some "07:00"))
    [(new_Node 5 "B" Examples.day1 (Some "08:00")
               Examples.day1 (Some "10:00") (Some "8004"), 0)]
    later
  /\ StronglySorted row_order later
  /\ forall r, In r later ->
       In r Examples.missed_connection /\ origin_nom r = "A"
       /\ exists t, parse_instant (datedepart r) (hdepart r) = Ok t
                    /\ datetime_gt t (mkDatetime 739038 7 0) = true.
Proof.
  exact (get_neighbors_yields Examples.missed_connection 5 "A"
           Examples.day1 (Some "07:00") (mkDatetime 739038 7 0) _
           eq_refl eq_refl).
Defined.

(** ** The frontier of dijkstra *)

Lemma relax_exact current_node closed open y :
  node_in (fst y) open = false ->
  distance (fst y) = Infinity ->
  (exists z, distance current_node = Finite z) ->
  relax current_node closed open y
  = (open ++ if bool_decide (name (fst y) ∈ closed) then []
             else [enter current_node y])%list.
Proof.
  intros Hnew Hinf [z Hz]. destruct y as [nb d]. cbn [fst snd] in *.
  unfold relax, enter. cbn [fst snd].
  destruct (bool_decide _); [rewrite app_nil_r; reflexivity|].
  rewrite Hinf, Hz. cbn [dist_add dist_lt].
  assert (Hnew' : node_in (set_parent_distance nb current_node (Finite (z + d)))
                    open = false).
  { unfold node_in in *. rewrite oid_set_parent_distance. exact Hnew. }
  rewrite Hnew'. reflexivity.
Qed.

Lemma fold_relax_exact current_node closed : forall ys open,
  List.NoDup (map (fun y => oid (fst y)) ys) ->
  (forall y x, In y ys -> In x open -> oid x <> oid (fst y)) ->
  (forall y, In y ys -> distance (fst y) = Infinity) ->
  (exists z, distance current_node = Finite z) ->
  fold_left (relax current_node closed) ys open
  = (open ++ map (enter current_node)
               (List.filter
                  (fun y => negb (bool_decide (name (fst y) ∈ closed))) ys))%list.
Proof.
  induction ys as [|y ys IH]; intros open Hnd Hnew Hinf Hfin.
  - cbn. rewrite app_nil_r. reflexivity.
  - cbn [fold_left List.filter]. cbn in Hnd.
    apply List.NoDup_cons_iff in Hnd. destruct Hnd as [Hhead Hnd].
    rewrite relax_exact; try assumption.
    + rewrite IH; try assumption.
      * destruct (bool_decide _); cbn [negb map];
          rewrite <- app_assoc; reflexivity.
      * intros y' x Hy' Hx. apply in_app_iff in Hx. destruct Hx as [Hx | Hx].
        -- apply Hnew; [right; assumption | assumption].
        -- destruct (bool_decide _); [destruct Hx|].
           destruct Hx as [<- | []]. unfold enter.
           rewrite oid_set_parent_distance. intros Heq. apply Hhead.
           apply in_map_iff. exists y'. split; [symmetry|]; assumption.
      * intros y' Hy'. apply Hinf. right. assumption.
    + apply node_in_false. intros x Hx. apply Hnew; [left; reflexivity | assumption].
    + apply Hinf. left. reflexivity.
Qed.

Lemma neighbors_of_costs records : forall fresh dd dt ys,
  neighbors_of fresh dd dt records = Ok ys ->
  Forall (fun y =>
            calculate_duration dd dt (arrival_date (fst y))
                               (arrival_time (fst y)) = Ok (snd y)
            /\ parent (fst y) = None) ys.
Proof.
  induction records as [|r records IH]; intros fresh dd dt ys Hn.
  - cbn in Hn. injection Hn as <-. constructor.
  - cbn [neighbors_of] in Hn.
    destruct (incomplete r); [eapply IH; eassumption|].
    destruct (parse_instant _ _) as [t|]; [|discriminate]. cbn [bind] in Hn.
    destruct (parse_instant dd dt) as [t0|]; [|discriminate]. cbn [bind] in Hn.
    destruct (datetime_gt t t0); [|eapply IH; eassumption].
    destruct (calculate_duration _ _ _ _) as [nd|] eqn:Ed; [|discriminate].
    cbn [bind] in Hn.
    destruct (neighbors_of (S fresh) dd dt records) as [others|] eqn:Eo;
      [|discriminate].
    cbn [bind] in Hn. injection Hn as <-.
    constructor; [|eapply IH; eassumption].
    split; [exact Ed | reflexivity].
Qed.

Lemma dijkstra_step_exact graph goal st st' :
  distinct_objects st ->
  (forall n, In n (open_set st) -> exists z, distance n = Finite z) ->
  dijkstra_step graph goal st = Continue st' ->
  exists current_node ys,
    In current_node (open_set st)
    /\ name current_node <> goal
    /\ (forall n, In n (open_set st) ->
          dist_lt (distance n) (distance current_node) = false)
    /\ get_neighbors graph (next_oid st) (name current_node)
         (departure_date current_node) (departure_time current_node) = Ok ys
    /\ closed_set st' = closed_set st ∪ {[ name current_node ]}
    /\ open_set st'
       = (remove_node current_node (open_set st)
          ++ map (enter current_node)
               (List.filter
                  (fun y => negb (bool_decide (name (fst y) ∈ closed_set st')))
                  ys))%list.
Proof.
  intros [Hnd Hold] Hfin Hstep. unfold dijkstra_step in Hstep.
  destruct (open_set st) as [|first others] eqn:Eo; [discriminate|].
  set (cur := min_node first others) in *.
  assert (Hcur : In cur (first :: others)) by apply min_node_In.
  destruct (String.eqb_spec (name cur) goal) as [Hg | Hg]; [discriminate|].
  destruct (get_neighbors _ _ _ _ _) as [ys|] eqn:Eg; [|discriminate].
  injection Hstep as <-. cbn [open_set closed_set].
  exists cur, ys. repeat split; try assumption.
  - intros n Hn. subst cur. clear - Hn.
    assert (Hmin : forall l best n,
              In n (best :: l) ->
              dist_lt (distance n) (distance (min_node best l)) = false).
    { assert (Htrans : forall a b c, dist_lt a b = false -> dist_lt b c = false
                                     -> dist_lt a c = false).
      { intros [x|] [y|] [z|]; cbn; try discriminate; try reflexivity;
          rewrite !Z.ltb_ge; lia. }
      assert (Hrefl : forall a, dist_lt a a = false)
        by (intros [x|]; cbn; [apply Z.ltb_irrefl | reflexivity]).
      assert (Hbest : forall l best,
                dist_lt (distance best) (distance (min_node best l)) = false).
      { induction l as [|x l IH]; intros best; cbn; [apply Hrefl|].
        destruct (dist_lt (distance x) (distance best)) eqn:E; [|apply IH].
        apply (Htrans _ (distance x)); [|apply IH].
        destruct (distance best) as [b|], (distance x) as [c|]; cbn in *;
          try discriminate; try reflexivity.
        rewrite Z.ltb_lt in E. rewrite Z.ltb_ge. lia. }
      induction l as [|x l IH]; intros best m [<- | Hm].
      - apply Hbest.
      - destruct Hm.
      - apply Hbest.
      - cbn. destruct (dist_lt (distance x) (distance best)) eqn:E.
        + apply IH. assumption.
        + destruct Hm as [<- | Hm].
          * apply (Htrans _ (distance best)); [exact E | apply Hbest].
          * apply IH. right. assumption. }
    apply Hmin. assumption.
  - unfold get_neighbors in Eg.
    pose proof (neighbors_of_yields _ _ _ _ _ Eg) as Hy. cbv zeta in Hy.
    destruct Hy as (Hall & Hndys & _). rewrite List.Forall_forall in Hall.
    change (if Nat.eqb (oid first) (oid cur)
            then others else first :: remove_node cur others)
      with (remove_node cur (first :: others)).
    apply fold_relax_exact.
    + assumption.
    + intros y x Hy Hx. apply remove_node_In in Hx.
      specialize (Hold x Hx). destruct (Hall y Hy) as (Ho & _). lia.
    + intros y Hy. apply (Hall y Hy).
    + apply Hfin. assumption.
Qed.

(** X7: a turn of the loop that goes on, on a frontier of distinct objects
    with finite distances: the node taken out is the only one that leaves,
    no node that stays is changed, and the nodes that come in are, in the
    order yielded, those of the yielded trains whose station is not closed,
    each with the expanded node as parent and its distance plus the yielded
    one as distance. *)
Theorem dijkstra_step_frontier graph goal st st' :
  distinct_objects st ->
  (forall n, In n (open_set st) -> exists z, distance n = Finite z) ->
  dijkstra_step graph goal st = Continue st' ->
  exists current_node ys,
    In current_node (open_set st)
    /\ name current_node <> goal
    /\ (forall n, In n (open_set st) ->
          dist_lt (distance n) (distance current_node) = false)
    /\ get_neighbors graph (next_oid st) (name current_node)
         (departure_date current_node) (departure_time current_node) = Ok ys
    /\ closed_set st' = closed_set st ∪ {[ name current_node ]}
    /\ open_set st'
       = (remove_node current_node (open_set st)
          ++ map (enter current_node)
               (List.filter
                  (fun y => negb (bool_decide (name (fst y) ∈ closed_set st')))
                  ys))%list.
Proof. apply dijkstra_step_exact. Qed.

Lemma dijkstra_step_frontier_witness :
  let st := initial_state 0 "A" Examples.day1 (Some "22:00")
                          Examples.day1 (Some "22:00") in
  exists st',
    dijkstra_step Examples.two_trains "C" st = Continue st'
    /\ exists current_node ys,
         In current_node (open_set st)
         /\ name current_node <> "C"
         /\ (forall n, In n (open_set st) ->
               dist_lt (distance n) (distance current_node) = false)
         /\ get_neighbors Examples.two_trains (next_oid st) (name current_node)
              (departure_date current_node) (departure_time current_node)
            = Ok ys
         /\ closed_set st' = closed_set st ∪ {[ name current_node ]}
         /\ open_set st'
            = (remove_node current_node (open_set st)
               ++ map (enter current_node)
                    (List.filter
                       (fun y => negb (bool_decide
                                         (name (fst y) ∈ closed_set st')))
                       ys))%list.
Proof.
  cbv zeta. eexists. split; [vm_compute; reflexivity|].
  apply (dijkstra_step_frontier Examples.two_trains "C"
           (initial_state 0 "A" Examples.day1 (Some "22:00")
                          Examples.day1 (Some "22:00"))).
  - apply initial_state_distinct.
  - intros n [<- | []]. exists 0. reflexivity.
  - vm_compute. reflexivity.
Defined.

(** ** The path dijkstra returns *)

Lemma parents_of_ancestors n : parents_of n = n :: ancestors n.
Proof. destruct n as [i nm [q|] dist dd dt ad at_ tn]; reflexivity. Qed.

Lemma enter_fields current_node y :
  name (enter current_node y) = name (fst y)
  /\ parent (enter current_node y) = Some current_node
  /\ arrival_date (enter current_node y) = arrival_date (fst y)
  /\ arrival_time (enter current_node y) = arrival_time (fst y)
  /\ distance (enter current_node y)
     = dist_add (distance current_node) (Finite (snd y)).
Proof. destruct y as [[i nm p dist dd dt ad at_ tn] d]. repeat split. Qed.

Lemma cost_chain_unfold root n :
  cost_chain root n
  <-> match parent n with
      | None => n = root
      | Some q =>
          (exists d,
             calculate_duration (departure_date q) (departure_time q)
                                (arrival_date n) (arrival_time n) = Ok d
             /\ distance n = dist_add (distance q) (Finite d))
          /\ cost_chain root q
      end.
Proof. destruct n as [i nm [q|] dist dd dt ad at_ tn]; reflexivity. Qed.

Lemma search_invariant_step root graph goal st st' :
  search_invariant root st ->
  dijkstra_step graph goal st = Continue st' ->
  search_invariant root st'.
Proof.
  intros [Hdist Hnodes] Hstep.
  destruct (dijkstra_step_decreases graph goal st st' Hdist Hstep)
    as (_ & Hdist' & _).
  destruct (dijkstra_step_exact graph goal st st' Hdist
              (fun n Hn => proj1 (Hnodes n Hn)) Hstep)
    as (cur & ys & Hcur & _ & _ & Hg & Hclosed & Hopen).
  split; [assumption|].
  destruct (Hnodes cur Hcur) as (Hfin & Hchain & Hnames & Hanc).
  intros n Hn. rewrite Hopen in Hn. apply in_app_iff in Hn.
  destruct Hn as [Hn | Hn].
  - apply remove_node_In in Hn.
    destruct (Hnodes n Hn) as (Hf & Hc & Hnd & Ha).
    repeat split; try assumption.
    intros a Ha'. rewrite Hclosed. apply elem_of_union_l. auto.
  - apply in_map_iff in Hn. destruct Hn as (y & <- & Hy).
    apply filter_In in Hy. destruct Hy as [Hy Hopen'].
    apply negb_true_iff, bool_decide_eq_false in Hopen'.
    unfold get_neighbors in Hg. pose proof (neighbors_of_costs _ _ _ _ _ Hg) as Hc.
    rewrite List.Forall_forall in Hc. destruct (Hc y Hy) as [Hcost _].
    destruct (enter_fields cur y) as (En & Ep & Ead & Eat & Ed).
    assert (Hcur_closed : forall a, In a (parents_of cur) ->
                                    name a ∈ closed_set st').
    { intros a Ha. rewrite parents_of_ancestors in Ha. rewrite Hclosed.
      destruct Ha as [<- | Ha].
      - apply elem_of_union_r, elem_of_singleton. reflexivity.
      - apply elem_of_union_l. auto. }
    repeat split.
    + destruct Hfin as [z Hz]. rewrite Ed, Hz. cbn. eauto.
    + apply cost_chain_unfold. rewrite Ep, Ead, Eat. split; [|assumption].
      exists (snd y). split; assumption.
    + rewrite parents_of_ancestors. unfold ancestors. rewrite Ep. cbn [map].
      constructor; [|assumption].
      rewrite En. intros Hin. apply in_map_iff in Hin.
      destruct Hin as (a & Ha & Hin). apply Hopen'. rewrite <- Ha. auto.
    + unfold ancestors. rewrite Ep. assumption.
Qed.

Lemma dijkstra_loop_path root graph goal : forall fuel st p sent,
  search_invariant root st ->
  dijkstra_loop fuel graph goal st = Some (Ok (Some p), sent) ->
  exists g,
    p = rev (parents_of g) /\ name g = goal
    /\ (exists z, distance g = Finite z)
    /\ cost_chain root g
    /\ List.NoDup (map name (parents_of g)).
Proof.
  induction fuel as [|fuel IH]; intros st p sent Hinv Hrun; [discriminate|].
  cbn [dijkstra_loop] in Hrun.
  destruct (dijkstra_step graph goal st) as [path sent' | e sent' | st'] eqn:Es.
  - injection Hrun as -> ->. unfold dijkstra_step in Es.
    destruct (open_set st) as [|first others] eqn:Eo; [discriminate|].
    pose proof (min_node_In others first) as Hcur. rewrite <- Eo in Hcur.
    destruct (String.eqb_spec (name (min_node first others)) goal) as [Hg | Hg].
    + injection Es as <- _. exists (min_node first others).
      destruct Hinv as [_ Hnodes].
      destruct (Hnodes _ Hcur) as (Hf & Hc & Hnd & _). auto.
    + destruct (get_neighbors _ _ _ _ _); discriminate.
  - discriminate.
  - eapply IH; [|exact Hrun]. eapply search_invariant_step; eassumption.
Qed.

Lemma initial_state_invariant fresh nm dd dt ad at_ :
  search_invariant (start_node fresh nm dd dt ad at_)
                   (initial_state fresh nm dd dt ad at_).
Proof.
  split; [apply initial_state_distinct|].
  intros n [<- | []]. repeat split.
  - exists 0. reflexivity.
  - cbn. constructor; [intros [] | constructor].
  - intros a [].
Qed.

Lemma legs_total_cons a b rest :
  legs_total (a :: b :: rest)
  = (d <- calculate_duration (departure_date a) (departure_time a)
                             (arrival_date b) (arrival_time b) ;;
     total <- legs_total (b :: rest) ;;
     Ok (d + total)).
Proof. reflexivity. Qed.

Lemma legs_total_snoc l : forall q g t d,
  legs_total (l ++ [q]) = Ok t ->
  calculate_duration (departure_date q) (departure_time q)
                     (arrival_date g) (arrival_time g) = Ok d ->
  legs_total (l ++ [q; g]) = Ok (t + d).
Proof.
  induction l as [|a l IH]; intros q g t d Ht Hd.
  - cbn in Ht. injection Ht as <-. cbn [app]. rewrite legs_total_cons, Hd.
    cbn. f_equal. lia.
  - assert (Hshape : forall tl, exists b rest, (l ++ q :: tl)%list = b :: rest).
    { intros tl. destruct l; cbn; eauto. }
    destruct (Hshape []) as (b & rest & E1).
    destruct (Hshape [g]) as (b' & rest' & E2).
    assert (Hb : b' = b) by (destruct l; cbn in E1, E2; congruence).
    subst b'.
    cbn [app] in *. rewrite E1 in Ht. rewrite E2.
    rewrite legs_total_cons in *.
    destruct (calculate_duration _ _ (arrival_date b) _) as [d1|];
      [|discriminate].
    cbn [bind] in *. rewrite <- E1 in Ht. rewrite <- E2.
    destruct (legs_total (l ++ [q])) as [t1|] eqn:Et; [|discriminate].
    cbn [bind] in Ht. injection Ht as Ht. subst t.
    rewrite (IH q g t1 d Et Hd). cbn [bind]. f_equal. lia.
Qed.

(** The distance at the end of a chain is the sum over its legs. *)
Lemma cost_chain_total root :
  parent root = None -> distance root = Finite 0 ->
  forall g, cost_chain root g ->
    exists front total,
      rev (parents_of g) = (front ++ [g])%list
      /\ hd_error (rev (parents_of g)) = Some root
      /\ legs_total (rev (parents_of g)) = Ok total
      /\ distance g = Finite total.
Proof.
  intros Hroot_parent Hroot_dist.
  induction g as [g Hp | g q Hp IH] using Node_parent_ind; intros Hchain.
  - apply cost_chain_unfold in Hchain. rewrite Hp in Hchain. subst g.
    rewrite parents_of_ancestors. unfold ancestors. rewrite Hp. cbn.
    exists [], 0. auto.
  - apply cost_chain_unfold in Hchain. rewrite Hp in Hchain.
    destruct Hchain as [(d & Hd & Hdist) Hq].
    destruct (IH Hq) as (front & total & Hrev & Hhd & Hlegs & Hqd).
    rewrite parents_of_ancestors. unfold ancestors. rewrite Hp.
    cbn [rev]. rewrite Hrev in *.
    exists (front ++ [q])%list, (total + d). repeat split.
    + destruct front; cbn in *; assumption.
    + rewrite <- app_assoc. cbn [app]. apply legs_total_snoc; assumption.
    + rewrite Hdist, Hqd. reflexivity.
Qed.

(** X8: a path that [dijkstra] returns starts with the start node and ends
    with a node of the goal station; it follows the parent links of that
    node; and the distance of that node is the sum of [calculate_duration]
    over the legs of the path, each from the departure instant one node
    carries to the arrival instant the next one carries. *)
Theorem dijkstra_path_cost fuel fresh start goal dd dt ad at_ graph p sent :
  dijkstra fuel fresh start goal dd dt ad at_ graph = Some (Ok (Some p), sent) ->
  exists front g total,
    p = (front ++ [g])%list
    /\ p = rev (parents_of g)
    /\ hd_error p = Some (start_node fresh start dd dt ad at_)
    /\ name g = goal
    /\ legs_total p = Ok total
    /\ distance g = Finite total.
Proof.
  intros Hrun. unfold dijkstra in Hrun.
  destruct (dijkstra_loop_path _ _ _ _ _ _ _
              (initial_state_invariant fresh start dd dt ad at_) Hrun)
    as (g & -> & Hgoal & _ & Hchain & _).
  destruct (cost_chain_total (start_node fresh start dd dt ad at_)
              eq_refl eq_refl g Hchain)
    as (front & total & Hrev & Hhd & Hlegs & Hd).
  exists front, g, total. auto 6.
Qed.

Lemma dijkstra_path_cost_witness :
  exists front g total,
    [ start_node 0 "A" Examples.day1 (Some "22:00") Examples.day1 (Some "22:00");
      mkNode 2 "B"
        (Some (start_node 0 "A" Examples.day1 (Some "22:00")
                          Examples.day1 (Some "22:00")))
        (Finite 420) Examples.day1 (Some "23:30")
        Examples.day2 (Some "05:00") (Some "8007") ]
    = (front ++ [g])%list
    /\ [ start_node 0 "A" Examples.day1 (Some "22:00")
                    Examples.day1 (Some "22:00");
         mkNode 2 "B"
           (Some (start_node 0 "A" Examples.day1 (Some "22:00")
                             Examples.day1 (Some "22:00")))
           (Finite 420) Examples.day1 (Some "23:30")
           Examples.day2 (Some "05:00") (Some "8007") ]
       = rev (parents_of g)
    /\ hd_error
         [ start_node 0 "A" Examples.day1 (Some "22:00")
                      Examples.day1 (Some "22:00");
           mkNode 2 "B"
             (Some (start_node 0 "A" Examples.day1 (Some "22:00")
                               Examples.day1 (Some "22:00")))
             (Finite 420) Examples.day1 (Some "23:30")
             Examples.day2 (Some "05:00") (Some "8007") ]
       = Some (start_node 0 "A" Examples.day1 (Some "22:00")
                          Examples.day1 (Some "22:00"))
    /\ name g = "B"
    /\ legs_total
         [ start_node 0 "A" Examples.day1 (Some "22:00")
                      Examples.day1 (Some "22:00");
           mkNode 2 "B"
             (Some (start_node 0 "A" Examples.day1 (Some "22:00")
                               Examples.day1 (Some "22:00")))
             (Finite 420) Examples.day1 (Some "23:30")
             Examples.day2 (Some "05:00") (Some "8007") ]
       = Ok total
    /\ distance g = Finite total.
Proof.
  apply (dijkstra_path_cost 2 0 "A" "B" Examples.day1 (Some "22:00")
           Examples.day1 (Some "22:00") Examples.two_trains _
           [("A", Examples.day1, Some "22:00")]).
  vm_compute. reflexivity.
Defined.

(** X9: a path that [dijkstra] returns goes through no station twice. *)
Theorem dijkstra_path_stations_distinct
    fuel fresh start goal dd dt ad at_ graph p sent :
  dijkstra fuel fresh start goal dd dt ad at_ graph = Some (Ok (Some p), sent) ->
  List.NoDup (map name p).
Proof.
  intros Hrun. unfold dijkstra in Hrun.
  destruct (dijkstra_loop_path _ _ _ _ _ _ _
              (initial_state_invariant fresh start dd dt ad at_) Hrun)
    as (g & -> & _ & _ & _ & Hnd).
  rewrite map_rev. apply List.NoDup_rev. assumption.
Qed.

Lemma dijkstra_path_stations_distinct_witness :
  List.NoDup
    (map name
       [ start_node 0 "A" Examples.day1 (Some "22:00")
                    Examples.day1 (Some "22:00");
         mkNode 2 "B"
           (Some (start_node 0 "A" Examples.day1 (Some "22:00")
                             Examples.day1 (Some "22:00")))
           (Finite 420) Examples.day1 (Some "23:30")
           Examples.day2 (Some "05:00") (Some "8007") ]).
Proof.
  apply (dijkstra_path_stations_distinct 2 0 "A" "B"
           Examples.day1 (Some "22:00") Examples.day1 (Some "22:00")
           Examples.two_trains _ [("A", Examples.day1, Some "22:00")]).
  vm_compute. reflexivity.
Defined.

(** ** Searches that find nothing *)

Lemma neighbors_of_no_later records : forall fresh dd dt,
  (forall r, In r records -> incomplete r = false ->
     exists t t0,
       parse_instant (datedepart r) (hdepart r) = Ok t
       /\ parse_instant dd dt = Ok t0
       /\ datetime_gt t t0 = false) ->
  neighbors_of fresh dd dt records = Ok [].
Proof.
  induction records as [|r records IH]; intros fresh dd dt Hall; [reflexivity|].
  cbn [neighbors_of].
  assert (Hrest : forall r', In r' records -> incomplete r' = false ->
            exists t t0,
              parse_instant (datedepart r') (hdepart r') = Ok t
              /\ parse_instant dd dt = Ok t0
              /\ datetime_gt t t0 = false)
    by (intros r' Hr'; apply Hall; right; assumption).
  destruct (incomplete r) eqn:Einc; [apply IH; assumption|].
  destruct (Hall r (or_introl eq_refl) Einc) as (t & t0 & Ht & Ht0 & Hgt).
  cbn [departure_date departure_time new_Node].
  rewrite Ht, Ht0. cbn [bind]. rewrite Hgt. apply IH. assumption.
Qed.

(** X10: when no train kept for the origin leaves strictly after the start
    instant (so also when none is kept at all), and the goal is another
    station, the search sends one query and returns no path. *)
Theorem dijkstra_no_later_train fuel fresh start goal dd dt ad at_ graph :
  start <> goal ->
  (forall r, In r (departing_records graph start dd dt) ->
     exists t t0,
       parse_instant (datedepart r) (hdepart r) = Ok t
       /\ parse_instant dd dt = Ok t0
       /\ datetime_gt t t0 = false) ->
  dijkstra (S (S fuel)) fresh start goal dd dt ad at_ graph
  = Some (Ok None, [(start, dd, dt)]).
Proof.
  intros Hne Hall. unfold dijkstra, initial_state. cbn [dijkstra_loop].
  unfold dijkstra_step at 1. cbn [open_set min_node queries next_oid closed_set].
  cbn [start_node name departure_date departure_time].
  destruct (String.eqb_spec start goal) as [Heq | _]; [contradiction|].
  unfold get_neighbors. rewrite neighbors_of_no_later.
  - cbn [fold_left remove_node oid]. rewrite Nat.eqb_refl.
    unfold dijkstra_step. cbn [open_set queries app]. reflexivity.
  - intros r Hr Hc. apply Hall. unfold departing_records.
    apply filter_In. split; [assumption | rewrite Hc; reflexivity].
Qed.

Lemma dijkstra_no_later_train_witness :
  dijkstra 2 0 "A" "B" Examples.day1 (Some "08:30")
           Examples.day1 (Some "09:30") Examples.morning_trains
  = Some (Ok None, [("A", Examples.day1, Some "08:30")]).
Proof.
  apply (dijkstra_no_later_train 0 0 "A" "B" Examples.day1 (Some "08:30")
           Examples.day1 (Some "09:30") Examples.morning_trains).
  - discriminate.
  - intros r [<- | []]. do 2 eexists. repeat split.
Defined.

(** ** The journey for a wished arrival time, at its edges *)

Lemma dijkstra_at_goal fuel fresh A dd dt ad at_ graph :
  dijkstra (S fuel) fresh A A dd dt ad at_ graph
  = Some (Ok (Some [start_node fresh A dd dt ad at_]), []).
Proof.
  unfold dijkstra, initial_state. cbn [dijkstra_loop].
  unfold dijkstra_step. cbn [open_set min_node queries].
  cbn [start_node name]. rewrite String.eqb_refl. reflexivity.
Qed.

Lemma searches_at_goal fuel fresh graph A nodes :
  ArrivalMode.searches (S fuel) fresh graph A A nodes
  = Some (Ok (map (fun premier_node =>
                     Some [start_node fresh A
                             (departure_date premier_node)
                             (departure_time premier_node)
                             (arrival_date premier_node)
                             (arrival_time premier_node)])
                  nodes)).
Proof.
  induction nodes as [|n nodes IH]; [reflexivity|].
  cbn [ArrivalMode.searches map]. rewrite dijkstra_at_goal, IH. reflexivity.
Qed.

(** X11: origin and goal the same station, with at least one first train
    on the date: every search returns the path of one node, and taking the
    last node but one of the first path raises [IndexError]. *)
Theorem arrival_mode_same_station_raises
    fuel graph A dep_date dep_time arrival_time_mode :
  get_premiernodes graph 0 A (Some dep_date) (Some dep_time) <> [] ->
  ArrivalMode.run (S fuel) graph A A dep_date dep_time arrival_time_mode
  = Some (Raise IndexError).
Proof.
  intros Hne. unfold ArrivalMode.run. rewrite searches_at_goal.
  destruct (get_premiernodes graph 0 A (Some dep_date) (Some dep_time))
    as [|n nodes]; [congruence|].
  reflexivity.
Qed.

Lemma arrival_mode_same_station_raises_witness :
  ArrivalMode.run 1 Examples.morning_trains "A" "A"
                  "01/06/2024" "00:00" "10:00"
  = Some (Raise IndexError).
Proof.
  apply (arrival_mode_same_station_raises 0 Examples.morning_trains "A"
           "01/06/2024" "00:00" "10:00").
  discriminate.
Defined.

(** X12: when no search gives a path (and so also when there is no first
    train), the branch reports that no train was found and raises
    nothing. *)
Theorem best_fit_without_path dep_date arrival_time_mode paths :
  Forall (fun p => p = None \/ p = Some []) paths ->
  ArrivalMode.best_fit dep_date arrival_time_mode paths
  = Ok ArrivalMode.NoTrain.
Proof.
  intros Hall. unfold ArrivalMode.best_fit.
  assert (Hc : ArrivalMode.collect dep_date arrival_time_mode paths [] []
               = Ok ([], [])).
  { induction Hall as [|p paths [-> | ->] _ IH]; cbn; auto. }
  rewrite Hc. reflexivity.
Qed.

Lemma best_fit_without_path_witness :
  ArrivalMode.best_fit "01/06/2024" "10:00" [None; None]
  = Ok ArrivalMode.NoTrain.
Proof.
  apply (best_fit_without_path "01/06/2024" "10:00" [None; None]).
  repeat constructor.
Defined.

(** ** InsertRelation: the batches of insert_data *)

Lemma batches_concat {A : Type} (l : list A) (b : nat) : forall fuel i,
  (0 < b)%nat -> (length l - i <= fuel)%nat ->
  concat (map (fun j => firstn b (skipn j l))
              (InsertRelation.range_from fuel i (length l) b))
  = skipn i l.
Proof.
  induction fuel as [|fuel IH]; intros i Hb Hfuel.
  - cbn. symmetry. apply skipn_all2. lia.
  - cbn [InsertRelation.range_from].
    destruct (Nat.ltb_spec i (length l)) as [Hlt | Hge].
    + cbn [map concat]. rewrite IH by lia.
      rewrite Nat.add_comm, <- skipn_skipn. apply firstn_skipn.
    + cbn. symmetry. apply skipn_all2. lia.
Qed.

Lemma batches_sizes {A : Type} (l : list A) (b : nat) : forall fuel i,
  (0 < b)%nat ->
  Forall (fun batch => (1 <= length batch <= b)%nat)
         (map (fun j => firstn b (skipn j l))
              (InsertRelation.range_from fuel i (length l) b)).
Proof.
  induction fuel as [|fuel IH]; intros i Hb; [constructor|].
  cbn [InsertRelation.range_from].
  destruct (Nat.ltb_spec i (length l)) as [Hlt | Hge]; [|constructor].
  cbn [map]. constructor; [|apply IH; assumption].
  rewrite length_firstn, length_skipn. lia.
Qed.

Lemma insert_data_concat {A : Type} (operations : list A) :
  concat (InsertRelation.insert_data operations) = operations.
Proof.
  unfold InsertRelation.insert_data, InsertRelation.batch_size.
  rewrite batches_concat by lia. reflexivity.
Qed.

(** X13: [insert_data] hands every operation to the database exactly once
    and in order: the batches put end to end are the operations; no batch
    is empty and none has more than 1000 operations. *)
Theorem insert_data_batches {A : Type} (operations : list A) :
  concat (InsertRelation.insert_data operations) = operations
  /\ Forall (fun batch => (1 <= length batch <= 1000)%nat)
            (InsertRelation.insert_data operations).
Proof.
  split; [apply insert_data_concat|].
  unfold InsertRelation.insert_data, InsertRelation.batch_size.
  apply batches_sizes. lia.
Qed.

(** ** Dates as texts: one day more, printed and read back *)

Lemma days_before_year_succ y :
  Calendar.days_before_year (y + 1)
  = Calendar.days_before_year y + 365
    + (if Calendar.is_leap y then 1 else 0).
Proof.
  unfold Calendar.days_before_year, Calendar.is_leap. cbv zeta.
  replace (y + 1 - 1) with y by lia.
  destruct (Z.eqb_spec (y mod 4) 0); destruct (Z.eqb_spec (y mod 100) 0);
    destruct (Z.eqb_spec (y mod 400) 0); cbn [negb andb orb];
    Z.to_euclidean_division_equations; lia.
Qed.

Lemma strptime_date_valid s a : DateText.strptime s = Ok a -> valid_date a.
Proof.
  unfold DateText.strptime.
  destruct (Strptime.split_at "/" s) as [[dtok s1]|]; [|discriminate].
  destruct (Strptime.parse_day dtok) as [d|] eqn:Ed; [|discriminate].
  destruct (Strptime.split_at "/" s1) as [[mtok s2]|]; [|discriminate].
  destruct (Strptime.parse_month mtok) as [m|] eqn:Em; [|discriminate].
  destruct (Strptime.parse_year s2) as [[y [|c rest]]|] eqn:Ey;
    try discriminate.
  destruct (_ && _) eqn:E; [|discriminate].
  intros [= <-]. apply parse_day_range in Ed. apply parse_month_range in Em.
  apply parse_year_range in Ey. unfold Calendar.MINYEAR in E. to_prop.
  unfold valid_date. cbn. lia.
Qed.

Lemma days_in_month_pos y m : 28 <= Calendar.days_in_month y m <= 31.
Proof.
  unfold Calendar.days_in_month.
  destruct (m =? 2); [destruct (Calendar.is_leap y); lia|].
  destruct (_ || _); lia.
Qed.

(** The day after a date of the calendar is a date of the calendar, and
    its ordinal is one more; there is a day after every date but the last
    day of year 9999. *)
Lemma tomorrow_ordinal a :
  valid_date a ->
  match DateText.tomorrow a with
  | Ok b => valid_date b /\ DateText.toordinal b = DateText.toordinal a + 1
  | Raise e =>
      e = OverflowError /\ DateText.year a = 9999
      /\ DateText.month a = 12 /\ DateText.day a = 31
  end.
Proof.
  intros (Hy & Hm & Hd). destruct a as [y m d]. cbn [DateText.year
    DateText.month DateText.day] in *.
  unfold DateText.tomorrow, DateText.toordinal, valid_date, Calendar.MAXYEAR.
  cbn [DateText.year DateText.month DateText.day].
  destruct (Z.ltb_spec d (Calendar.days_in_month y m)) as [Hlt | Hge].
  - cbn [DateText.year DateText.month DateText.day].
    unfold Calendar.ymd2ord. split; lia.
  - assert (d = Calendar.days_in_month y m) by lia. subst d.
    destruct (Z.ltb_spec m 12) as [Hm12 | Hm12].
    + cbn [DateText.year DateText.month DateText.day].
      pose proof (days_in_month_pos y (m + 1)).
      split; [lia|]. unfold Calendar.ymd2ord, Calendar.days_before_month,
        Calendar.days_in_month.
      assert (m = 1 \/ m = 2 \/ m = 3 \/ m = 4 \/ m = 5 \/ m = 6 \/ m = 7
              \/ m = 8 \/ m = 9 \/ m = 10 \/ m = 11) as Hcases by lia.
      repeat (destruct Hcases as [-> | Hcases]); try subst m;
        match goal with
        | |- context [Z.pos ?a + 1] =>
            let v := eval vm_compute in (Z.pos a + 1) in
            change (Z.pos a + 1) with v
        end;
        cbn; destruct (Calendar.is_leap y); cbn; lia.
    + assert (m = 12) by lia. subst m.
      destruct (Z.ltb_spec y 9999) as [Hy9 | Hy9].
      * cbn [DateText.year DateText.month DateText.day].
        split; [cbn; lia|].
        unfold Calendar.ymd2ord. rewrite days_before_year_succ.
        unfold Calendar.days_before_month. cbn.
        destruct (Calendar.is_leap y); cbn; lia.
      * repeat split; try reflexivity; lia.
Qed.

Lemma digit_char_cases k :
  0 <= k <= 9 ->
  k = 0 \/ k = 1 \/ k = 2 \/ k = 3 \/ k = 4 \/ k = 5 \/ k = 6 \/ k = 7
  \/ k = 8 \/ k = 9.
Proof. lia. Qed.

Lemma digit_of_digit_char k :
  0 <= k <= 9 ->
  Strptime.digit (DateText.digit_char k) = Some k
  /\ Ascii.eqb (DateText.digit_char k) "/" = false.
Proof.
  intros Hk. apply digit_char_cases in Hk.
  repeat (destruct Hk as [-> | Hk]); try subst k; split; reflexivity.
Qed.

Lemma append_cons c (s r : string) :
  (String c s ++ r)%string = String c (s ++ r)%string.
Proof. reflexivity. Qed.

Lemma append_nil (r : string) : (EmptyString ++ r)%string = r.
Proof. reflexivity. Qed.

Lemma append_nil_r (s : string) : (s ++ EmptyString)%string = s.
Proof.
  induction s as [|c s IH]; [reflexivity|].
  rewrite append_cons, IH. reflexivity.
Qed.

Lemma split_at_app sep s a b r :
  Strptime.split_at sep s = Some (a, b) ->
  Strptime.split_at sep (s ++ r) = Some (a, (b ++ r)%string).
Proof.
  revert a b. induction s as [|c s IH]; intros a b; [discriminate|].
  change (String c s ++ r)%string with (String c (s ++ r)%string).
  cbn [Strptime.split_at].
  destruct (Ascii.eqb c sep); [intros [= <- <-]; reflexivity|].
  destruct (Strptime.split_at sep s) as [[a' b']|]; [|discriminate].
  intros [= <- <-]. rewrite (IH a' b' eq_refl). reflexivity.
Qed.

Lemma split_at_two_digits n rest :
  0 <= n <= 99 ->
  Strptime.split_at "/" (DateText.two_digits n ++ String "/" rest)
  = Some (DateText.two_digits n, rest).
Proof.
  intros Hn. unfold DateText.two_digits. rewrite !append_cons, append_nil.
  cbn [Strptime.split_at].
  destruct (digit_of_digit_char (n / 10)) as [_ ->];
    [Z.to_euclidean_division_equations; lia|].
  destruct (digit_of_digit_char (n mod 10)) as [_ ->];
    [Z.to_euclidean_division_equations; lia|].
  reflexivity.
Qed.

Lemma parse_day_two_digits d :
  1 <= d <= 31 -> Strptime.parse_day (DateText.two_digits d) = Some d.
Proof.
  intros Hd. unfold DateText.two_digits, Strptime.parse_day.
  destruct (digit_of_digit_char (d / 10)) as [-> _];
    [Z.to_euclidean_division_equations; lia|].
  destruct (digit_of_digit_char (d mod 10)) as [-> _];
    [Z.to_euclidean_division_equations; lia|].
  assert (Hd10 : d / 10 = 0 \/ d / 10 = 1 \/ d / 10 = 2 \/ d / 10 = 3)
    by (Z.to_euclidean_division_equations; lia).
  assert (Hsum : 10 * (d / 10) + d mod 10 = d)
    by (Z.to_euclidean_division_equations; lia).
  destruct Hd10 as [E | [E | [E | E]]]; rewrite E in *; cbn [Z.eqb andb orb].
  - destruct (Z.leb_spec 1 (d mod 10)); [f_equal; lia | lia].
  - f_equal; lia.
  - f_equal; lia.
  - destruct (Z.leb_spec (d mod 10) 1); [cbn; f_equal; lia | lia].
Qed.

Lemma parse_month_two_digits m :
  1 <= m <= 12 -> Strptime.parse_month (DateText.two_digits m) = Some m.
Proof.
  intros Hm. unfold DateText.two_digits, Strptime.parse_month.
  destruct (digit_of_digit_char (m / 10)) as [-> _];
    [Z.to_euclidean_division_equations; lia|].
  destruct (digit_of_digit_char (m mod 10)) as [-> _];
    [Z.to_euclidean_division_equations; lia|].
  assert (Hm10 : m / 10 = 0 \/ m / 10 = 1)
    by (Z.to_euclidean_division_equations; lia).
  assert (Hsum : 10 * (m / 10) + m mod 10 = m)
    by (Z.to_euclidean_division_equations; lia).
  destruct Hm10 as [E | E]; rewrite E in *; cbn [Z.eqb andb orb].
  - destruct (Z.leb_spec 1 (m mod 10)); [f_equal; lia | lia].
  - destruct (Z.leb_spec (m mod 10) 2); [cbn; f_equal; lia | lia].
Qed.

Lemma parse_year_digits y rest :
  1000 <= y <= 9999 ->
  Strptime.parse_year (DateText.year_digits y ++ rest) = Some (y, rest).
Proof.
  intros Hy. unfold DateText.year_digits. cbn [DateText.digits_before].
  destruct (Z.ltb_spec y 10); [lia|].
  destruct (Z.ltb_spec (y / 10) 10); [Z.to_euclidean_division_equations; lia|].
  destruct (Z.ltb_spec (y / 10 / 10) 10);
    [Z.to_euclidean_division_equations; lia|].
  destruct (Z.ltb_spec (y / 10 / 10 / 10) 10);
    [|Z.to_euclidean_division_equations; lia].
  rewrite !append_cons, append_nil. cbn [Strptime.parse_year].
  destruct (digit_of_digit_char (y / 10 / 10 / 10 mod 10)) as [-> _];
    [Z.to_euclidean_division_equations; lia|].
  destruct (digit_of_digit_char (y / 10 / 10 mod 10)) as [-> _];
    [Z.to_euclidean_division_equations; lia|].
  destruct (digit_of_digit_char (y / 10 mod 10)) as [-> _];
    [Z.to_euclidean_division_equations; lia|].
  destruct (digit_of_digit_char (y mod 10)) as [-> _];
    [Z.to_euclidean_division_equations; lia|].
  do 2 f_equal. Z.to_euclidean_division_equations. lia.
Qed.

(** A date of the calendar from year 1000 on, printed with
    [strftime('%d/%m/%Y')], is read back by [strptime] as the same date. *)
Lemma strftime_strptime a :
  valid_date a -> 1000 <= DateText.year a ->
  DateText.strptime (DateText.strftime a) = Ok a.
Proof.
  intros (Hy & Hm & Hd) Hy1000. destruct a as [y m d].
  cbn [DateText.year DateText.month DateText.day] in *.
  pose proof (days_in_month_pos y m) as Hdim.
  unfold DateText.strptime, DateText.strftime.
  cbn [DateText.year DateText.month DateText.day].
  rewrite !(append_cons "/"), !append_nil.
  rewrite split_at_two_digits by lia.
  rewrite parse_day_two_digits by lia.
  rewrite split_at_two_digits by lia.
  rewrite parse_month_two_digits by lia.
  rewrite <- (append_nil_r (DateText.year_digits y)).
  rewrite parse_year_digits by lia.
  unfold Calendar.MINYEAR.
  destruct (Z.leb_spec 1 y); [|lia].
  destruct (Z.leb_spec d (Calendar.days_in_month y m)); [|lia].
  reflexivity.
Qed.

Lemma parse_year_app s y rest r :
  Strptime.parse_year s = Some (y, rest) ->
  Strptime.parse_year (s ++ r) = Some (y, (rest ++ r)%string).
Proof.
  destruct s as [|a [|b [|c [|d t]]]]; try discriminate.
  rewrite !append_cons. cbn [Strptime.parse_year].
  destruct (Strptime.digit a), (Strptime.digit b), (Strptime.digit c),
    (Strptime.digit d); try discriminate.
  intros [= <- <-]. reflexivity.
Qed.

Lemma fields_of_date s a t :
  DateText.strptime s = Ok a ->
  Strptime.fields (s ++ " " ++ t)
  = match time_fields (Strptime.drop_spaces t) with
    | Some (h, mi) =>
        Some (DateText.day a, DateText.month a, DateText.year a, h, mi)
    | None => None
    end.
Proof.
  unfold DateText.strptime, Strptime.fields.
  destruct (Strptime.split_at "/" s) as [[dtok s1]|] eqn:E1; [|discriminate].
  rewrite (split_at_app _ _ _ _ _ E1).
  destruct (Strptime.parse_day dtok) as [d|]; [|discriminate].
  destruct (Strptime.split_at "/" s1) as [[mtok s2]|] eqn:E2; [|discriminate].
  rewrite (split_at_app _ _ _ _ _ E2).
  destruct (Strptime.parse_month mtok) as [m|]; [|discriminate].
  destruct (Strptime.parse_year s2) as [[y [|c rest]]|] eqn:Ey;
    try discriminate.
  rewrite (parse_year_app _ _ _ _ Ey). rewrite append_nil.
  destruct (_ && _); [|discriminate]. intros [= <-].
  rewrite append_cons, append_nil. cbn [Strptime.skip_spaces].
  change (Strptime.is_space " ") with true. cbv iota.
  unfold time_fields.
  destruct (Strptime.split_at ":" (Strptime.drop_spaces t)) as [[htok s5]|];
    [|reflexivity].
  destruct (Strptime.parse_hour htok), (Strptime.parse_minute s5); reflexivity.
Qed.

(** A text that is a date, followed by a time, is read by the search as
    the instant of that date. *)
Lemma parse_instant_of_date s a t :
  DateText.strptime s = Ok a ->
  parse_instant (Some s) (Some t)
  = match time_fields (Strptime.drop_spaces t) with
    | Some (h, mi) => Ok (mkDatetime (DateText.toordinal a) h mi)
    | None => Raise ValueError
    end.
Proof.
  intros Ha. pose proof (strptime_date_valid _ _ Ha) as (Hy & Hm & Hd).
  unfold parse_instant, date_time_text. cbn [bind].
  unfold Strptime.strptime. rewrite (fields_of_date _ _ _ Ha).
  destruct (time_fields _) as [[h mi]|]; [|reflexivity].
  unfold Calendar.MINYEAR.
  destruct (Z.leb_spec 1 (DateText.year a)); [|lia].
  destruct (Z.leb_spec (DateText.day a)
              (Calendar.days_in_month (DateText.year a) (DateText.month a)));
    [|lia].
  reflexivity.
Qed.

(** X14: the date written for a stop on the day after the train's date (the
    train's date read with [strptime], one day added, printed with
    [strftime]) is read by the search, with any time, as the instant one
    day after the one it reads from the train's date with that time. *)
Theorem next_day_text_in_search date a b t D :
  DateText.strptime date = Ok a ->
  DateText.tomorrow a = Ok b ->
  1000 <= DateText.year b ->
  parse_instant (Some date) (Some t) = Ok D ->
  parse_instant (Some (DateText.strftime b)) (Some t)
  = Ok (mkDatetime (dt_ordinal D + 1) (dt_hour D) (dt_minute D)).
Proof.
  intros Ha Hb Hy HD.
  pose proof (tomorrow_ordinal a (strptime_date_valid _ _ Ha)) as Hord.
  rewrite Hb in Hord. destruct Hord as [Hvb Hord].
  rewrite (parse_instant_of_date _ _ _ Ha) in HD.
  rewrite (parse_instant_of_date _ _ _ (strftime_strptime b Hvb Hy)).
  destruct (time_fields _) as [[h mi]|]; [|discriminate].
  injection HD as <-. cbn. rewrite Hord. reflexivity.
Qed.

Lemma next_day_text_in_search_witness :
  parse_instant (Some "01/03/2024") (Some "00:20")
  = Ok (mkDatetime (738945 + 1) 0 20).
Proof.
  exact (next_day_text_in_search "29/02/2024"
           (DateText.mkDate 2024 2 29) (DateText.mkDate 2024 3 1) "00:20"
           (mkDatetime 738945 0 20) eq_refl eq_refl
           ltac:(cbn; lia) eq_refl).
Defined.

(** ** InsertRelation: the operations of prepare_operations *)

Lemma string_leb_compare a b :
  String.leb a b = true <-> String.compare a b <> Gt.
Proof.
  unfold String.leb. destruct (String.compare a b); split; congruence.
Qed.

Lemma string_leb_trans a b c :
  String.leb a b = true -> String.leb b c = true -> String.leb a c = true.
Proof.
  rewrite !string_leb_compare.
  apply (key_le_trans (Some a) (Some b) (Some c)).
Qed.

Lemma stop_order_trans a b c :
  stop_order a b -> stop_order b c -> stop_order a c.
Proof.
  destruct a as [[na ta] ia], b as [[nb tb] ib], c as [[nc tc] ic].
  unfold stop_order, InsertRelation.stop_le.
  repeat match goal with
  | |- context [?x <? ?y] => destruct (Z.ltb_spec x y)
  end; intros Hab Hbc; try discriminate; try reflexivity; try lia.
  eapply string_leb_trans; eassumption.
Qed.

Lemma stop_order_total a b : stop_order a b \/ stop_order b a.
Proof.
  destruct a as [[na ta] ia], b as [[nb tb] ib].
  unfold stop_order, InsertRelation.stop_le.
  repeat match goal with
  | |- context [?x <? ?y] => destruct (Z.ltb_spec x y)
  end; auto; try lia.
  apply String.leb_total.
Qed.

Lemma insert_stop_In s x l :
  In x (InsertRelation.insert_stop s l) <-> x = s \/ In x l.
Proof.
  induction l as [|y l IH]; cbn.
  - intuition auto.
  - destruct (InsertRelation.stop_le s y); cbn; rewrite ?IH; intuition auto.
Qed.

Lemma sort_stops_In x l : In x (InsertRelation.sort_stops l) <-> In x l.
Proof.
  unfold InsertRelation.sort_stops. induction l as [|y l IH]; cbn; [tauto|].
  rewrite insert_stop_In, IH. intuition auto.
Qed.

Lemma insert_stop_sorted s l :
  StronglySorted stop_order l ->
  StronglySorted stop_order (InsertRelation.insert_stop s l).
Proof.
  induction 1 as [|x l Hs IH Hx]; cbn.
  - constructor; constructor.
  - destruct (InsertRelation.stop_le s x) eqn:E.
    + constructor; [constructor; assumption|].
      constructor; [exact E|].
      eapply List.Forall_impl; [|exact Hx].
      intros y Hy. eapply stop_order_trans; [exact E | exact Hy].
    + constructor; [assumption|].
      rewrite List.Forall_forall. intros y Hy.
      apply insert_stop_In in Hy. destruct Hy as [-> | Hy].
      * destruct (stop_order_total x s) as [H | H]; [exact H|].
        unfold stop_order in H. congruence.
      * rewrite List.Forall_forall in Hx. auto.
Qed.

Lemma sort_stops_sorted l :
  StronglySorted stop_order (InsertRelation.sort_stops l).
Proof.
  unfold InsertRelation.sort_stops. induction l as [|s l IH]; cbn.
  - constructor.
  - apply insert_stop_sorted. assumption.
Qed.

Lemma stops_of_rows_flags has_columns rows :
  Forall day_flag (InsertRelation.stops_of_rows has_columns rows).
Proof.
  induction rows as [|row rows IH]; cbn; [constructor|].
  destruct has_columns; [|assumption].
  destruct (String.ltb _ _);
    (constructor; [unfold day_flag; cbn; auto|]);
    (constructor; [unfold day_flag; cbn; auto | assumption]).
Qed.

Lemma flatten_stops_cons train date n0 t0 i0 n1 t1 i1 rest :
  InsertRelation.flatten_stops train date ((n0, t0, i0) :: (n1, t1, i1) :: rest)
  = (date_initiale <- DateText.strptime date ;;
     date_suivante <- DateText.tomorrow date_initiale ;;
     others <- InsertRelation.flatten_stops train date ((n1, t1, i1) :: rest) ;;
     Ok ((if (i0 =? 1) && (i1 =? 1)
          then (n0, n1, train, DateText.strftime date_suivante,
                DateText.strftime date_suivante, t0, t1)
          else if (i0 =? 1) && (i1 =? 0)
          then (n0, n1, train, DateText.strftime date_suivante, date, t0, t1)
          else if (i0 =? 0) && (i1 =? 1)
          then (n0, n1, train, date, DateText.strftime date_suivante, t0, t1)
          else (n0, n1, train, date, date, t0, t1)) :: others)).
Proof. reflexivity. Qed.

Lemma flatten_stops_forward train date sublist : forall ops,
  StronglySorted stop_order sublist ->
  Forall day_flag sublist ->
  InsertRelation.flatten_stops train date sublist = Ok ops ->
  Forall forward ops /\ length ops = (length sublist - 1)%nat.
Proof.
  induction sublist as [|[[n0 t0] i0] sublist IH]; intros ops Hs Hf Hfl.
  - cbn in Hfl. injection Hfl as <-. split; [constructor | reflexivity].
  - destruct sublist as [|[[n1 t1] i1] rest].
    + cbn in Hfl. injection Hfl as <-. split; [constructor | reflexivity].
    + rewrite flatten_stops_cons in Hfl.
      destruct (DateText.strptime date) as [a|] eqn:Ea; [|discriminate].
      cbn [bind] in Hfl.
      destruct (DateText.tomorrow a) as [b|] eqn:Eb; [|discriminate].
      cbn [bind] in Hfl.
      destruct (InsertRelation.flatten_stops train date ((n1, t1, i1) :: rest))
        as [others|] eqn:Eo; [|discriminate].
      cbn [bind] in Hfl. injection Hfl as <-.
      apply StronglySorted_inv in Hs. destruct Hs as [Hs Hhd].
      apply List.Forall_cons_iff in Hf. destruct Hf as [Hf0 Hf].
      destruct (IH others Hs Hf Eo) as [Hall Hlen].
      split; [|cbn [length] in *; lia].
      constructor; [|assumption].
      apply List.Forall_cons_iff in Hhd. destruct Hhd as [Hle _].
      apply List.Forall_cons_iff in Hf. destruct Hf as [Hf1 _].
      unfold stop_order, InsertRelation.stop_le in Hle.
      unfold day_flag in Hf0, Hf1. cbn [snd] in Hf0, Hf1.
      unfold forward.
      destruct Hf0 as [-> | ->], Hf1 as [-> | ->]; cbn in Hle |- *;
        try discriminate; eauto.
      right. exists a, b. auto.
Qed.

(** X15: every operation that [prepare_operations] makes goes forward in
    time: both its dates are the same text and its departure time is not
    above its arrival time as texts, or its arrival date is the text of the
    day after its departure date.  (The stops of a train are sorted by day
    flag, then time, and consecutive stops are linked.) *)
Theorem prepare_operations_forward has_columns groups ops :
  InsertRelation.prepare_operations has_columns groups = Ok ops ->
  Forall forward ops.
Proof.
  unfold InsertRelation.prepare_operations, InsertRelation.trains_of.
  match goal with
  | |- context [List.filter _ (map ?f groups)] => set (trains := map f groups)
  end.
  assert (Htrains : Forall (fun o => StronglySorted stop_order (snd o)
                                     /\ Forall day_flag (snd o)) trains).
  { subst trains. rewrite List.Forall_forall. intros o Ho.
    apply in_map_iff in Ho. destruct Ho as ([[date train] rows] & <- & _).
    cbn [snd]. split; [apply sort_stops_sorted|].
    rewrite List.Forall_forall. intros s Hs.
    apply (proj1 (sort_stops_In _ _)) in Hs.
    pose proof (stops_of_rows_flags has_columns rows) as Hfl.
    rewrite List.Forall_forall in Hfl. auto. }
  clearbody trains. revert ops.
  induction Htrains as [|[[train date] sublist] trains [Hs Hf] _ IH];
    intros ops Hops.
  - cbn in Hops. injection Hops as <-. constructor.
  - cbn [List.filter] in Hops. cbn [snd] in Hs, Hf.
    destruct sublist as [|s sublist]; [apply IH; assumption|].
    cbn [InsertRelation.flatten_operations] in Hops.
    destruct (InsertRelation.flatten_stops train date (s :: sublist))
      as [first|] eqn:Ef; [|discriminate].
    cbn [bind] in Hops.
    destruct (InsertRelation.flatten_operations _) as [others|] eqn:Eo;
      [|discriminate].
    cbn [bind] in Hops. injection Hops as <-.
    apply List.Forall_app. split.
    + eapply flatten_stops_forward; eassumption.
    + apply IH. reflexivity.
Qed.

Lemma prepare_operations_forward_witness :
  Forall forward
    [ ("A", "B", "8001", "01/06/2024", "01/06/2024", "08:00", "09:00");
      ("B", "B", "8001", "01/06/2024", "01/06/2024", "09:00", "23:05");
      ("B", "C", "8001", "01/06/2024", "02/06/2024", "23:05", "00:30") ].
Proof.
  apply (prepare_operations_forward true
           [("01/06/2024", "8001",
             [InsertRelation.mkRow "A" "B" "08:00" "09:00";
              InsertRelation.mkRow "B" "C" "23:05" "00:30"])]).
  vm_compute. reflexivity.
Defined.

(** ** The database the insertion programs leave *)

Section DatabaseFacts.

Import Database.

Lemma option_eqb_eq a b : option_eqb a b = true <-> a = b.
Proof.
  destruct a, b; cbn; try (split; congruence).
  rewrite String.eqb_eq. split; congruence.
Qed.

Lemma same_relation_eq a b : same_relation a b = true <-> a = b.
Proof.
  unfold same_relation. rewrite !andb_true_iff, !Nat.eqb_eq, !option_eqb_eq.
  destruct a, b; cbn. split.
  - intros [[[[[[-> ->] ->] ->] ->] ->] ->]. reflexivity.
  - intros [= -> -> -> -> -> -> ->]. tauto.
Qed.

Lemma existsb_same_relation r l :
  existsb (same_relation r) l = true <-> In r l.
Proof.
  rewrite existsb_exists. split.
  - intros (x & Hx & E). apply same_relation_eq in E. subst. assumption.
  - intros H. exists r. split; [assumption | apply same_relation_eq; reflexivity].
Qed.

Lemma merge_relation_spec db r :
  gares (merge_relation db r) = gares db
  /\ In r (relations (merge_relation db r))
  /\ (forall x, In x (relations db) -> In x (relations (merge_relation db r)))
  /\ (forall x, In x (relations (merge_relation db r)) ->
        x = r \/ In x (relations db))
  /\ (In r (relations db) -> merge_relation db r = db).
Proof.
  unfold merge_relation.
  destruct (existsb (same_relation r) (relations db)) eqn:E.
  - apply existsb_same_relation in E. repeat split; auto.
  - cbn. repeat split.
    + apply in_app_iff. right. left. reflexivity.
    + intros x Hx. apply in_app_iff. left. assumption.
    + intros x Hx. apply in_app_iff in Hx. destruct Hx as [Hx | [<- | []]]; auto.
    + intros Hin. apply existsb_same_relation in Hin. congruence.
Qed.

Lemma fold_merge_spec rs : forall db,
  let db' := fold_left merge_relation rs db in
  gares db' = gares db
  /\ (forall x, In x (relations db') <-> In x rs \/ In x (relations db))
  /\ ((forall r, In r rs -> In r (relations db)) -> db' = db).
Proof.
  induction rs as [|r rs IH]; intros db; cbn zeta; cbn [fold_left].
  - repeat split; auto. intros [[] | H]; assumption.
  - destruct (merge_relation_spec db r) as (Hg & Hr & Hmono & Hinv & Hid).
    destruct (IH (merge_relation db r)) as (Hg' & Hrel & Hid').
    repeat split.
    + congruence.
    + intros Hx. apply Hrel in Hx. destruct Hx as [Hx | Hx]; [left; right; assumption|].
      apply Hinv in Hx. destruct Hx as [-> | Hx]; [left; left; reflexivity | auto].
    + intros [[<- | Hx] | Hx]; apply Hrel; auto.
    + intros Hall. rewrite (Hid (Hall r (or_introl eq_refl))) in *.
      apply Hid'. intros r' Hr'. apply Hall. right. assumption.
Qed.

Lemma run_merge_wanted db op :
  run_merge db op = fold_left merge_relation (wanted db op) db.
Proof. destruct op as [[[[[[? ?] ?] ?] ?] ?] ?]. reflexivity. Qed.

Lemma wanted_gares db db' op :
  gares db' = gares db -> wanted db' op = wanted db op.
Proof.
  intros Hg. destruct op as [[[[[[? ?] ?] ?] ?] ?] ?].
  unfold wanted, with_iata. rewrite Hg. reflexivity.
Qed.

Lemma create_relations_spec data : forall db,
  let db' := create_relations db data in
  gares db' = gares db
  /\ (forall x, In x (relations db') <->
        (exists op, In op data /\ In x (wanted db op))
        \/ In x (relations db))
  /\ ((forall op r, In op data -> In r (wanted db op) ->
         In r (relations db)) -> db' = db).
Proof.
  induction data as [|op data IH]; intros db; cbn zeta.
  - cbn. repeat split; auto.
    intros [(op & [] & _) | H]; assumption.
  - unfold create_relations. cbn [fold_left]. fold (create_relations (run_merge db op) data).
    rewrite run_merge_wanted.
    destruct (fold_merge_spec (wanted db op) db) as (Hg & Hrel & Hid).
    cbv zeta in Hg, Hrel, Hid.
    set (db1 := fold_left merge_relation (wanted db op) db) in *.
    destruct (IH db1) as (Hg' & Hrel' & Hid'). cbv zeta in Hg', Hrel', Hid'.
    repeat split.
    + congruence.
    + intros Hx. apply Hrel' in Hx.
      destruct Hx as [(op' & Hop' & Hx) | Hx].
      * left. exists op'. split; [right; assumption|].
        rewrite <- (wanted_gares db db1 op' Hg). assumption.
      * apply Hrel in Hx. destruct Hx as [Hx | Hx]; [|auto].
        left. exists op. split; [left; reflexivity | assumption].
    + intros [(op' & [<- | Hop'] & Hx) | Hx]; apply Hrel'.
      * right. apply Hrel. auto.
      * left. exists op'. split; [assumption|].
        rewrite (wanted_gares db db1 op' Hg). assumption.
      * right. apply Hrel. auto.
    + intros Hall.
      assert (E : db1 = db).
      { apply Hid. intros r Hr. apply (Hall op r); [left; reflexivity | assumption]. }
      rewrite E in *. apply Hid'. intros op' r Hop' Hr.
      apply (Hall op' r); [right; assumption | assumption].
Qed.

Lemma positions_from_In l : forall i k g x,
  nth_error l k = Some g -> iata g = x ->
  In (i + k)%nat (positions_from i x l).
Proof.
  induction l as [|h l IH]; intros i [|k] g x Hk Hx; cbn in Hk;
    try discriminate.
  - injection Hk as ->. cbn. rewrite Hx, String.eqb_refl, Nat.add_0_r.
    left. reflexivity.
  - cbn. replace (i + S k)%nat with (S i + k)%nat by lia.
    destruct (String.eqb (iata h) x); [right|]; eapply IH; eassumption.
Qed.

Lemma fold_left_concat {A B : Type} (f : A -> B -> A) (ls : list (list B)) :
  forall a,
    fold_left (fun a l => fold_left f l a) ls a = fold_left f (concat ls) a.
Proof.
  induction ls as [|l ls IH]; intros a; cbn; [reflexivity|].
  rewrite fold_left_app. apply IH.
Qed.

End DatabaseFacts.

Lemma insert_data_as_one_pass_eq db operations :
  Database.insert_data db operations
  = Database.create_relations db operations.
Proof.
  unfold Database.insert_data, Database.create_relations.
  rewrite (fold_left_concat Database.run_merge), insert_data_concat.
  reflexivity.
Qed.

(** X16: the transactions of [insert_data], one for each batch of 1000
    operations, leave the database that one pass of [create_relations]
    over all the operations leaves. *)
Theorem insert_data_as_one_pass db operations :
  Database.insert_data db operations
  = Database.create_relations db operations.
Proof.
  unfold Database.insert_data, Database.create_relations.
  rewrite (fold_left_concat Database.run_merge), insert_data_concat.
  reflexivity.
Qed.

(** X17: inserting the same operations a second time changes nothing (the
    relationships are merged, not created again), and inserting never
    touches the stations. *)
Theorem create_relations_idempotent db data :
  Database.create_relations (Database.create_relations db data) data
  = Database.create_relations db data
  /\ Database.gares (Database.create_relations db data) = Database.gares db
  /\ forall r, In r (Database.relations db) ->
       In r (Database.relations (Database.create_relations db data)).
Proof.
  destruct (create_relations_spec data db) as (Hg & Hrel & _).
  cbv zeta in Hg, Hrel. split; [|split; [assumption|]].
  - destruct (create_relations_spec data (Database.create_relations db data))
      as (_ & _ & Hid).
    apply Hid. intros op r Hop Hr. apply Hrel. left. exists op.
    split; [assumption|]. rewrite <- (wanted_gares db _ op Hg). assumption.
  - intros r Hr. apply Hrel. right. assumption.
Qed.

(** X18: what is inserted is found.  After [insert_data], an operation of
    the list between two stations of the database is a relationship of the
    graph the search reads, and [get_premiernodes], asked for the origin on
    the operation's departure date from a time not above its departure
    time, returns a node with the operation's times, arrival date and
    train. *)
Theorem inserted_operation_found
    db data iataO iataD idtrain datetrain datetrain2 depart arrive
    i j g1 g2 fresh t :
  In (iataO, iataD, idtrain, datetrain, datetrain2, depart, arrive) data ->
  nth_error (Database.gares db) i = Some g1 -> Database.iata g1 = iataO ->
  nth_error (Database.gares db) j = Some g2 -> Database.iata g2 = iataD ->
  String.leb t depart = true ->
  let graph := Database.graph_of (Database.insert_data db data) in
  In (mkMoove (Database.nom g1) (Database.nom g2) (Some idtrain)
              (Some datetrain) (Some datetrain2) (Some depart) (Some arrive))
     graph
  /\ exists n,
       In n (get_premiernodes graph fresh (Database.nom g1)
                              (Some datetrain) (Some t))
       /\ name n = Database.nom g1
       /\ departure_date n = Some datetrain
       /\ departure_time n = Some depart
       /\ arrival_date n = Some datetrain2
       /\ arrival_time n = Some arrive
       /\ train_number n = Some idtrain.
Proof.
  intros Hop Hi HO Hj HD Ht. cbv zeta.
  assert (Hin : In (mkMoove (Database.nom g1) (Database.nom g2) (Some idtrain)
                      (Some datetrain) (Some datetrain2) (Some depart)
                      (Some arrive))
                   (Database.graph_of (Database.insert_data db data))).
  { rewrite insert_data_as_one_pass_eq.
    destruct (create_relations_spec data db) as (Hg & Hrel & _).
    cbv zeta in Hg, Hrel. unfold Database.graph_of. apply in_flat_map.
    exists (Database.mkRelation i j (Some idtrain) (Some datetrain)
              (Some datetrain2) (Some depart) (Some arrive)).
    split.
    - apply Hrel. left. eexists. split; [exact Hop|].
      unfold wanted. apply in_map_iff. exists (i, j). split; [reflexivity|].
      apply in_prod; unfold Database.with_iata.
      + apply (positions_from_In _ 0%nat i g1); assumption.
      + apply (positions_from_In _ 0%nat j g2); assumption.
    - cbn [Database.source Database.target]. rewrite Hg, Hi, Hj.
      left. reflexivity. }
  split; [exact Hin|].
  destruct (get_premiernodes_complete _ fresh (Database.nom g1) datetrain t _
              Hin eq_refl eq_refl eq_refl)
    as (n & Hn & Hnode); [exists depart; auto|].
  exists n. split; [assumption|]. rewrite Hnode. repeat split.
Qed.

Lemma inserted_operation_found_witness :
  let db := Database.create_stations Database.empty
              [("FRPMO", "PARIS MONTPARNASSE"); ("FRRNS", "RENNES")] in
  let graph :=
    Database.graph_of
      (Database.insert_data db
         [("FRPMO", "FRRNS", "8001", "01/06/2024", "01/06/2024",
           "08:30", "10:15")]) in
  In (mkMoove "PARIS MONTPARNASSE" "RENNES" (Some "8001")
              (Some "01/06/2024") (Some "01/06/2024")
              (Some "08:30") (Some "10:15"))
     graph
  /\ exists n,
       In n (get_premiernodes graph 0 "PARIS MONTPARNASSE"
                              (Some "01/06/2024") (Some "00:00"))
       /\ name n = "PARIS MONTPARNASSE"
       /\ departure_date n = Some "01/06/2024"
       /\ departure_time n = Some "08:30"
       /\ arrival_date n = Some "01/06/2024"
       /\ arrival_time n = Some "10:15"
       /\ train_number n = Some "8001".
Proof.
  apply (inserted_operation_found
           (Database.create_stations Database.empty
              [("FRPMO", "PARIS MONTPARNASSE"); ("FRRNS", "RENNES")])
           [("FRPMO", "FRRNS", "8001", "01/06/2024", "01/06/2024",
             "08:30", "10:15")]
           "FRPMO" "FRRNS" "8001" "01/06/2024" "01/06/2024" "08:30" "10:15"
           0%nat 1%nat
           (Database.mkGare "PARIS MONTPARNASSE" "FRPMO")
           (Database.mkGare "RENNES" "FRRNS") 0%nat "00:00").
  - left. reflexivity.
  - reflexivity.
  - reflexivity.
  - reflexivity.
  - reflexivity.
  - reflexivity.
Defined.

Section StationFacts.

Import Database.

Lemma same_gare_In name IATA l :
  existsb (same_gare name IATA) l = true <-> In (mkGare name IATA) l.
Proof.
  rewrite existsb_exists. unfold same_gare. split.
  - intros ([n c] & Hx & E). cbn in E. apply andb_true_iff in E.
    destruct E as [E1 E2]. apply String.eqb_eq in E1, E2. subst. assumption.
  - intros H. exists (mkGare name IATA). split; [assumption|].
    cbn. rewrite !String.eqb_refl. reflexivity.
Qed.

Lemma create_station_spec db name IATA :
  relations (create_station db name IATA) = relations db
  /\ In (mkGare name IATA) (gares (create_station db name IATA))
  /\ (exists added, gares (create_station db name IATA)
                    = (gares db ++ added)%list)
  /\ (List.NoDup (gares db) ->
      List.NoDup (gares (create_station db name IATA)))
  /\ (In (mkGare name IATA) (gares db) -> create_station db name IATA = db).
Proof.
  unfold create_station.
  destruct (existsb (same_gare name IATA) (gares db)) eqn:E.
  - apply same_gare_In in E. repeat split; auto.
    exists []. rewrite app_nil_r. reflexivity.
  - cbn. repeat split.
    + apply in_app_iff. right. left. reflexivity.
    + eexists. reflexivity.
    + intros Hnd. apply List.NoDup_app; [assumption | | ].
      * constructor; [intros [] | constructor].
      * intros x Hx [<- | []]. apply same_gare_In in Hx. congruence.
    + intros Hin. apply same_gare_In in Hin. congruence.
Qed.

Lemma create_stations_spec dict : forall db,
  let db' := create_stations db dict in
  relations db' = relations db
  /\ (forall item, In item dict ->
        In (mkGare (snd item) (fst item)) (gares db'))
  /\ (exists added, gares db' = (gares db ++ added)%list)
  /\ (List.NoDup (gares db) -> List.NoDup (gares db'))
  /\ ((forall item, In item dict ->
         In (mkGare (snd item) (fst item)) (gares db)) -> db' = db).
Proof.
  induction dict as [|[c n] dict IH]; intros db; cbn zeta.
  - cbn. repeat split; auto.
    + intros item [].
    + exists []. rewrite app_nil_r. reflexivity.
  - unfold create_stations. cbn [fold_left fst snd].
    fold (create_stations (create_station db n c) dict).
    destruct (create_station_spec db n c) as (Hr & Hin & [a1 Ha1] & Hnd & Hid).
    destruct (IH (create_station db n c)) as (Hr' & Hin' & [a2 Ha2] & Hnd' & Hid').
    cbv zeta in Hr', Hin', Ha2, Hnd', Hid'.
    repeat split.
    + congruence.
    + intros item [<- | Hitem]; [|auto]. cbn [fst snd].
      rewrite Ha2. apply in_app_iff. left. assumption.
    + exists (a1 ++ a2)%list. rewrite Ha2, Ha1, app_assoc. reflexivity.
    + auto.
    + intros Hall.
      rewrite (Hid (Hall (c, n) (or_introl eq_refl))) in *.
      apply Hid'. intros item Hitem. apply Hall. right. assumption.
Qed.

End StationFacts.

(** X19: after the stations of the dictionary are created, each of them is
    a station of the database; the stations that were there keep their
    place and the relationships are untouched; stations that were distinct
    stay distinct; and creating the same stations again changes nothing. *)
Theorem create_stations_merged db station_dict :
  let db' := Database.create_stations db station_dict in
  Database.relations db' = Database.relations db
  /\ (forall IATA name, In (IATA, name) station_dict ->
        In (Database.mkGare name IATA) (Database.gares db'))
  /\ (exists added,
        Database.gares db' = (Database.gares db ++ added)%list)
  /\ (List.NoDup (Database.gares db) -> List.NoDup (Database.gares db'))
  /\ Database.create_stations db' station_dict = db'.
Proof.
  cbv zeta.
  destruct (create_stations_spec station_dict db) as (Hr & Hin & Hadd & Hnd & _).
  cbv zeta in Hr, Hin, Hadd, Hnd. repeat split; try assumption.
  - intros IATA name Hitem. apply (Hin (IATA, name) Hitem).
  - destruct (create_stations_spec station_dict
                (Database.create_stations db station_dict))
      as (_ & _ & _ & _ & Hid).
    apply Hid. assumption.
Qed.
